(** * Multiaudio: the session relay and the enrichment client

    A shallow embedding of [backend/app/main.py] and
    [backend/app/services/gemini_service.py].

    - Python values are a small inductive type; the built-in operations the
      code relies on ([.get], [x[0]], [x[:50]], [in], [.strip()], truthiness)
      are functions that return a [result], so that an exception the
      interpreter would raise is a value here.
    - A coroutine is a resumption: it runs on the shared variables of the
      session up to its next [await], where it exposes the shared state, and
      is resumed later with the answer of the awaited call and with the
      shared state as the other coroutines left it.
    - Library calls whose result the code cannot control ([json.loads],
      [json.dumps], formatting of a value) are variables of a section. *)

From Stdlib Require Import List ZArith NArith Bool Ascii String Lia.
From Stdlib Require Import Floats.SpecFloat Numbers.DecimalString.
Import ListNotations.

Set Implicit Arguments.
Set Warnings "-register-all".
Open Scope list_scope.

(* ================================================================= *)
(** ** Python strings *)

(** A Python [str] is a sequence of Unicode code points. *)
Definition pystr := list N.

(** An ASCII literal of the source, as a [pystr]. *)
Definition lit (s : string) : pystr := map N_of_ascii (list_ascii_of_string s).

Fixpoint str_eqb (a b : pystr) : bool :=
  match a, b with
  | [], [] => true
  | x :: a', y :: b' => N.eqb x y && str_eqb a' b'
  | _, _ => false
  end.

(** [str.isspace] for one character: the code points that Python's
    [str.strip()] removes when called without argument. *)
Definition isspace (c : N) : bool :=
  ((9 <=? c) && (c <=? 13) || (28 <=? c) && (c <=? 32)
   || (c =? 133) || (c =? 160) || (c =? 5760)
   || (8192 <=? c) && (c <=? 8202)
   || (c =? 8232) || (c =? 8233) || (c =? 8239) || (c =? 8287)
   || (c =? 12288))%N.

Fixpoint lstrip (s : pystr) : pystr :=
  match s with
  | c :: s' => if isspace c then lstrip s' else s
  | [] => []
  end.

Definition rstrip (s : pystr) : pystr := rev (lstrip (rev s)).

(** [s.strip()] *)
Definition strip (s : pystr) : pystr := rstrip (lstrip s).

Fixpoint startswith (p s : pystr) : bool :=
  match p, s with
  | [], _ => true
  | x :: p', y :: s' => N.eqb x y && startswith p' s'
  | _ :: _, [] => false
  end.

(** [p in s] for two strings: [p] occurs in [s] as a substring. *)
Fixpoint substring_in (p s : pystr) : bool :=
  startswith p s ||
  match s with
  | [] => false
  | _ :: s' => substring_in p s'
  end.

(** [sep.join(parts)] *)
Fixpoint join (sep : pystr) (parts : list pystr) : pystr :=
  match parts with
  | [] => []
  | [p] => p
  | p :: rest => p ++ sep ++ join sep rest
  end.

(** [str(n)] for an [int]. *)
Definition str_of_int (z : Z) : pystr := lit (NilZero.string_of_int (Z.to_int z)).

(** [text] between double quotes, as it stands in a source literal. *)
Definition quoted (s : string) : pystr := [34%N] ++ lit s ++ [34%N].

(** The line break of a triple-quoted literal. *)
Definition nl : pystr := [10%N].

(* ================================================================= *)
(** ** Python values *)

(** The values [json.loads] builds, which are also the values the code
    builds in its dict literals. *)
Inductive pyval : Type :=
| PNone
| PBool (b : bool)
| PInt (z : Z)
| PFloat (f : spec_float)
| PStr (s : pystr)
| PList (l : list pyval)
| PDict (d : list (pystr * pyval)).

(** A dict keeps its keys in insertion order; lookup finds the entry of a
    key, assignment replaces it in place or appends a new one. *)
Definition pydict := list (pystr * pyval).

Fixpoint dict_get (d : pydict) (k : pystr) : option pyval :=
  match d with
  | [] => None
  | (k', v) :: d' => if str_eqb k' k then Some v else dict_get d' k
  end.

Fixpoint dict_set (d : pydict) (k : pystr) (v : pyval) : pydict :=
  match d with
  | [] => [(k, v)]
  | (k', v') :: d' =>
      if str_eqb k' k then (k', v) :: d' else (k', v') :: dict_set d' k v
  end.

(** [d.get(k, default)] on a dict. *)
Definition dict_get_default (d : pydict) (k : pystr) (default : pyval) : pyval :=
  match dict_get d k with
  | Some v => v
  | None => default
  end.

(** [k in d] on a dict. *)
Definition dict_has (d : pydict) (k : pystr) : bool :=
  match dict_get d k with
  | Some _ => true
  | None => false
  end.

(** The float literals of the source. *)
Definition float_0_0 : spec_float := S754_zero false.
Definition float_0_2 : spec_float := S754_finite false 7205759403792794 (-55).
Definition float_0_8 : spec_float := S754_finite false 7205759403792794 (-53).

(** [bool(v)], the test of [if v:] and [not v]. *)
Definition truthy (v : pyval) : bool :=
  match v with
  | PNone => false
  | PBool b => b
  | PInt z => negb (Z.eqb z 0)
  | PFloat (S754_zero _) => false
  | PFloat _ => true
  | PStr s => match s with [] => false | _ => true end
  | PList l => match l with [] => false | _ => true end
  | PDict d => match d with [] => false | _ => true end
  end.

(** [v == "literal"]: only a string equals a string. *)
Definition eq_str (v : pyval) (s : pystr) : bool :=
  match v with
  | PStr t => str_eqb t s
  | _ => false
  end.

(** [type(v).__name__] *)
Definition type_name (v : pyval) : string :=
  match v with
  | PNone => "NoneType"
  | PBool _ => "bool"
  | PInt _ => "int"
  | PFloat _ => "float"
  | PStr _ => "str"
  | PList _ => "list"
  | PDict _ => "dict"
  end.

(* ================================================================= *)
(** ** Exceptions *)

(** The exceptions the code meets. Each of them derives from [Exception]
    and carries the text [str(e)] gives. *)
Inductive exn : Type :=
| TypeError (msg : pystr)
| AttributeError (msg : pystr)
| KeyError (msg : pystr)
| IndexError (msg : pystr)
| JSONDecodeError (msg : pystr)          (* json.JSONDecodeError *)
| TimeoutException (msg : pystr)         (* httpx.TimeoutException *)
| TimeoutError (msg : pystr)             (* asyncio.TimeoutError *)
| ConnectionClosed (msg : pystr)         (* websockets.exceptions.ConnectionClosed *)
| InvalidStatusCode (status_code : Z)    (* websockets.exceptions.InvalidStatusCode *)
| WebSocketDisconnect (msg : pystr)      (* fastapi.WebSocketDisconnect *)
| RecursionError (msg : pystr)           (* json.loads on a text nested too deep *)
| ValueError (msg : pystr)               (* a ValueError that is no JSONDecodeError *)
| OtherException (msg : pystr).          (* any other subclass of Exception *)

(** [str(e)] *)
Definition str_exn (e : exn) : pystr :=
  match e with
  | TypeError m | AttributeError m | KeyError m | IndexError m
  | JSONDecodeError m | TimeoutException m | TimeoutError m
  | ConnectionClosed m | WebSocketDisconnect m | RecursionError m | ValueError m
  | OtherException m => m
  | InvalidStatusCode c =>
      lit "server rejected WebSocket connection: HTTP " ++ str_of_int c
  end.

Inductive result (A : Type) : Type :=
| Ok (a : A)
| Raise (e : exn).
Arguments Ok {A} a.
Arguments Raise {A} e.

Definition is_ok {A} (r : result A) : bool :=
  match r with Ok _ => true | Raise _ => false end.

(* ================================================================= *)
(** ** Built-in operations that can raise *)

Definition no_attribute (v : pyval) (attr : string) : exn :=
  AttributeError (lit "'" ++ lit (type_name v) ++ lit "' object has no attribute '"
                  ++ lit attr ++ lit "'").

(** [v.get(k, default)]: only a dict has the method. *)
Definition py_get (v : pyval) (k : pystr) (default : pyval) : result pyval :=
  match v with
  | PDict d => Ok (dict_get_default d k default)
  | _ => Raise (no_attribute v "get")
  end.

Definition not_subscriptable (v : pyval) : exn :=
  TypeError (lit "'" ++ lit (type_name v) ++ lit "' object is not subscriptable").

(** [v[0]] *)
Definition py_index0 (v : pyval) : result pyval :=
  match v with
  | PList (x :: _) => Ok x
  | PList [] => Raise (IndexError (lit "list index out of range"))
  | PStr (c :: _) => Ok (PStr [c])
  | PStr [] => Raise (IndexError (lit "string index out of range"))
  | PDict _ => Raise (KeyError (lit "0"))   (* the keys of a JSON object are strings *)
  | _ => Raise (not_subscriptable v)
  end.

(** [v[:50]] *)
Definition py_slice50 (v : pyval) : result pyval :=
  match v with
  | PStr s => Ok (PStr (firstn 50 s))
  | PList l => Ok (PList (firstn 50 l))
  | PDict _ => Raise (TypeError (lit "unhashable type: 'slice'"))
  | _ => Raise (not_subscriptable v)
  end.

(** [v[k] = x] with a string key [k]. *)
Definition py_setitem (v : pyval) (k : pystr) (x : pyval) : result pyval :=
  match v with
  | PDict d => Ok (PDict (dict_set d k x))
  | PList _ =>
      Raise (TypeError (lit "list indices must be integers or slices, not str"))
  | _ => Raise (TypeError (lit "'" ++ lit (type_name v)
                           ++ lit "' object does not support item assignment"))
  end.

(** [v.strip()]: only a string has the method. *)
Definition py_strip (v : pyval) : result pystr :=
  match v with
  | PStr s => Ok (strip s)
  | _ => Raise (no_attribute v "strip")
  end.

(** ["literal" in v] *)
Definition py_contains (s : pystr) (v : pyval) : result bool :=
  match v with
  | PStr t => Ok (substring_in s t)
  | PList l => Ok (existsb (fun x => eq_str x s) l)
  | PDict d => Ok (dict_has d s)
  | _ => Raise (TypeError (lit "argument of type '" ++ lit (type_name v)
                           ++ lit "' is not iterable"))
  end.

(** [v in [a, b]] for string literals [a], [b]. *)
Definition eq_any_str (v : pyval) (choices : list pystr) : bool :=
  existsb (eq_str v) choices.

(* ================================================================= *)
(** ** Bytes and base64 *)

Definition bytes := list Byte.byte.

(** The character of a 6-bit value in the standard base64 alphabet. *)
Definition b64_char (v : N) : N :=
  (if v <? 26 then 65 + v
   else if v <? 52 then 97 + (v - 26)
   else if v <? 62 then 48 + (v - 52)
   else if v =? 62 then 43
   else 47)%N.

Definition b64_pad : N := 61%N.

(** [base64.b64encode(data).decode('utf-8')]: three bytes give four
    characters, a last group of one or two bytes is padded with [=]. *)
Fixpoint b64encode (data : bytes) : pystr :=
  match data with
  | [] => []
  | [a] =>
      let n := N.shiftl (Byte.to_N a) 16 in
      [b64_char (N.shiftr n 18); b64_char (N.land (N.shiftr n 12) 63);
       b64_pad; b64_pad]
  | [a; b] =>
      let n := N.lor (N.shiftl (Byte.to_N a) 16) (N.shiftl (Byte.to_N b) 8) in
      [b64_char (N.shiftr n 18); b64_char (N.land (N.shiftr n 12) 63);
       b64_char (N.land (N.shiftr n 6) 63); b64_pad]
  | a :: b :: c :: rest =>
      let n := N.lor (N.lor (N.shiftl (Byte.to_N a) 16) (N.shiftl (Byte.to_N b) 8))
                     (Byte.to_N c) in
      [b64_char (N.shiftr n 18); b64_char (N.land (N.shiftr n 12) 63);
       b64_char (N.land (N.shiftr n 6) 63); b64_char (N.land n 63)]
      ++ b64encode rest
  end.

(* ================================================================= *)
(** ** gemini_service.py: constants *)

Definition str (s : string) : pyval := PStr (lit s).
Definition kv (k : string) (v : pyval) : pystr * pyval := (lit k, v).

Definition GEMINI_API_URL : pystr :=
  lit "https://generativelanguage.googleapis.com/v1beta/models/gemini-2.0-flash:generateContent".

(** [class ProcessingMode(str, Enum)] *)
Inductive ProcessingMode : Type := STRICT | BALANCED.

Definition ProcessingMode_eqb (a b : ProcessingMode) : bool :=
  match a, b with
  | STRICT, STRICT | BALANCED, BALANCED => true
  | _, _ => false
  end.

Definition STRICT_SYSTEM_PROMPT : pystr :=
  join nl
    [lit "You are a transcription cleaner and prompt composer. Your job is to:";
     lit "1. Clean speech transcriptions while STRICTLY preserving meaning";
     lit "2. Translate Tamil/Hindi/Tunglish to English without losing ANY nuance";
     lit "3. Convert the cleaned text into a structured prompt format";
     [];
     lit "STRICT RULES - NEVER VIOLATE:";
     lit "- NEVER change numbers (42 stays 42, not " ++ quoted "forty-two" ++ lit " or " ++ quoted "around forty" ++ lit ")";
     lit "- NEVER change URLs, file paths, or code tokens";
     lit "- NEVER change proper nouns, names, or technical terms";
     lit "- NEVER add information that wasn't in the original";
     lit "- NEVER remove information that was clearly intentional";
     lit "- Only remove: " ++ quoted "um" ++ lit ", " ++ quoted "uh" ++ lit ", " ++ quoted "like" ++ lit ", " ++ quoted "you know" ++ lit ", hesitations, false starts, repetitions";
     [];
     lit "For Tunglish (Tamil-English mix): Translate the Tamil parts to English while keeping English parts intact.";
     lit "For pure Tamil/Hindi: Translate to natural English while preserving the exact meaning.";
     [];
     lit "If translation is ambiguous, set meaning_change_risk to " ++ quoted "high" ++ lit " and provide the most literal interpretation.";
     [];
     lit "IMPORTANT: Respond ONLY with valid JSON matching the schema provided. No markdown, no extra text."].

Definition BALANCED_SYSTEM_PROMPT : pystr :=
  join nl
    [lit "You are a transcription cleaner and prompt composer. Your job is to:";
     lit "1. Clean speech transcriptions while preserving core meaning";
     lit "2. Translate Tamil/Hindi/Tunglish to clear, natural English";
     lit "3. Convert the cleaned text into a well-structured prompt format";
     [];
     lit "RULES:";
     lit "- NEVER change numbers, URLs, file paths, code tokens, proper nouns";
     lit "- Remove fillers, hesitations, false starts, repetitions";
     lit "- Improve clarity and structure while keeping the intent";
     lit "- For prompts: add appropriate structure (bullet points, sections) if it improves clarity";
     [];
     lit "For Tunglish (Tamil-English mix): Translate naturally, combining Tamil and English parts into fluent English.";
     lit "For pure Tamil/Hindi: Translate to natural, idiomatic English.";
     [];
     lit "Balance natural expression with faithfulness to the original intent.";
     [];
     lit "IMPORTANT: Respond ONLY with valid JSON matching the schema provided. No markdown, no extra text."].

(** [get_json_schema()] *)
Definition get_json_schema : pyval :=
  PDict
    [kv "type" (str "object");
     kv "properties" (PDict
       [kv "detected_languages" (PDict
          [kv "type" (str "array");
           kv "items" (PDict [kv "type" (str "string")]);
           kv "description" (str "Languages detected in input (english, tamil, hindi, tunglish)")]);
        kv "raw_transcript" (PDict
          [kv "type" (str "string");
           kv "description" (str "Original transcript exactly as provided")]);
        kv "cleaned_english_meaning" (PDict
          [kv "type" (str "string");
           kv "description" (str "Cleaned English preserving exact meaning with minimal edits")]);
        kv "prompt_ready_english" (PDict
          [kv "type" (str "string");
           kv "description" (str "Structured English formatted for LLM prompt use")]);
        kv "removed_fillers" (PDict
          [kv "type" (str "boolean");
           kv "description" (str "Whether filler words were removed")]);
        kv "meaning_change_risk" (PDict
          [kv "type" (str "string");
           kv "enum" (PList [str "low"; str "medium"; str "high"]);
           kv "description" (str "Risk that cleaning altered the intended meaning")]);
        kv "entities" (PDict
          [kv "type" (str "array");
           kv "items" (PDict
             [kv "type" (str "object");
              kv "properties" (PDict
                [kv "text" (PDict [kv "type" (str "string")]);
                 kv "type" (PDict [kv "type" (str "string")])]);
              kv "required" (PList [str "text"; str "type"])]);
           kv "description" (str "Key entities (names, numbers, URLs, code) that must not be changed")]);
        kv "confidence_score" (PDict
          [kv "type" (str "number");
           kv "description" (str "Confidence in translation/cleanup accuracy (0-1)")])]);
     kv "required" (PList
       [str "detected_languages";
        str "raw_transcript";
        str "cleaned_english_meaning";
        str "prompt_ready_english";
        str "meaning_change_risk";
        str "entities";
        str "confidence_score"])].

(** [create_fallback_response(raw_transcript, error)] *)
Definition create_fallback_response (raw_transcript error : pystr) : pyval :=
  PDict
    [kv "error" (PStr error);
     kv "detected_languages" (PList [str "unknown"]);
     kv "raw_transcript" (PStr raw_transcript);
     kv "cleaned_english_meaning" (PStr raw_transcript);
     kv "prompt_ready_english" (PStr raw_transcript);
     kv "removed_fillers" (PBool false);
     kv "meaning_change_risk" (str "high");
     kv "entities" (PList []);
     kv "confidence_score" (PFloat float_0_0)].

(* ================================================================= *)
(** ** The shared state and the awaited calls *)

(** What the coroutines of one session share: the two settings read from
    the process environment, and the variables of [websocket_transcribe]
    that its inner functions declare [nonlocal]. [tasks] lists the calls
    [asyncio.create_task(process_with_gemini(text))] made so far, oldest
    first, each by its argument. *)
Record world : Type := mk_world {
  ELEVENLABS_API_KEY : option pystr;   (* os.getenv("eleven_labs"), read at import *)
  gemini_api : option pystr;           (* os.getenv("gemini_api") *)
  elevenlabs_ws : bool;                (* elevenlabs_ws is not None *)
  should_stop : bool;
  client_connected : bool;
  current_mode : ProcessingMode;
  accumulated_transcript : pystr;
  tasks : list pystr
}.

Definition set_elevenlabs_ws (b : bool) (s : world) : world :=
  mk_world (ELEVENLABS_API_KEY s) (gemini_api s) b (should_stop s)
           (client_connected s) (current_mode s) (accumulated_transcript s) (tasks s).

Definition set_should_stop (b : bool) (s : world) : world :=
  mk_world (ELEVENLABS_API_KEY s) (gemini_api s) (elevenlabs_ws s) b
           (client_connected s) (current_mode s) (accumulated_transcript s) (tasks s).

Definition set_client_connected (b : bool) (s : world) : world :=
  mk_world (ELEVENLABS_API_KEY s) (gemini_api s) (elevenlabs_ws s) (should_stop s)
           b (current_mode s) (accumulated_transcript s) (tasks s).

Definition set_current_mode (m : ProcessingMode) (s : world) : world :=
  mk_world (ELEVENLABS_API_KEY s) (gemini_api s) (elevenlabs_ws s) (should_stop s)
           (client_connected s) m (accumulated_transcript s) (tasks s).

Definition set_accumulated_transcript (t : pystr) (s : world) : world :=
  mk_world (ELEVENLABS_API_KEY s) (gemini_api s) (elevenlabs_ws s) (should_stop s)
           (client_connected s) (current_mode s) t (tasks s).

(** [asyncio.create_task(process_with_gemini(text))] *)
Definition create_task (text : pystr) (s : world) : world :=
  mk_world (ELEVENLABS_API_KEY s) (gemini_api s) (elevenlabs_ws s) (should_stop s)
           (client_connected s) (current_mode s) (accumulated_transcript s)
           (tasks s ++ [text]).

(** The response of the enrichment service, as [httpx] hands it over. *)
Record Response : Type := mk_Response {
  status_code : Z;
  response_text : pystr
}.

(** What [websocket.receive()] returns: an ASGI message, a dict with a
    [type] and, optionally, the keys [bytes] and [text], either of which
    may hold [None]. *)
Record Message : Type := mk_Message {
  message_type : pystr;
  message_bytes : option (option bytes);
  message_text : option (option pystr)
}.

(** The calls a coroutine awaits, each with the type of its answer. *)
Inductive io : Type -> Type :=
| websocket_accept : io unit
| websocket_send_json (data : pyval) : io unit
| websocket_close : io unit
| websocket_receive : io Message            (* asyncio.wait_for(websocket.receive(), timeout=30.0) *)
| websockets_connect (url : pystr) (additional_headers : pyval) : io unit
| elevenlabs_ws_next : io (option pystr)    (* async for message in elevenlabs_ws; None at its end *)
| elevenlabs_ws_send (frame : pystr) : io unit
| elevenlabs_ws_close : io unit
| client_post (url : pystr) (json : pyval) : io Response
| asyncio_gather : io unit.                 (* gather(receive_from_elevenlabs(), receive_from_client()) *)

(** A coroutine run from some shared state: it has returned or raised,
    leaving the state [s]; or it is suspended in an [await], the shared
    state being [s], and goes on with [k r s'] once the call has answered
    [r], from the state [s'] the shared variables then have. *)
Inductive act (A : Type) : Type :=
| Done (s : world) (r : result A)
| Await (R : Type) (s : world) (e : io R) (k : result R -> world -> act A).
Arguments Done {A} s r.
Arguments Await {A R} s e k.

Definition M (A : Type) : Type := world -> act A.

Definition ret {A} (a : A) : M A := fun s => Done s (Ok a).
Definition raise {A} (e : exn) : M A := fun s => Done s (Raise e).
Definition lift {A} (r : result A) : M A := fun s => Done s r.
Definition gets {A} (f : world -> A) : M A := fun s => Done s (Ok (f s)).
Definition modify (f : world -> world) : M unit := fun s => Done (f s) (Ok tt).
Definition await {R} (e : io R) : M R := fun s => Await s e (fun r s' => Done s' r).

Fixpoint bind_act {A B} (a : act A) (f : A -> M B) : act B :=
  match a with
  | Done s (Ok x) => f x s
  | Done s (Raise e) => Done s (Raise e)
  | Await s e k => Await s e (fun r s' => bind_act (k r s') f)
  end.

Definition bind {A B} (m : M A) (f : A -> M B) : M B := fun s => bind_act (m s) f.

(** [try: a  except Exception as e: h e] *)
Fixpoint except_act {A} (a : act A) (h : exn -> M A) : act A :=
  match a with
  | Done s (Ok x) => Done s (Ok x)
  | Done s (Raise e) => h e s
  | Await s e k => Await s e (fun r s' => except_act (k r s') h)
  end.

Definition try_except {A} (m : M A) (h : exn -> M A) : M A :=
  fun s => except_act (m s) h.

(** [try: a  finally: f]: [f] runs however [a] ends, and what [a] returned
    or raised stands unless [f] raises. *)
Fixpoint finally_act {A} (a : act A) (f : M unit) : act A :=
  match a with
  | Done s r => bind_act (f s) (fun _ s' => Done s' r)
  | Await s e k => Await s e (fun r s' => finally_act (k r s') f)
  end.

Definition try_finally {A} (m : M A) (f : M unit) : M A :=
  fun s => finally_act (m s) f.

Declare Scope py_scope.
Delimit Scope py_scope with py.
Notation "x <- m ;; k" := (bind m (fun x => k))
  (at level 61, m at next level, right associativity) : py_scope.
Notation "m ;; k" := (bind m (fun _ => k))
  (at level 61, right associativity) : py_scope.
Open Scope py_scope.

(** The two ways an iteration of a loop ends. *)
Inductive loop_ctl : Type := Continue | Break.

(** The first [n] iterations of [while True: body], where [body] says
    whether the loop goes on: [Continue] when the loop is still running
    after them, [Break] when it has ended. *)
Fixpoint iterations (n : nat) (body : M loop_ctl) : M loop_ctl :=
  match n with
  | O => ret Continue
  | S n' =>
      c <- body ;;
      match c with
      | Break => ret Break
      | Continue => iterations n' body
      end
  end.

(* ================================================================= *)
(** ** The two source files *)

Section Multiaudio.

(** [json.loads] on a string: the value it decodes to, or the exception
    it raises. That is a [JSONDecodeError] for a text that is not JSON; it
    can also be a [RecursionError], for a text nested too deep, or a
    [ValueError], for an integer of too many digits, neither of which is a
    [JSONDecodeError]. *)
Variable json_loads : pystr -> result pyval.

(** [json.dumps] on the frames sent to the provider. *)
Variable json_dumps : pyval -> pystr.

(** The text an f-string gives for a value that is not a string. *)
Variable format_value : pyval -> pystr.

(** [json.loads(v)] for any value [v]. *)
Definition py_json_loads (v : pyval) : result pyval :=
  match v with
  | PStr s => json_loads s
  | _ => Raise (TypeError (lit "the JSON object must be str, bytes or bytearray, not "
                           ++ lit (type_name v)))
  end.

(** [response.json()] *)
Definition Response_json (response : Response) : result pyval :=
  py_json_loads (PStr (response_text response)).

(** [f"{v}"] *)
Definition fmt (v : pyval) : pystr :=
  match v with
  | PStr s => s
  | _ => format_value v
  end.

(** [bool(v)] for an optional string: [None] and the empty string are false. *)
Definition truthy_opt (v : option pystr) : bool :=
  match v with
  | Some (_ :: _) => true
  | _ => false
  end.

(** [l[-3:]] *)
Definition last3 {A} (l : list A) : list A := skipn (List.length l - 3) l.

(* ----------------------------------------------------------------- *)
(** *** gemini_service.py *)

(** [get_gemini_api_key()] *)
Definition get_gemini_api_key : M (option pystr) := gets gemini_api.

(** The system prompt [process_transcript] selects. *)
Definition system_prompt (mode : ProcessingMode) : pystr :=
  if ProcessingMode_eqb mode STRICT then STRICT_SYSTEM_PROMPT
  else BALANCED_SYSTEM_PROMPT.

(** The user prompt [process_transcript] builds. *)
Definition user_prompt (raw_transcript : pystr) (context : option pystr)
    (previous_turns : option (list pydict)) : pystr :=
  let user_prompt :=
    lit "Process this transcript and return JSON:" ++ nl ++ nl ++ raw_transcript in
  let user_prompt :=
    match context with
    | Some (c :: context') =>
        lit "Session context: " ++ (c :: context') ++ nl ++ nl ++ user_prompt
    | _ => user_prompt
    end in
  match previous_turns with
  | Some (t :: turns) =>
      let turns_text :=
        join nl
          (map (fun t => lit "Previous: " ++ fmt (dict_get_default t (lit "raw") (PStr []))
                         ++ [32; 8594; 32]%N
                         ++ fmt (dict_get_default t (lit "cleaned") (PStr [])))
               (last3 (t :: turns))) in
      lit "Previous utterances:" ++ nl ++ turns_text ++ nl ++ nl ++ user_prompt
  | _ => user_prompt
  end.

(** The request payload [process_transcript] builds. *)
Definition payload (raw_transcript : pystr) (mode : ProcessingMode)
    (context : option pystr) (previous_turns : option (list pydict)) : pyval :=
  PDict
    [kv "contents" (PList
       [PDict
          [kv "parts" (PList
             [PDict [kv "text" (PStr (system_prompt mode))];
              PDict [kv "text" (PStr (user_prompt raw_transcript context previous_turns))]])]]);
     kv "generationConfig" (PDict
       [kv "temperature" (PFloat float_0_2);
        kv "topP" (PFloat float_0_8);
        kv "topK" (PInt 40);
        kv "maxOutputTokens" (PInt 2048);
        kv "responseMimeType" (str "application/json");
        kv "responseSchema" get_json_schema])].

(** [process_transcript(raw_transcript, mode, context, previous_turns)].
    The calls to [logger] are left out, except for the one whose argument
    can raise. *)
Definition process_transcript (raw_transcript : pystr) (mode : ProcessingMode)
    (context : option pystr) (previous_turns : option (list pydict)) : M pyval :=
  api_key <- get_gemini_api_key ;;
  if negb (truthy_opt api_key) then
    ret (PDict
           [kv "error" (str "Gemini API key not configured");
            kv "raw_transcript" (PStr raw_transcript);
            kv "cleaned_english_meaning" (PStr raw_transcript);
            kv "prompt_ready_english" (PStr raw_transcript);
            kv "detected_languages" (PList [str "unknown"]);
            kv "meaning_change_risk" (str "high");
            kv "entities" (PList []);
            kv "confidence_score" (PFloat float_0_0)])
  else
    let api_key := match api_key with Some k => k | None => [] end in
    let payload := payload raw_transcript mode context previous_turns in
    try_except
      (response <- await (client_post (GEMINI_API_URL ++ lit "?key=" ++ api_key) payload) ;;
       if negb (Z.eqb (status_code response) 200) then
         ret (create_fallback_response raw_transcript
                (lit "API error: " ++ str_of_int (status_code response)))
       else
         result <- lift (Response_json response) ;;
         candidates <- lift (py_get result (lit "candidates") (PList [])) ;;
         if negb (truthy candidates) then
           ret (create_fallback_response raw_transcript (lit "No response from Gemini"))
         else
           candidate <- lift (py_index0 candidates) ;;
           content <- lift (py_get candidate (lit "content") (PDict [])) ;;
           parts <- lift (py_get content (lit "parts") (PList [])) ;;
           if negb (truthy parts) then
             ret (create_fallback_response raw_transcript (lit "Empty response from Gemini"))
           else
             part <- lift (py_index0 parts) ;;
             text <- lift (py_get part (lit "text") (PStr [])) ;;
             try_except
               (output <- lift (py_json_loads text) ;;
                output <- lift (py_setitem output (lit "raw_transcript") (PStr raw_transcript)) ;;
                cleaned <- lift (py_get output (lit "cleaned_english_meaning") (PStr [])) ;;
                lift (py_slice50 cleaned) ;;   (* the argument of logger.info *)
                ret output)
               (fun e =>
                  match e with
                  | JSONDecodeError _ =>
                      ret (create_fallback_response raw_transcript
                             (lit "Invalid JSON from Gemini"))
                  | _ => raise e
                  end))
      (fun e =>
         match e with
         | TimeoutException _ =>
             ret (create_fallback_response raw_transcript (lit "API timeout"))
         | _ => ret (create_fallback_response raw_transcript (str_exn e))
         end).

(* ----------------------------------------------------------------- *)
(** *** main.py *)

(** [safe_send(data)] *)
Definition safe_send (data : pyval) : M bool :=
  connected <- gets client_connected ;;
  if negb connected then ret false
  else
    try_except
      (await (websocket_send_json data) ;;
       ret true)
      (fun e =>
         modify (set_client_connected false) ;;
         ret false).

(** [process_with_gemini(transcript)] *)
Definition process_with_gemini (transcript : pystr) : M unit :=
  connected <- gets client_connected ;;
  if negb (truthy (PStr (strip transcript))) || negb connected then ret tt
  else
    safe_send (PDict
      [kv "type" (str "processing");
       kv "message" (str "Processing with Gemini...")]) ;;
    mode <- gets current_mode ;;
    result <- process_transcript transcript mode None None ;;
    raw_transcript <- lift (py_get result (lit "raw_transcript") (PStr transcript)) ;;
    cleaned_meaning <- lift (py_get result (lit "cleaned_english_meaning") (PStr transcript)) ;;
    prompt_ready <- lift (py_get result (lit "prompt_ready_english") (PStr transcript)) ;;
    detected_languages <- lift (py_get result (lit "detected_languages") (PList [])) ;;
    risk_level <- lift (py_get result (lit "meaning_change_risk") (str "unknown")) ;;
    entities <- lift (py_get result (lit "entities") (PList [])) ;;
    confidence <- lift (py_get result (lit "confidence_score") (PInt 0)) ;;
    error <- lift (py_get result (lit "error") PNone) ;;
    safe_send (PDict
      [kv "type" (str "gemini_result");
       kv "raw_transcript" raw_transcript;
       kv "cleaned_meaning" cleaned_meaning;
       kv "prompt_ready" prompt_ready;
       kv "detected_languages" detected_languages;
       kv "risk_level" risk_level;
       kv "entities" entities;
       kv "confidence" confidence;
       kv "error" error]) ;;
    cleaned <- lift (py_get result (lit "cleaned_english_meaning") (PStr [])) ;;
    lift (py_slice50 cleaned) ;;   (* the argument of logger.info *)
    ret tt.

(** [accumulated_transcript += " " + text] *)
Definition append_final (text : pystr) : M unit :=
  modify (fun s => set_accumulated_transcript (accumulated_transcript s ++ lit " " ++ text) s).

(** [accumulated_transcript = ""] *)
Definition clear : M unit := modify (set_accumulated_transcript []).

(** The body of the loop of [receive_from_elevenlabs] after its test of
    the flags: what is done with one message of the provider. *)
Definition elevenlabs_message (message : pystr) : M unit :=
  try_except
    (data <- lift (py_json_loads (PStr message)) ;;
     msg_type <- lift (py_get data (lit "message_type") (PStr [])) ;;
     if eq_str msg_type (lit "session_started") then
       session_id <- lift (py_get data (lit "session_id") PNone) ;;
       safe_send (PDict
         [kv "type" (str "session_started");
          kv "session_id" session_id]) ;;
       ret tt
     else if eq_str msg_type (lit "partial_transcript") then
       text <- lift (py_get data (lit "text") (PStr [])) ;;
       if truthy text then
         safe_send (PDict
           [kv "type" (str "transcript");
            kv "text" text;
            kv "is_final" (PBool false)]) ;;
         ret tt
       else ret tt
     else if eq_any_str msg_type
               [lit "committed_transcript"; lit "committed_transcript_with_timestamps"] then
       text <- lift (py_get data (lit "text") (PStr [])) ;;
       text <- lift (py_strip text) ;;
       if truthy (PStr text) then
         language <- lift (py_get data (lit "language_code") (str "en")) ;;
         safe_send (PDict
           [kv "type" (str "transcript");
            kv "text" (PStr text);
            kv "is_final" (PBool true);
            kv "language" language]) ;;
         append_final text ;;
         connected <- gets client_connected ;;
         if connected then modify (create_task text) else ret tt
       else ret tt
     else
       is_error <- lift (py_contains (lit "error") msg_type) ;;
       if is_error then
         error <- lift (py_get data (lit "error") (str "Unknown error")) ;;
         safe_send (PDict
           [kv "type" (str "error");
            kv "message" error]) ;;
         ret tt
       else ret tt)
    (fun e =>
       match e with
       | JSONDecodeError _ => ret tt
       | _ => raise e
       end).

(** One turn of [async for message in elevenlabs_ws]. *)
Definition receive_from_elevenlabs_iteration : M loop_ctl :=
  next <- await elevenlabs_ws_next ;;
  match next with
  | None => ret Break
  | Some message =>
      stop <- gets should_stop ;;
      connected <- gets client_connected ;;
      if stop || negb connected then ret Break
      else
        elevenlabs_message message ;;
        ret Continue
  end.

(** [receive_from_elevenlabs()], its first [n] turns: both [except] clauses
    only log, and the function returns. *)
Definition receive_from_elevenlabs (n : nat) : M loop_ctl :=
  try_except
    (iterations n receive_from_elevenlabs_iteration)
    (fun e => ret Break).

(** [base64.b64encode(message["bytes"]).decode('utf-8')] *)
Definition py_b64encode (audio_data : option bytes) : result pystr :=
  match audio_data with
  | Some data => Ok (b64encode data)
  | None => Raise (TypeError (lit "a bytes-like object is required, not 'NoneType'"))
  end.

(** [json.loads(message["text"])] *)
Definition py_json_loads_text (text : option pystr) : result pyval :=
  match text with
  | Some t => py_json_loads (PStr t)
  | None => py_json_loads PNone
  end.

(** What is done with one text frame of the client. *)
Definition client_text (text : option pystr) : M unit :=
  try_except
    (data <- lift (py_json_loads_text text) ;;
     type <- lift (py_get data (lit "type") PNone) ;;
     if eq_str type (lit "stop") then
       let commit_msg := PDict
         [kv "message_type" (str "input_audio_chunk");
          kv "audio_base_64" (PStr []);
          kv "commit" (PBool true)] in
       await (elevenlabs_ws_send (json_dumps commit_msg))
     else if eq_str type (lit "set_mode") then
       mode <- lift (py_get data (lit "mode") (str "balanced")) ;;
       modify (set_current_mode (if eq_str mode (lit "strict") then STRICT else BALANCED))
     else if eq_str type (lit "clear") then
       clear
     else ret tt)
    (fun e =>
       match e with
       | JSONDecodeError _ => ret tt
       | _ => raise e
       end).

(** One turn of [while not should_stop and client_connected]. The counter
    of chunks, which only feeds the log, is left out. *)
Definition receive_from_client_iteration : M loop_ctl :=
  stop <- gets should_stop ;;
  connected <- gets client_connected ;;
  if stop || negb connected then ret Break
  else
    received <- try_except
                  (message <- await websocket_receive ;;
                   ret (Some message))
                  (fun e =>
                     match e with
                     | TimeoutError _ => ret None
                     | _ => raise e
                     end) ;;
    match received with
    | None => ret Continue
    | Some message =>
        if str_eqb (message_type message) (lit "websocket.disconnect") then
          modify (set_client_connected false) ;;
          modify (set_should_stop true) ;;
          ret Break
        else
          match message_bytes message, message_text message with
          | Some audio_data, _ =>
              audio_base64 <- lift (py_b64encode audio_data) ;;
              let chunk_message := PDict
                [kv "message_type" (str "input_audio_chunk");
                 kv "audio_base_64" (PStr audio_base64)] in
              await (elevenlabs_ws_send (json_dumps chunk_message)) ;;
              ret Continue
          | None, Some text =>
              client_text text ;;
              ret Continue
          | None, None => ret Continue
          end
    end.

(** [receive_from_client()], its first [n] turns: both [except] clauses
    mark the client as gone and stop the session. *)
Definition receive_from_client (n : nat) : M loop_ctl :=
  try_except
    (iterations n receive_from_client_iteration)
    (fun e =>
       modify (set_client_connected false) ;;
       modify (set_should_stop true) ;;
       ret Break).

Definition elevenlabs_url : pystr :=
  lit "wss://api.elevenlabs.io/v1/speech-to-text/realtime"
  ++ lit "?model_id=scribe_v2_realtime"
  ++ lit "&audio_format=pcm_16000"
  ++ lit "&include_language_detection=true"
  ++ lit "&commit_strategy=vad"
  ++ lit "&vad_silence_threshold_secs=1.0".

(** The message sent when the key of the provider is not configured. *)
Definition not_configured : pyval :=
  PDict
    [kv "type" (str "error");
     kv "message" (str "ElevenLabs API key not configured")].

(** The first assignments of [websocket_transcribe] to the variables its
    inner functions share. *)
Definition session_start : M unit :=
  modify (set_elevenlabs_ws false) ;;
  modify (set_should_stop false) ;;
  modify (set_client_connected true) ;;
  modify (set_current_mode BALANCED) ;;
  modify (set_accumulated_transcript []).

(** The [try] statement of [websocket_transcribe], with its [except] and
    [finally] clauses: the session once its variables are set, run with the
    key of the provider. *)
Definition session_run (key : pystr) : M unit :=
  try_finally
    (try_except
       (let headers := PDict [kv "xi-api-key" (PStr key)] in
        await (websockets_connect elevenlabs_url headers) ;;
        modify (set_elevenlabs_ws true) ;;
        sent <- safe_send (PDict
                  [kv "type" (str "connected");
                   kv "message" (str "Connected to ElevenLabs STT")]) ;;
        if negb sent then ret tt
        else await asyncio_gather)
       (fun e =>
          match e with
          | InvalidStatusCode status_code =>
              let error_msg := lit "ElevenLabs HTTP " ++ str_of_int status_code in
              try_except
                (await (websocket_send_json (PDict
                   [kv "type" (str "error");
                    kv "message" (PStr error_msg)])))
                (fun _ => ret tt)
          | _ =>
              try_except
                (await (websocket_send_json (PDict
                   [kv "type" (str "error");
                    kv "message" (PStr (str_exn e))])))
                (fun _ => ret tt)
          end))
    (modify (set_should_stop true) ;;
     ws <- gets elevenlabs_ws ;;
     if ws then await elevenlabs_ws_close else ret tt).

(** [websocket_transcribe(websocket)] *)
Definition websocket_transcribe : M unit :=
  await websocket_accept ;;
  key <- gets ELEVENLABS_API_KEY ;;
  if negb (truthy_opt key) then
    try_except
      (await (websocket_send_json not_configured) ;;
       await websocket_close)
      (fun _ => ret tt)
  else
    session_start ;;
    session_run (match key with Some k => k | None => [] end).

End Multiaudio.

(* ================================================================= *)
(** ** Runs and properties of coroutines *)

(** A call made by a coroutine. *)
Inductive call : Type :=
| Call (R : Type) (e : io R).
Arguments Call {R} e.

(** The kinds of call. *)
Inductive kind : Type :=
| Kaccept | Ksend_json | Kclose | Kreceive | Kconnect
| Knext | Ksend | Kclose_provider | Kpost | Kgather.

Definition kind_of {R} (e : io R) : kind :=
  match e with
  | websocket_accept => Kaccept
  | websocket_send_json _ => Ksend_json
  | websocket_close => Kclose
  | websocket_receive => Kreceive
  | websockets_connect _ _ => Kconnect
  | elevenlabs_ws_next => Knext
  | elevenlabs_ws_send _ => Ksend
  | elevenlabs_ws_close => Kclose_provider
  | client_post _ _ => Kpost
  | asyncio_gather => Kgather
  end.

Definition kind_eqb (a b : kind) : bool :=
  match a, b with
  | Kaccept, Kaccept | Ksend_json, Ksend_json | Kclose, Kclose
  | Kreceive, Kreceive | Kconnect, Kconnect | Knext, Knext | Ksend, Ksend
  | Kclose_provider, Kclose_provider | Kpost, Kpost | Kgather, Kgather => true
  | _, _ => false
  end.

(** The number of calls of the kind [k] among [calls]. *)
Fixpoint count_kind (k : kind) (calls : list call) : nat :=
  match calls with
  | [] => 0
  | Call e :: calls' =>
      (if kind_eqb (kind_of e) k then 1 else 0) + count_kind k calls'
  end.

(** The answers of the outside world: [env n e] is what the call [e]
    returns or raises when [n] calls of its kind were made before it. *)
Definition answers : Type := nat -> forall R, io R -> result R.

(** A coroutine run alone, nothing else touching the shared state while
    it is suspended: the calls it makes, in order after the calls [past]
    made before, the state it leaves and what it returns or raises. *)
Fixpoint run_from {A} (env : answers) (past : list call) (a : act A)
  : list call * (world * result A) :=
  match a with
  | Done s r => (past, (s, r))
  | Await s e k =>
      run_from env (past ++ [Call e]) (k (env (count_kind (kind_of e) past) _ e) s)
  end.

Definition run {A} (env : answers) (a : act A) : list call * (world * result A) :=
  run_from env [] a.

(** The message a call writes to the client, if it is such a write. *)
Definition sent {R} (e : io R) : option pyval :=
  match e with
  | websocket_send_json data => Some data
  | _ => None
  end.

Section Sat.

(** What can be relied on of the shared state each time the coroutine is
    resumed, whatever the other coroutines did meanwhile. *)
Variable rely : world -> Prop.

(** What the coroutine guarantees at each of its awaits: of the state [s0]
    it was started or last resumed in, of the state [s] it exposes, and of
    the call [e] it makes. *)
Variable guar : forall R, world -> world -> io R -> Prop.

(** [sat post s0 a], for a coroutine [a] started or last resumed in the
    state [s0]: whatever the calls answer, [a] keeps [guar] at every await
    and, if it ends, ends in a state and with a result that satisfy [post]
    (of the state it was last resumed in, of the state it leaves, and of
    the result). *)
Fixpoint sat {A} (post : world -> world -> result A -> Prop) (s0 : world) (a : act A) : Prop :=
  match a with
  | Done s r => post s0 s r
  | Await s e k => guar s0 s e /\ forall r s', rely s' -> sat post s' (k r s')
  end.

End Sat.

(** The program never ends by raising. *)
Definition never_raises {A} (m : M A) : Prop :=
  forall s,
    sat (fun _ => True) (fun _ _ _ _ => True) (fun _ _ r => is_ok r = true) s (m s).

(** Whatever the calls answer and whatever happens meanwhile, the program
    ends, and ends by returning a value that satisfies [Q]. *)
Definition always_returns {A} (Q : A -> Prop) (m : M A) : Prop :=
  forall s,
    sat (fun _ => True) (fun _ _ _ _ => True)
        (fun _ _ r => exists v, r = Ok v /\ Q v) s (m s).

(** The client is marked as gone. *)
Definition gone (s : world) : Prop := client_connected s = false.

(** From [s0] to [s] a client that was gone is still gone. *)
Definition keeps_gone (s0 s : world) : Prop := gone s0 -> gone s.

(** The program never marks a client that is gone as connected again:
    whenever it is started or resumed with the client gone, the client is
    still gone when it next suspends or ends. The program is taken from
    any state [s] reached from a state [s0] that the client, if gone, was
    still gone in, so that the property holds of a program run as a part of
    another. *)
Definition never_reconnects {A} (m : M A) : Prop :=
  forall s0 s, keeps_gone s0 s ->
    sat (fun _ => True)
        (fun _ s0 s' _ => keeps_gone s0 s')
        (fun s0 s' _ => keeps_gone s0 s') s0 (m s).

(** A coroutine last resumed in [s0] never marks a client that is gone as
    connected again, and starts a write to the client only in a state where
    the client is marked as connected. *)
Definition guards_client_from {A} (s0 : world) (a : act A) : Prop :=
  sat (fun _ => True)
      (fun _ s0 s' e =>
         keeps_gone s0 s' /\ (sent e <> None -> client_connected s' = true))
      (fun s0 s' _ => keeps_gone s0 s') s0 a.

(** The same of a program, taken from any state [s] reached from a state
    [s0] that the client, if gone, was still gone in. *)
Definition guards_client {A} (m : M A) : Prop :=
  forall s0 s, keeps_gone s0 s -> guards_client_from s0 (m s).

(** A coroutine suspended in a call, whatever it returns in the end. *)
Inductive suspended : Type :=
| Suspended (A R : Type) (e : io R) (k : result R -> world -> act A).
Arguments Suspended {A R} e k.

(** Where a coroutine stands once it has run from its start or from a
    resumption: the shared state it leaves, the call it has started if it
    is suspended again, and itself as a suspended coroutine in that case. *)
Definition state_of {A} (a : act A) : world :=
  match a with
  | Done s _ => s
  | Await s _ _ => s
  end.

Definition calls_of {A} (a : act A) : list call :=
  match a with
  | Done _ _ => []
  | Await _ e _ => [Call e]
  end.

Definition suspended_of {A} (a : act A) : list suspended :=
  match a with
  | Done _ _ => []
  | Await _ e k => [Suspended e k]
  end.

(** The event loop: the shared state and the suspended coroutines. One
    step resumes a suspended coroutine with an answer to its call, from the
    shared state as it is, or starts one of the programs [started]; the
    coroutine runs to its next await or to its end. A run is a sequence of
    steps, with the calls started on the way. *)
Inductive event_loop (started : forall A, M A -> Prop)
  : world * list suspended -> list call -> world * list suspended -> Prop :=
| loop_idle : forall c, event_loop started c [] c
| loop_resume : forall w before after A R (e : io R) (k : result R -> world -> act A) r
                       calls c,
    event_loop started
      (state_of (k r w), before ++ suspended_of (k r w) ++ after) calls c ->
    event_loop started
      (w, before ++ Suspended e k :: after) (calls_of (k r w) ++ calls) c
| loop_start : forall w pool A (m : M A) calls c,
    started A m ->
    event_loop started (state_of (m w), suspended_of (m w) ++ pool) calls c ->
    event_loop started (w, pool) (calls_of (m w) ++ calls) c.

(** A suspended coroutine guards the client however it is resumed. *)
Definition guards_client_suspended (t : suspended) : Prop :=
  match t with
  | Suspended e k => forall r s, guards_client_from s (k r s)
  end.

(** The call is not a write to the client. *)
Definition not_a_write (c : call) : Prop :=
  match c with
  | Call e => sent e = None
  end.

(** Every message written to the client satisfies [P]. *)
Definition every_message {A} (P : pyval -> Prop) (m : M A) : Prop :=
  forall s0 s,
    sat (fun _ => True)
        (fun _ _ _ e => forall data, sent e = Some data -> P data)
        (fun _ _ _ => True) s0 (m s).

(** The message is a [transcript] message. *)
Definition is_transcript (m : pyval) : bool :=
  match m with
  | PDict d =>
      match dict_get d (lit "type") with
      | Some t => eq_str t (lit "transcript")
      | None => false
      end
  | _ => false
  end.

(** The language code the provider gave with a message, if it gave one. *)
Definition language_code (json_loads : pystr -> result pyval) (message : pystr)
  : option pyval :=
  match json_loads message with
  | Ok (PDict data) => dict_get data (lit "language_code")
  | _ => None
  end.

(** What is asked of a message written to the client, [code] being the
    language code of the provider: a final transcript carries as [language]
    the code, or ["en"] without a code; a partial transcript carries no
    [language]; a transcript is one or the other. *)
Definition language_ok (code : option pyval) (m : pyval) : Prop :=
  match m with
  | PDict d =>
      if is_transcript m then
        match dict_get d (lit "is_final") with
        | Some (PBool true) =>
            dict_get d (lit "language")
            = Some (match code with Some c => c | None => str "en" end)
        | Some (PBool false) => dict_get d (lit "language") = None
        | _ => False
        end
      else True
  | _ => True
  end.

(** The coroutines that are started in the course of a session: the two
    loops, run for any number of turns, and the tasks. *)
Inductive session_coroutine (json_loads : pystr -> result pyval)
    (json_dumps format_value : pyval -> pystr) : forall A, M A -> Prop :=
| started_receive_from_elevenlabs : forall n,
    session_coroutine json_loads json_dumps format_value
      (receive_from_elevenlabs json_loads n)
| started_receive_from_client : forall n,
    session_coroutine json_loads json_dumps format_value
      (receive_from_client json_loads json_dumps n)
| started_process_with_gemini : forall transcript,
    session_coroutine json_loads json_dumps format_value
      (process_with_gemini json_loads format_value transcript).

(* ================================================================= *)
(** ** The schema of the enrichment result *)

Definition type_ok (type : option pyval) (v : pyval) : bool :=
  match type with
  | None => true
  | Some t =>
      if eq_str t (lit "object") then match v with PDict _ => true | _ => false end
      else if eq_str t (lit "array") then match v with PList _ => true | _ => false end
      else if eq_str t (lit "string") then match v with PStr _ => true | _ => false end
      else if eq_str t (lit "boolean") then match v with PBool _ => true | _ => false end
      else if eq_str t (lit "number") then
        match v with PInt _ | PFloat _ => true | _ => false end
      else false
  end.

Definition enum_ok (enum : option pyval) (v : pyval) : bool :=
  match enum with
  | None => true
  | Some (PList choices) =>
      match v with
      | PStr s => existsb (fun c => eq_str c s) choices
      | _ => false
      end
  | Some _ => false
  end.

Definition required_ok (required : option pyval) (d : pydict) : bool :=
  match required with
  | None => true
  | Some (PList keys) =>
      forallb (fun k => match k with PStr k => dict_has d k | _ => false end) keys
  | Some _ => false
  end.

(** [validate depth schema v]: the value [v] is an instance of [schema],
    for the keywords of JSON Schema that [get_json_schema] uses ([type],
    [enum], [properties], [required], [items]) and schemas nested at most
    [depth] deep. *)
Fixpoint validate (depth : nat) (schema v : pyval) : bool :=
  match depth, schema with
  | S depth', PDict sch =>
      type_ok (dict_get sch (lit "type")) v
      && enum_ok (dict_get sch (lit "enum")) v
      && match v with
         | PDict d =>
             required_ok (dict_get sch (lit "required")) d
             && match dict_get sch (lit "properties") with
                | Some (PDict properties) =>
                    forallb (fun p => match dict_get d (fst p) with
                                      | Some x => validate depth' (snd p) x
                                      | None => true
                                      end) properties
                | Some _ => false
                | None => true
                end
         | PList l =>
             match dict_get sch (lit "items") with
             | Some items => forallb (validate depth' items) l
             | None => true
             end
         | _ => true
         end
  | _, _ => false
  end.

(** The value conforms to the schema the service is asked to follow. *)
Definition conforms (v : pyval) : bool := validate 4 get_json_schema v.

(** The fallback result for the text [raw]: a result that conforms to the
    schema, has its [error] set, its risk [high], its confidence [0.0], its
    languages [["unknown"]], and the text itself as cleaned meaning and as
    prompt. *)
Definition is_fallback (raw : pystr) (v : pyval) : bool :=
  conforms v
  && match v with
     | PDict d =>
         match dict_get d (lit "error") with Some (PStr _) => true | _ => false end
         && match dict_get d (lit "meaning_change_risk") with
            | Some r => eq_str r (lit "high") | None => false end
         && match dict_get d (lit "confidence_score") with
            | Some (PFloat (S754_zero false)) => true | _ => false end
         && match dict_get d (lit "detected_languages") with
            | Some (PList [l]) => eq_str l (lit "unknown") | _ => false end
         && match dict_get d (lit "cleaned_english_meaning") with
            | Some c => eq_str c raw | None => false end
         && match dict_get d (lit "prompt_ready_english") with
            | Some p => eq_str p raw | None => false end
     | _ => false
     end.

(** The structured output a decoded response carries: the [text] of the
    first part of the content of its first candidate, when the response is
    made that way. *)
Definition output_text (result : pyval) : option pyval :=
  match result with
  | PDict d =>
      match dict_get d (lit "candidates") with
      | Some (PList (PDict c :: _)) =>
          match dict_get c (lit "content") with
          | Some (PDict ct) =>
              match dict_get ct (lit "parts") with
              | Some (PList (PDict p :: _)) =>
                  Some (dict_get_default p (lit "text") (PStr []))
              | _ => None
              end
          | _ => None
          end
      | _ => None
      end
  | _ => None
  end.

(** A value that [x[:50]] accepts. *)
Definition sliceable (v : pyval) : bool :=
  match v with
  | PStr _ | PList _ => true
  | _ => false
  end.

(** The result carries the text [raw] as its [raw_transcript]. *)
Definition echoes (raw : pystr) (v : pyval) : bool :=
  match v with
  | PDict d =>
      match dict_get d (lit "raw_transcript") with
      | Some x => eq_str x raw
      | None => false
      end
  | _ => false
  end.

(** The call to the service went well all the way: it answered with
    status 200 and a structured output that decodes to a JSON object, whose
    cleaned meaning the log line can cut; [v] is that object with its
    [raw_transcript] set to [raw]. *)
Definition decoded_output (json_loads : pystr -> result pyval)
    (raw : pystr) (r : result Response) (v : pyval) : Prop :=
  exists response result text output,
    r = Ok response
    /\ status_code response = 200%Z
    /\ Response_json json_loads response = Ok result
    /\ output_text result = Some (PStr text)
    /\ json_loads text = Ok (PDict output)
    /\ sliceable (dict_get_default output (lit "cleaned_english_meaning") (PStr [])) = true
    /\ v = PDict (dict_set output (lit "raw_transcript") (PStr raw)).

(** What a call to the service comes to, failure by failure: the fallback
    when the request raises (a timeout or any error of the transport), when
    the status is not 200, when the body cannot be decoded, when the payload
    is empty or lacks the structured output, and when the structured output
    cannot be decoded, is not an object, or is an object whose cleaned
    meaning the log line cannot cut; otherwise the decoded object, whether
    or not it follows the schema. *)
Inductive outcome : Type :=
| Fallback
| Output (output : pydict).

Definition expected_outcome (json_loads : pystr -> result pyval)
    (r : result Response) : outcome :=
  match r with
  | Raise _ => Fallback
  | Ok response =>
      if negb (Z.eqb (status_code response) 200) then Fallback
      else
        match Response_json json_loads response with
        | Raise _ => Fallback
        | Ok result =>
            match output_text result with
            | Some (PStr text) =>
                match json_loads text with
                | Ok (PDict output) =>
                    if sliceable (dict_get_default output (lit "cleaned_english_meaning")
                                                   (PStr []))
                    then Output output
                    else Fallback
                | _ => Fallback
                end
            | _ => Fallback
            end
        end
  end.

(** The frame that asks the provider to commit the pending transcript. *)
Definition commit_frame (json_dumps : pyval -> pystr) : pystr :=
  json_dumps (PDict
    [kv "message_type" (str "input_audio_chunk");
     kv "audio_base_64" (PStr []);
     kv "commit" (PBool true)]).

(** The frame that carries a chunk of audio to the provider. *)
Definition chunk_frame (json_dumps : pyval -> pystr) (data : bytes) : pystr :=
  json_dumps (PDict
    [kv "message_type" (str "input_audio_chunk");
     kv "audio_base_64" (PStr (b64encode data))]).

(** The instructions a request to the service carries:
    [payload["contents"][0]["parts"][0]["text"]]. *)
Definition request_instructions (payload : pyval) : option pyval :=
  match payload with
  | PDict d =>
      match dict_get d (lit "contents") with
      | Some (PList (PDict c :: _)) =>
          match dict_get c (lit "parts") with
          | Some (PList (PDict p :: _)) => dict_get p (lit "text")
          | _ => None
          end
      | _ => None
      end
  | _ => None
  end.

(* ================================================================= *)
(** ** Sample inputs *)

(** A source text written with ['] where the wire has the double quote. *)
Definition dq (s : string) : pystr :=
  map (fun c => if N.eqb c 39 then 34%N else c) (lit s).

(** A decoder that knows the texts of [table] only. *)
Fixpoint loads_table (table : list (pystr * pyval)) (text : pystr) : result pyval :=
  match table with
  | [] => Raise (JSONDecodeError (lit "Expecting value: line 1 column 1 (char 0)"))
  | (t, v) :: table' => if str_eqb t text then Ok v else loads_table table' text
  end.

(** A response of the enrichment service whose structured output is the
    empty object. *)
Definition empty_object_body : pystr :=
  dq "{'candidates': [{'content': {'parts': [{'text': '{}'}]}}]}".

Definition sample_loads : pystr -> result pyval :=
  loads_table
    [(empty_object_body,
      PDict [kv "candidates" (PList
        [PDict [kv "content" (PDict
           [kv "parts" (PList [PDict [kv "text" (str "{}")]])])]])]);
     (lit "{}", PDict []);
     (dq "{'message_type': 'committed_transcript', 'text': 'book a flight tomorrow'}",
      PDict [kv "message_type" (str "committed_transcript");
             kv "text" (str "book a flight tomorrow")]);
     (dq "{'message_type': 'partial_transcript', 'text': 'book a'}",
      PDict [kv "message_type" (str "partial_transcript");
             kv "text" (str "book a")]);
     (dq "{'type': 'stop'}", PDict [kv "type" (str "stop")]);
     (dq "{'type': 'set_mode', 'mode': 'strict'}",
      PDict [kv "type" (str "set_mode"); kv "mode" (str "strict")]);
     (dq "{'type': 'clear'}", PDict [kv "type" (str "clear")])].

(** A response of the enrichment service whose structured output is an
    object with two of the fields of the schema only, and a risk that is
    not one of its three values. *)
Definition incomplete_text : pystr :=
  dq "{'cleaned_english_meaning': 'Book a flight.', 'meaning_change_risk': 'unsure'}".

Definition incomplete_object : pydict :=
  [kv "cleaned_english_meaning" (str "Book a flight.");
   kv "meaning_change_risk" (str "unsure")].

Definition incomplete_body : pystr :=
  dq "{'candidates': [{'content': {'parts': [{'text': '{\'cleaned_english_meaning\': \'Book a flight.\', \'meaning_change_risk\': \'unsure\'}'}]}}]}".

Definition incomplete_loads : pystr -> result pyval :=
  loads_table
    [(incomplete_body,
      PDict [kv "candidates" (PList
        [PDict [kv "content" (PDict
           [kv "parts" (PList [PDict [kv "text" (PStr incomplete_text)]])])]])]);
     (incomplete_text, PDict incomplete_object)].

Definition sample_dumps (v : pyval) : pystr :=
  match v with
  | PDict [(_, _); (_, PStr audio)] =>
      dq "{'message_type': 'input_audio_chunk', 'audio_base_64': '" ++ audio ++ dq "'}"
  | _ => dq "{'message_type': 'input_audio_chunk', 'audio_base_64': '', 'commit': true}"
  end.

Definition sample_format (v : pyval) : pystr := lit "None".

(** A session in progress: both keys configured, the provider connected,
    the client connected, nothing accumulated yet. *)
Definition sample_world : world :=
  mk_world (Some (lit "sk_eleven")) (Some (lit "AIza")) true false true BALANCED [] [].

(** A process where the key of the provider is not configured, as a
    connection arrives. *)
Definition no_key_world : world :=
  mk_world None (Some (lit "AIza")) false false false BALANCED [] [].

(** An outside world given by what each kind of call answers the [n]-th
    time it is made; accepting, connecting and closing succeed. *)
Record outside : Type := mk_outside {
  client_writes : nat -> result unit;               (* websocket.send_json *)
  client_frames : nat -> result Message;            (* websocket.receive *)
  provider_frames : nat -> result (option pystr);   (* async for ... in elevenlabs_ws *)
  provider_writes : nat -> result unit;             (* elevenlabs_ws.send *)
  service : nat -> result Response                  (* client.post *)
}.

Definition answers_of (o : outside) : answers :=
  fun n R e =>
    match e in io R return result R with
    | websocket_accept => Ok tt
    | websocket_send_json _ => client_writes o n
    | websocket_close => Ok tt
    | websocket_receive => client_frames o n
    | websockets_connect _ _ => Ok tt
    | elevenlabs_ws_next => provider_frames o n
    | elevenlabs_ws_send _ => provider_writes o n
    | elevenlabs_ws_close => Ok tt
    | client_post _ _ => service o n
    | asyncio_gather => Ok tt
    end.

(** An outside world where every call succeeds: the service answers
    [response], the client sends [message], the provider has nothing to say. *)
Definition all_succeed (response : Response) (message : Message) : answers :=
  answers_of (mk_outside (fun _ => Ok tt) (fun _ => Ok message) (fun _ => Ok None)
                         (fun _ => Ok tt) (fun _ => Ok response)).

(** The same, except that every write to the client fails. *)
Definition client_unreachable (response : Response) (message : Message) : answers :=
  answers_of (mk_outside
    (fun _ => Raise (OtherException (lit "Cannot call send once a close message has been sent.")))
    (fun _ => Ok message) (fun _ => Ok None)
    (fun _ => Ok tt) (fun _ => Ok response)).

(** An outside world where the provider sends [message] again and again,
    every write to the client answers [written], and the rest succeeds. *)
Definition provider_sends (message : pystr) (written : result unit) : answers :=
  answers_of (mk_outside (fun _ => written)
                         (fun _ => Ok (mk_Message (lit "websocket.receive") None None))
                         (fun _ => Ok (Some message))
                         (fun _ => Ok tt) (fun _ => Ok (mk_Response 503 []))).

(** An outside world where the client sends the frames of [frames], one
    after the other, then disconnects; every write to the provider answers
    [written], and the rest succeeds. *)
Definition client_sends (frames : list Message) (written : result unit) : answers :=
  answers_of (mk_outside (fun _ => Ok tt)
                         (fun n => Ok (nth n frames
                                           (mk_Message (lit "websocket.disconnect") None None)))
                         (fun _ => Ok None)
                         (fun _ => written) (fun _ => Ok (mk_Response 503 []))).

(** A binary frame and a text frame of the client. *)
Definition binary_frame (data : bytes) : Message :=
  mk_Message (lit "websocket.receive") (Some (Some data)) None.

Definition text_frame (text : pystr) : Message :=
  mk_Message (lit "websocket.receive") None (Some (Some text)).

Definition no_message : Message := mk_Message (lit "websocket.receive") None None.
Definition no_response : Response := mk_Response 503 [].

(* ================================================================= *)
(** ** main.py: the health endpoint *)

(** [health_check()] *)
Definition health_check : M pyval :=
  elevenlabs_key <- gets ELEVENLABS_API_KEY ;;
  gemini_key <- gets gemini_api ;;
  ret (PDict
         [kv "status" (str "ok");
          kv "elevenlabs_configured" (PBool (truthy_opt elevenlabs_key));
          kv "gemini_configured" (PBool (truthy_opt gemini_key))]).

(* ================================================================= *)
(** ** Further properties of results and messages *)

(** The result is a dict whose cleaned meaning the log line of
    [process_with_gemini] can cut. *)
Definition loggable (v : pyval) : bool :=
  match v with
  | PDict d => sliceable (dict_get_default d (lit "cleaned_english_meaning") (PStr []))
  | _ => false
  end.

(** The keys of a dict, in order. *)
Definition keys (v : pyval) : list pystr :=
  match v with
  | PDict d => map fst d
  | _ => []
  end.

(** What a task writes to the client for the transcript [transcript]:
    the [processing] notice, or a [gemini_result] with its nine fields,
    whose [raw_transcript] is the transcript. *)
Definition task_message (transcript : pystr) (m : pyval) : Prop :=
  m = PDict [kv "type" (str "processing");
             kv "message" (str "Processing with Gemini...")]
  \/ (keys m = [lit "type"; lit "raw_transcript"; lit "cleaned_meaning";
                lit "prompt_ready"; lit "detected_languages"; lit "risk_level";
                lit "entities"; lit "confidence"; lit "error"]
      /\ exists d, m = PDict d
                   /\ dict_get d (lit "type") = Some (str "gemini_result")
                   /\ dict_get d (lit "raw_transcript") = Some (PStr transcript)).

(** The result is the fallback for the text [raw], and its [error] is the
    text [error]. *)
Definition fallback_with (raw error : pystr) (v : pyval) : Prop :=
  is_fallback raw v = true
  /\ exists d, v = PDict d /\ dict_get d (lit "error") = Some (PStr error).

(** The text reported for an exception of the request or of the handling
    of its answer: a fixed text for the timeout of the request, and [str(e)]
    for anything else. *)
Definition failure_text (e : exn) : pystr :=
  match e with
  | TimeoutException _ => lit "API timeout"
  | _ => str_exn e
  end.

(** The text reported for an exception of the decoding of the structured
    output: a fixed text when it is not JSON, and the text of [failure_text]
    for anything else. *)
Definition output_failure_text (e : exn) : pystr :=
  match e with
  | JSONDecodeError _ => lit "Invalid JSON from Gemini"
  | _ => failure_text e
  end.

(** A text of 2000 opening brackets, and a decoder on which it exceeds the
    recursion limit, as it does for [json.loads]. *)
Definition deep_text : pystr := repeat 91%N 2000.

Definition deep_loads (text : pystr) : result pyval :=
  if str_eqb text deep_text
  then Raise (RecursionError
                (lit "maximum recursion depth exceeded while decoding a JSON array from a unicode string"))
  else sample_loads text.

(** A response of the enrichment service whose structured output is a
    result for the text ["um book a flight"], echoed with a typing slip. *)
Definition result_body : pystr :=
  dq "{'candidates': [{'content': {'parts': [{'text': '<result>'}]}}]}".

Definition result_object : pydict :=
  [kv "detected_languages" (PList [str "english"]);
   kv "raw_transcript" (str "um book a flihgt");
   kv "cleaned_english_meaning" (str "Book a flight.");
   kv "prompt_ready_english" (str "Book a flight.");
   kv "removed_fillers" (PBool true);
   kv "meaning_change_risk" (str "low");
   kv "entities" (PList []);
   kv "confidence_score" (PFloat float_0_8)].

(** A decoder that knows [result_body] and its structured output, written
    here as [<result>]. *)
Definition result_loads : pystr -> result pyval :=
  loads_table
    [(result_body,
      PDict [kv "candidates" (PList
        [PDict [kv "content" (PDict
           [kv "parts" (PList [PDict [kv "text" (str "<result>")]])])]])]);
     (lit "<result>", PDict result_object)].

(** The notice a task writes before it calls the service, and the report
    it writes when the call failed with the text [error]. *)
Definition processing_notice : pyval :=
  PDict [kv "type" (str "processing");
         kv "message" (str "Processing with Gemini...")].

Definition failure_report (transcript error : pystr) : pyval :=
  PDict [kv "type" (str "gemini_result");
         kv "raw_transcript" (PStr transcript);
         kv "cleaned_meaning" (PStr transcript);
         kv "prompt_ready" (PStr transcript);
         kv "detected_languages" (PList [str "unknown"]);
         kv "risk_level" (str "high");
         kv "entities" (PList []);
         kv "confidence" (PFloat float_0_0);
         kv "error" (PStr error)].

(** The request a task started in [s] makes to the service: none when the
    key of the service is not configured. *)
Definition service_calls (format_value : pyval -> pystr) (transcript : pystr) (s : world)
  : list call :=
  match gemini_api s with
  | Some key =>
      if truthy_opt (Some key)
      then [Call (client_post (GEMINI_API_URL ++ lit "?key=" ++ key)
                              (payload format_value transcript (current_mode s) None None))]
      else []
  | None => []
  end.

(* ----------------------------------------------------------------- *)
(** *** What a loop does between two resumptions *)

(** The [type] of a message is one of [types]. *)
Definition message_type_in (types : list pystr) (m : pyval) : bool :=
  match m with
  | PDict d =>
      match dict_get d (lit "type") with
      | Some t => existsb (eq_str t) types
      | None => false
      end
  | _ => false
  end.

(** A coroutine started in [s] that makes no call, or makes one write to
    the client of a message that satisfies [P] and then returns; the state
    is [s] until the write is answered. *)
Definition one_write_at_most (P : pyval -> Prop) (s : world) (a : act unit) : Prop :=
  match a with
  | Done _ _ => True
  | Await s' e k =>
      s' = s
      /\ (exists data, sent e = Some data /\ P data)
      /\ forall r s1, exists s2, k r s1 = Done s2 (Ok tt)
  end.

(** The text is what [strip] leaves of some text, and is not empty. *)
Definition trimmed (t : pystr) : Prop := strip t = t /\ t <> [].

(** From [s0] to [s], as the loop of the provider leaves the shared state
    from one resumption to its next await or its end: the flags of the
    session and the mode are kept, except that a connected client may be
    marked as gone; the accumulator and the list of tasks only grow, and the
    new tasks have trimmed transcripts. *)
Definition provider_step (s0 s : world) : Prop :=
  ELEVENLABS_API_KEY s = ELEVENLABS_API_KEY s0
  /\ gemini_api s = gemini_api s0
  /\ elevenlabs_ws s = elevenlabs_ws s0
  /\ should_stop s = should_stop s0
  /\ current_mode s = current_mode s0
  /\ (client_connected s0 = false -> client_connected s = false)
  /\ (exists text, accumulated_transcript s = accumulated_transcript s0 ++ text)
  /\ (exists new, tasks s = tasks s0 ++ new /\ Forall trimmed new).

(** The call reads the stream of the provider or writes to the client. *)
Definition provider_call {R} (e : io R) : bool :=
  match kind_of e with
  | Knext | Ksend_json => true
  | _ => false
  end.

(** The same for the loop of the client: the keys, the provider connection
    and the tasks are kept; a session that is stopped stays stopped and a
    client that is gone stays gone; the accumulator is kept or emptied. *)
Definition client_step (s0 s : world) : Prop :=
  ELEVENLABS_API_KEY s = ELEVENLABS_API_KEY s0
  /\ gemini_api s = gemini_api s0
  /\ elevenlabs_ws s = elevenlabs_ws s0
  /\ tasks s = tasks s0
  /\ (should_stop s0 = true -> should_stop s = true)
  /\ (client_connected s0 = false -> client_connected s = false)
  /\ (accumulated_transcript s = accumulated_transcript s0
      \/ accumulated_transcript s = []).

(** The call reads a frame of the client or writes to the provider. *)
Definition client_call {R} (e : io R) : bool :=
  match kind_of e with
  | Kreceive | Ksend => true
  | _ => false
  end.

(** The session is over for the loops: it is stopped or the client is gone. *)
Definition over (s : world) : bool := should_stop s || negb (client_connected s).

(** The text of the [error] message the session writes when it fails with
    the exception [e]. *)
Definition session_error (e : exn) : pystr :=
  match e with
  | InvalidStatusCode status_code => lit "ElevenLabs HTTP " ++ str_of_int status_code
  | _ => str_exn e
  end.

(** An outside world where the provider rejects the handshake with the
    status [status], and every other call succeeds. *)
Definition handshake_rejected (status : Z) : answers :=
  fun n R e =>
    match e in io R return result R with
    | websocket_accept => Ok tt
    | websocket_send_json _ => Ok tt
    | websocket_close => Ok tt
    | websocket_receive => Ok no_message
    | websockets_connect _ _ => Raise (InvalidStatusCode status)
    | elevenlabs_ws_next => Ok None
    | elevenlabs_ws_send _ => Ok tt
    | elevenlabs_ws_close => Ok tt
    | client_post _ _ => Ok no_response
    | asyncio_gather => Ok tt
    end.

(* ----------------------------------------------------------------- *)
(** *** What the coroutines of a session keep, under the event loop *)

(** A coroutine last resumed in [s0] keeps the relation [step] between
    the state it is resumed in and the state it leaves at its next await or
    at its end, and makes no call but those of [allowed]. *)
Definition keeps (step : world -> world -> Prop) (allowed : forall R, io R -> bool)
    {A} (s0 : world) (a : act A) : Prop :=
  sat (fun _ => True)
      (fun R s0 s' e => step s0 s' /\ allowed R e = true)
      (fun s0 s' _ => step s0 s') s0 a.

Definition keeps_suspended (step : world -> world -> Prop)
    (allowed : forall R, io R -> bool) (t : suspended) : Prop :=
  match t with
  | Suspended e k => forall r s, keeps step allowed s (k r s)
  end.

Definition allowed_call (allowed : forall R, io R -> bool) (c : call) : Prop :=
  match c with
  | Call e => allowed _ e = true
  end.

(** From [s0] to [s], as the loops and the tasks of a session leave the
    shared state: the keys and the provider connection are kept, a session
    that is stopped stays stopped, a client that is gone stays gone, and the
    list of tasks only grows, by trimmed transcripts. *)
Definition session_step (s0 s : world) : Prop :=
  ELEVENLABS_API_KEY s = ELEVENLABS_API_KEY s0
  /\ gemini_api s = gemini_api s0
  /\ elevenlabs_ws s = elevenlabs_ws s0
  /\ (should_stop s0 = true -> should_stop s = true)
  /\ (client_connected s0 = false -> client_connected s = false)
  /\ (exists new, tasks s = tasks s0 ++ new /\ Forall trimmed new).

(** The calls of the loops and of the tasks: reading and writing the two
    connections, and the request to the service. *)
Definition session_call (R : Type) (e : io R) : bool :=
  match kind_of e with
  | Knext | Ksend_json | Kreceive | Ksend | Kpost => true
  | _ => false
  end.

(* ----------------------------------------------------------------- *)
(** *** Reading base64 back *)

(** The 6-bit value of a character of the base64 alphabet. *)
Definition b64_value (c : N) : N :=
  (if (65 <=? c) && (c <=? 90) then c - 65
   else if (97 <=? c) && (c <=? 122) then c - 71
   else if (48 <=? c) && (c <=? 57) then c + 4
   else if c =? 43 then 62
   else 63)%N.

Definition byte_of (n : N) : Byte.byte :=
  match Byte.of_N n with
  | Some b => b
  | None => Byte.x00
  end.

(** The bytes a base64 text stands for: four characters give three bytes,
    and a last group padded with [=] gives one or two. *)
Fixpoint b64decode (s : pystr) : bytes :=
  match s with
  | c1 :: c2 :: c3 :: c4 :: rest =>
      let v1 := b64_value c1 in
      let v2 := b64_value c2 in
      let b1 := byte_of (N.lor (N.shiftl v1 2) (N.shiftr v2 4)) in
      if (c3 =? b64_pad)%N then [b1]
      else
        let v3 := b64_value c3 in
        let b2 := byte_of (N.lor (N.shiftl (N.land v2 15) 4) (N.shiftr v3 2)) in
        if (c4 =? b64_pad)%N then [b1; b2]
        else
          let v4 := b64_value c4 in
          let b3 := byte_of (N.lor (N.shiftl (N.land v3 3) 6) v4) in
          b1 :: b2 :: b3 :: b64decode rest
  | _ => []
  end.

(** The 256 bytes. *)
Definition all_bytes : list Byte.byte := map (fun n => byte_of (N.of_nat n)) (seq 0 256).

Fixpoint bytes_eqb (x y : bytes) : bool :=
  match x, y with
  | [], [] => true
  | a :: x', b :: y' => Byte.eqb a b && bytes_eqb x' y'
  | _, _ => false
  end.

(* ----------------------------------------------------------------- *)
(** *** States that differ in the accumulator only *)

(** The two states are the same but for the accumulated transcript. *)
Definition same_session (s1 s2 : world) : Prop :=
  set_accumulated_transcript [] s1 = set_accumulated_transcript [] s2.

(** Two coroutines that go the same way: they make the same calls, in
    states that are the same but for the accumulator, and return or raise
    the same, whatever the calls answer and from whatever such states they
    are resumed. *)
Inductive similar {A} : act A -> act A -> Prop :=
| similar_done : forall s1 s2 r,
    same_session s1 s2 -> similar (Done s1 r) (Done s2 r)
| similar_await : forall R s1 s2 (e : io R) k1 k2,
    same_session s1 s2 ->
    (forall r s1' s2', same_session s1' s2' -> similar (k1 r s1') (k2 r s2')) ->
    similar (Await s1 e k1) (Await s2 e k2).

(** The program does not read the accumulator: it goes the same way from
    any two states that differ in the accumulator only. *)
Definition unread {A} (m : M A) : Prop :=
  forall s1 s2, same_session s1 s2 -> similar (m s1) (m s2).

Unset Implicit Arguments.

(* ================================================================= *)
(** ** Strings and dicts *)

Lemma str_eqb_refl : forall a, str_eqb a a = true.
Proof.
  induction a as [|c a IH]; simpl; [reflexivity|].
  now rewrite N.eqb_refl.
Qed.

Lemma str_eqb_eq : forall a b, str_eqb a b = true <-> a = b.
Proof.
  induction a as [|x a IH]; destruct b as [|y b]; simpl; split; intros H;
    try reflexivity; try discriminate.
  - apply andb_true_iff in H as [Hx Hab].
    apply N.eqb_eq in Hx. apply IH in Hab. now subst.
  - injection H as -> ->. now rewrite N.eqb_refl, str_eqb_refl.
Qed.

Lemma dict_get_set : forall d k v, dict_get (dict_set d k v) k = Some v.
Proof.
  induction d as [|[k' v'] d IH]; intros k v; simpl.
  - now rewrite str_eqb_refl.
  - destruct (str_eqb k' k) eqn:E; simpl; rewrite E; auto.
Qed.

Lemma dict_get_set_other : forall d k k' v,
  str_eqb k k' = false -> dict_get (dict_set d k v) k' = dict_get d k'.
Proof.
  induction d as [|[k0 v0] d IH]; intros k k' v Hk; simpl.
  - now rewrite Hk.
  - destruct (str_eqb k0 k) eqn:E; simpl.
    + apply str_eqb_eq in E. subst k0. now rewrite Hk.
    + destruct (str_eqb k0 k'); auto.
Qed.


Example b64encode_Man :
  b64encode [Byte.x4d; Byte.x61; Byte.x6e] = lit "TWFu"
  /\ b64encode [Byte.x4d; Byte.x61] = lit "TWE="
  /\ b64encode [Byte.x4d] = lit "TQ==".
Proof. repeat split; reflexivity. Qed.

Example strip_spaces : strip (lit "  book a flight  ") = lit "book a flight".
Proof. reflexivity. Qed.

(* ================================================================= *)
(** ** Composing properties of coroutines *)

Section SatLemmas.

Variable rely : world -> Prop.
Variable guar : forall R, world -> world -> io R -> Prop.

Lemma sat_weaken : forall A (post post' : world -> world -> result A -> Prop) s0 (a : act A),
  (forall s0 s r, post s0 s r -> post' s0 s r) ->
  sat rely guar post s0 a -> sat rely guar post' s0 a.
Proof.
  intros A post post' s0 a Himp. revert s0.
  induction a as [s r | R s e k IH]; intros s0; simpl.
  - apply Himp.
  - intros [Hg Hk]. split; [exact Hg|]. intros r s' Hs'. apply IH, Hk, Hs'.
Qed.

Lemma sat_bind : forall A B (post : world -> world -> result B -> Prop) s0
                        (a : act A) (f : A -> M B),
  sat rely guar
      (fun s0 s r => match r with
                     | Ok x => sat rely guar post s0 (f x s)
                     | Raise e => post s0 s (Raise e)
                     end) s0 a ->
  sat rely guar post s0 (bind_act a f).
Proof.
  intros A B post s0 a f. revert s0.
  induction a as [s [x | e] | R s e k IH]; intros s0; simpl; auto.
  intros [Hg Hk]. split; [exact Hg|]. intros r s' Hs'. apply IH, Hk, Hs'.
Qed.

Lemma sat_except : forall A (post : world -> world -> result A -> Prop) s0
                          (a : act A) (h : exn -> M A),
  sat rely guar
      (fun s0 s r => match r with
                     | Ok x => post s0 s (Ok x)
                     | Raise e => sat rely guar post s0 (h e s)
                     end) s0 a ->
  sat rely guar post s0 (except_act a h).
Proof.
  intros A post s0 a h. revert s0.
  induction a as [s [x | e] | R s e k IH]; intros s0; simpl; auto.
  intros [Hg Hk]. split; [exact Hg|]. intros r s' Hs'. apply IH, Hk, Hs'.
Qed.

Lemma sat_finally : forall A (post : world -> world -> result A -> Prop) s0
                           (a : act A) (f : M unit),
  sat rely guar
      (fun s0 s r =>
         sat rely guar
             (fun s0' s' r' => match r' with
                               | Ok _ => post s0' s' r
                               | Raise e => post s0' s' (Raise e)
                               end) s0 (f s)) s0 a ->
  sat rely guar post s0 (finally_act a f).
Proof.
  intros A post s0 a f. revert s0.
  induction a as [s r | R s e k IH]; intros s0; simpl.
  - intros H. apply sat_bind. eapply sat_weaken; [|exact H].
    intros s1 s' [[] | e]; simpl; auto.
  - intros [Hg Hk]. split; [exact Hg|]. intros r s' Hs'. apply IH, Hk, Hs'.
Qed.

End SatLemmas.

(** [sat] is monotone in what is guaranteed and in what holds at the end,
    and antimonotone in what is relied on. *)
Lemma sat_mono :
  forall (rely rely' : world -> Prop)
         (guar guar' : forall R, world -> world -> io R -> Prop)
         A (post post' : world -> world -> result A -> Prop) s0 (a : act A),
    (forall s, rely' s -> rely s) ->
    (forall R s0 s (e : io R), guar R s0 s e -> guar' R s0 s e) ->
    (forall s0 s r, post s0 s r -> post' s0 s r) ->
    sat rely guar post s0 a -> sat rely' guar' post' s0 a.
Proof.
  intros rely rely' guar guar' A post post' s0 a Hrely Hguar Hpost. revert s0.
  induction a as [s r | R s e k IH]; intros s0; simpl.
  - apply Hpost.
  - intros [Hg Hk]. split; [apply Hguar, Hg|]. intros r s' Hs'. apply IH, Hk, Hrely, Hs'.
Qed.

(* ================================================================= *)
(** ** The enrichment client *)

Lemma eq_str_eq : forall v s, eq_str v s = true <-> v = PStr s.
Proof.
  intros v s. destruct v; simpl; split; intros H; try discriminate.
  - apply str_eqb_eq in H. now subst.
  - injection H as ->. apply str_eqb_refl.
Qed.

Lemma is_fallback_create : forall raw error,
  is_fallback raw (create_fallback_response raw error) = true.
Proof.
  intros raw error. unfold is_fallback, create_fallback_response.
  simpl. now rewrite str_eqb_refl.
Qed.

Lemma echoes_create : forall raw error,
  echoes raw (create_fallback_response raw error) = true.
Proof.
  intros raw error. unfold echoes, create_fallback_response.
  simpl. apply str_eqb_refl.
Qed.

Lemma echoes_set : forall raw d,
  echoes raw (PDict (dict_set d (lit "raw_transcript") (PStr raw))) = true.
Proof.
  intros raw d. unfold echoes. rewrite dict_get_set. apply str_eqb_refl.
Qed.

(** The result returned when the key of the service is not configured. *)
Lemma no_key_result : forall raw,
  let v := PDict
             [kv "error" (str "Gemini API key not configured");
              kv "raw_transcript" (PStr raw);
              kv "cleaned_english_meaning" (PStr raw);
              kv "prompt_ready_english" (PStr raw);
              kv "detected_languages" (PList [str "unknown"]);
              kv "meaning_change_risk" (str "high");
              kv "entities" (PList []);
              kv "confidence_score" (PFloat float_0_0)] in
  echoes raw v = true /\ is_fallback raw v = true.
Proof.
  intros raw v. subst v. unfold echoes, is_fallback. simpl.
  now rewrite str_eqb_refl.
Qed.

Arguments lit : simpl never.
Arguments dict_get : simpl never.
Arguments dict_set : simpl never.
Arguments create_fallback_response : simpl never.

Lemma py_index0_dict : forall v c,
  py_index0 v = Ok (PDict c) -> exists l, v = PList (PDict c :: l).
Proof.
  intros v c H. destruct v as [| | | | [|x s] | [|x l] |]; simpl in H; try discriminate.
  injection H as ->. now exists l.
Qed.

Lemma py_setitem_dict : forall v k x d,
  py_setitem v k x = Ok (PDict d) -> exists d0, v = PDict d0 /\ d = dict_set d0 k x.
Proof.
  intros v k x d H. destruct v; simpl in H; try discriminate.
  injection H as <-. eauto.
Qed.

Lemma py_get_ok : forall v k default x,
  py_get v k default = Ok x -> exists d, v = PDict d /\ x = dict_get_default d k default.
Proof.
  intros v k default x H. destruct v; simpl in H; try discriminate.
  injection H as <-. eauto.
Qed.

Lemma dict_get_default_some : forall d k default x,
  dict_get_default d k default = x -> x <> default -> dict_get d k = Some x.
Proof.
  intros d k default x H Hx. unfold dict_get_default in H.
  destruct (dict_get d k); congruence.
Qed.

(** The extraction of the structured output, step by step as the code
    does it, finds what [output_text] names. *)
Lemma output_text_steps : forall result candidates candidate content parts part text,
  py_get result (lit "candidates") (PList []) = Ok candidates ->
  py_index0 candidates = Ok candidate ->
  py_get candidate (lit "content") (PDict []) = Ok content ->
  py_get content (lit "parts") (PList []) = Ok parts ->
  py_index0 parts = Ok part ->
  py_get part (lit "text") (PStr []) = Ok text ->
  output_text result = Some text.
Proof.
  intros result candidates candidate content parts part text H1 H2 H3 H4 H5 H6.
  apply py_get_ok in H1 as (d & -> & Hc).
  apply py_get_ok in H3 as (c & -> & Hct).
  apply py_get_ok in H4 as (ct & -> & Hp).
  apply py_get_ok in H6 as (p & -> & ->).
  apply py_index0_dict in H2 as (l & ->).
  apply py_index0_dict in H5 as (l' & ->).
  symmetry in Hc, Hct, Hp.
  apply dict_get_default_some in Hc; [|discriminate].
  apply dict_get_default_some in Hp; [|discriminate].
  assert (Hct' : dict_get c (lit "content") = Some (PDict ct)).
  { unfold dict_get_default in Hct.
    destruct (dict_get c (lit "content")); [congruence|].
    injection Hct as <-. discriminate Hp. }
  unfold output_text. now rewrite Hc, Hct', Hp.
Qed.

Lemma py_slice50_ok : forall v x, py_slice50 v = Ok x -> sliceable v = true.
Proof. intros v x H. destruct v; simpl in H; try discriminate; reflexivity. Qed.

Section EnrichmentClient.

Variable json_loads : pystr -> result pyval.
Variable format_value : pyval -> pystr.

Lemma py_json_loads_ok : forall v x,
  py_json_loads json_loads v = Ok x -> exists text, v = PStr text /\ json_loads text = Ok x.
Proof.
  intros v x H. destruct v; simpl in H; try discriminate. eauto.
Qed.

(** A leaf of the case analysis where the fallback is returned. *)
Ltac fallback_leaf :=
  match goal with
  | |- exists v, Done _ (Ok (create_fallback_response _ _)) = _ /\ _ =>
      eexists; split; [reflexivity | split; [apply echoes_create | right; eexists; reflexivity]]
  end.

(** One more test of the code: case analysis on what it inspects. *)
Ltac scrutinee :=
  match goal with
  | |- context [match ?x with _ => _ end] =>
      lazymatch x with
      | context [match _ with _ => _ end] => fail
      | _ => destruct x eqn:?
      end
  | |- context [if ?x then _ else _] =>
      lazymatch x with
      | context [match _ with _ => _ end] => fail
      | _ => destruct x eqn:?
      end
  end.

Ltac run_code :=
  cbv beta delta [ret raise lift];
  cbn [bind_act except_act py_get py_index0 py_slice50 py_setitem py_json_loads
       truthy negb dict_get_default].

Lemma process_transcript_no_key : forall raw mode context turns s,
  truthy_opt (gemini_api s) = false ->
  exists v, process_transcript json_loads format_value raw mode context turns s = Done s (Ok v)
            /\ echoes raw v = true /\ is_fallback raw v = true.
Proof.
  intros raw mode context turns s Hkey.
  unfold process_transcript, get_gemini_api_key, bind, gets.
  cbn [bind_act]. rewrite Hkey. cbn [negb]. unfold ret.
  eexists. split; [reflexivity|]. apply no_key_result.
Qed.

Lemma output_text_shape : forall result text,
  output_text result = Some text ->
  exists d c l ct p l',
    result = PDict d
    /\ dict_get d (lit "candidates") = Some (PList (PDict c :: l))
    /\ dict_get c (lit "content") = Some (PDict ct)
    /\ dict_get ct (lit "parts") = Some (PList (PDict p :: l'))
    /\ text = dict_get_default p (lit "text") (PStr []).
Proof.
  intros result text H. unfold output_text in H.
  repeat match type of H with
         | match ?x with _ => _ end = Some _ => destruct x eqn:?; try discriminate H
         end.
  injection H as <-. subst. repeat eexists; eassumption.
Qed.

Lemma process_transcript_post : forall raw mode context turns s key,
  gemini_api s = Some key -> truthy_opt (Some key) = true ->
  exists k,
    process_transcript json_loads format_value raw mode context turns s
    = Await s (client_post (GEMINI_API_URL ++ lit "?key=" ++ key)
                           (payload format_value raw mode context turns)) k
    /\ (forall r s' v, decoded_output json_loads raw r v -> k r s' = Done s' (Ok v))
    /\ (forall r s', exists v,
          k r s' = Done s' (Ok v)
          /\ echoes raw v = true
          /\ (decoded_output json_loads raw r v
              \/ exists error, v = create_fallback_response raw error)).
Proof.
  intros raw mode context turns s key Hs Hkey.
  unfold process_transcript, get_gemini_api_key, bind, gets.
  cbn [bind_act]. rewrite Hs, Hkey. cbn [negb].
  unfold try_except, await. cbn [bind_act except_act].
  eexists. split; [reflexivity|]. split.
  - (* the call went well all the way *)
    intros r s' v (response & result & text & output & -> & Hstatus & Hjson & Htext & Hloads & Hslice & ->).
    apply Z.eqb_eq in Hstatus.
    apply output_text_shape in Htext as (d & c & l & ct & p & l' & -> & Hc & Hct & Hp & Ht).
    run_code. rewrite Hstatus, Hjson. run_code.
    unfold dict_get_default in *.
    rewrite Hc. run_code. unfold dict_get_default.
    rewrite Hct. run_code. unfold dict_get_default.
    rewrite Hp. run_code. unfold dict_get_default.
    rewrite <- Ht. run_code. rewrite Hloads. run_code. unfold dict_get_default.
    rewrite dict_get_set_other by reflexivity.
    destruct (dict_get output (lit "cleaned_english_meaning")) as [[]|];
      try discriminate Hslice; reflexivity.
  - intros [response | e] s'.
    2: { destruct e; run_code; fallback_leaf. }
    run_code.
    destruct (status_code response =? 200)%Z eqn:Hstatus; run_code; [|fallback_leaf].
    destruct (Response_json json_loads response) as [result | e] eqn:Hjson; run_code.
    2: { destruct e; run_code; fallback_leaf. }
    repeat (run_code; try fallback_leaf; try scrutinee).
    all: try (match goal with e : exn |- _ => destruct e; try discriminate end;
              run_code; fallback_leaf).
    match goal with
    | H1 : py_get result _ _ = Ok ?c, H2 : py_index0 ?c = Ok ?c0,
      H3 : py_get ?c0 _ _ = Ok ?ct, H4 : py_get ?ct _ _ = Ok ?ps,
      H5 : py_index0 ?ps = Ok ?p, H6 : py_get ?p _ _ = Ok ?t,
      H7 : py_json_loads _ ?t = Ok ?o, H8 : py_setitem ?o _ _ = Ok ?o',
      H9 : py_get ?o' _ _ = Ok ?cl, H10 : py_slice50 ?cl = Ok _ |- _ =>
        pose proof (output_text_steps _ _ _ _ _ _ _ H1 H2 H3 H4 H5 H6) as Htext;
        apply py_json_loads_ok in H7 as (text & -> & Hloads);
        apply py_get_ok in H9 as (d' & -> & ->);
        apply py_setitem_dict in H8 as (output & -> & ->);
        apply py_slice50_ok in H10 as Hslice
    end.
    eexists. split; [reflexivity|]. split; [apply echoes_set|]. left.
    exists response, result, text, output.
    apply Z.eqb_eq in Hstatus.
    unfold dict_get_default in Hslice.
    rewrite dict_get_set_other in Hslice by reflexivity.
    repeat split; assumption || reflexivity.
Qed.

End EnrichmentClient.

Section EnrichmentClaims.

Variable json_loads : pystr -> result pyval.
Variable format_value : pyval -> pystr.

Lemma expected_outcome_output : forall raw r output,
  expected_outcome json_loads r = Output output ->
  decoded_output json_loads raw r (PDict (dict_set output (lit "raw_transcript") (PStr raw))).
Proof.
  intros raw r output H. unfold expected_outcome in H.
  destruct r as [response | e]; [|discriminate].
  destruct (status_code response =? 200)%Z eqn:Hstatus; [|discriminate].
  cbn [negb] in H.
  destruct (Response_json json_loads response) as [result | e] eqn:Hjson; [|discriminate].
  destruct (output_text result) as [[| | | | text | |]|] eqn:Htext; try discriminate.
  destruct (json_loads text) as [[| | | | | | output']|] eqn:Hloads; try discriminate.
  destruct (sliceable _) eqn:Hslice; [|discriminate].
  injection H as ->. apply Z.eqb_eq in Hstatus.
  exists response, result, text, output. repeat split; assumption.
Qed.

Lemma decoded_output_expected : forall raw r v,
  decoded_output json_loads raw r v ->
  exists output, expected_outcome json_loads r = Output output.
Proof.
  intros raw r v (response & result & text & output & -> & Hstatus & Hjson & Htext & Hloads & Hslice & _).
  exists output. unfold expected_outcome.
  apply Z.eqb_eq in Hstatus. now rewrite Hstatus, Hjson, Htext, Hloads, Hslice.
Qed.

(** What [process_transcript] comes to once its request is answered. *)
Lemma process_transcript_answer : forall raw mode context turns s key,
  gemini_api s = Some key -> truthy_opt (Some key) = true ->
  exists k,
    process_transcript json_loads format_value raw mode context turns s
    = Await s (client_post (GEMINI_API_URL ++ lit "?key=" ++ key)
                           (payload format_value raw mode context turns)) k
    /\ forall r s', exists v,
         k r s' = Done s' (Ok v)
         /\ echoes raw v = true
         /\ match expected_outcome json_loads r with
            | Fallback => is_fallback raw v = true
            | Output output => v = PDict (dict_set output (lit "raw_transcript") (PStr raw))
            end.
Proof.
  intros raw mode context turns s key Hs Hkey.
  destruct (process_transcript_post json_loads format_value raw mode context turns s key Hs Hkey)
    as (k & Hk & Hforward & Hbackward).
  exists k. split; [exact Hk|]. intros r s'.
  destruct (expected_outcome json_loads r) as [|output] eqn:Hexp.
  - destruct (Hbackward r s') as (v & Hv & Hecho & [Hdec | [error ->]]).
    + apply decoded_output_expected in Hdec as [output Hout]. congruence.
    + eexists. split; [exact Hv|]. split; [exact Hecho|]. apply is_fallback_create.
  - apply (expected_outcome_output raw) in Hexp.
    eexists. split; [apply Hforward, Hexp|]. split; [apply echoes_set | reflexivity].
Qed.

(** [process_transcript] under any rely, guarantee and postcondition that
    the one call it makes and the dicts it returns satisfy. *)
Lemma process_transcript_sat :
  forall (rely : world -> Prop) (guar : forall R, world -> world -> io R -> Prop)
         (post : world -> world -> result pyval -> Prop) raw mode context turns s0 s,
    (forall url json, guar _ s0 s (client_post url json)) ->
    (forall v, echoes raw v = true -> post s0 s (Ok v)) ->
    (forall s' v, rely s' -> echoes raw v = true -> post s' s' (Ok v)) ->
    sat rely guar post s0
        (process_transcript json_loads format_value raw mode context turns s).
Proof.
  intros rely guar post raw mode context turns s0 s Hguar Hnow Hlater.
  destruct (truthy_opt (gemini_api s)) eqn:Hkey.
  - destruct (gemini_api s) as [key|] eqn:Hs; [|discriminate].
    destruct (process_transcript_answer raw mode context turns s key Hs Hkey) as (k & -> & Hk).
    simpl. split; [apply Hguar|]. intros r s' Hs'.
    destruct (Hk r s') as (v & -> & Hecho & _). simpl. now apply Hlater.
  - destruct (process_transcript_no_key json_loads format_value raw mode context turns s Hkey)
      as (v & -> & Hecho & _).
    simpl. now apply Hnow.
Qed.

(** C1, as stated, fails: the service answers 200 with a structured
    output that is malformed, an object that lacks five of the fields the
    schema requires and whose risk is not one of the three values of the
    schema. The result is that object with [raw_transcript] added, not the
    fallback: its [error] is not set, its risk is not [high], and it has
    neither confidence nor languages. *)
Lemma process_transcript_malformed_output_returned :
  let raw := lit "book a flight tomorrow" in
  let response := mk_Response 200 incomplete_body in
  let returned := PDict [kv "cleaned_english_meaning" (str "Book a flight.");
                         kv "meaning_change_risk" (str "unsure");
                         kv "raw_transcript" (PStr raw)] in
  incomplete_loads incomplete_text = Ok (PDict incomplete_object)
  /\ conforms (PDict incomplete_object) = false
  /\ run (all_succeed response no_message)
         (process_transcript incomplete_loads sample_format raw BALANCED None None
                             sample_world)
     = ([Call (client_post (GEMINI_API_URL ++ lit "?key=" ++ lit "AIza")
                           (payload sample_format raw BALANCED None None))],
        (sample_world, Ok returned))
  /\ is_fallback raw returned = false
  /\ dict_get [kv "cleaned_english_meaning" (str "Book a flight.");
               kv "meaning_change_risk" (str "unsure");
               kv "raw_transcript" (PStr raw)] (lit "error") = None
  /\ dict_get [kv "cleaned_english_meaning" (str "Book a flight.");
               kv "meaning_change_risk" (str "unsure");
               kv "raw_transcript" (PStr raw)] (lit "confidence_score") = None.
Proof. vm_compute. repeat split; reflexivity. Qed.

(** C1, amended. For every text and mode, [process_transcript] never
    raises. With no key configured it returns the fallback result at once:
    a result that conforms to the schema, with its [error] set, its risk
    [high], its confidence [0.0], its languages [["unknown"]], and the input
    text as cleaned meaning and as prompt. With a key it makes one request
    and returns the fallback when the request raises (a timeout, an error of
    the transport, anything else); when its status is not 200; when its body
    cannot be decoded, or is not an object that carries a structured output
    (no candidates, no content, no parts, a text that is not a string); and
    when the structured output cannot be decoded, or decodes to something
    that is not an object, or to an object whose cleaned meaning cannot be
    cut for the log. In every other case, that is, whenever the structured
    output decodes to an object, malformed or not, it returns that object
    with its [raw_transcript] set to the input text, and not the fallback. *)
Theorem process_transcript_failures_fall_back :
  forall raw mode context turns s,
    never_raises (process_transcript json_loads format_value raw mode context turns)
    /\ if truthy_opt (gemini_api s)
       then exists url k,
              process_transcript json_loads format_value raw mode context turns s
              = Await s (client_post url (payload format_value raw mode context turns)) k
              /\ forall r s', exists v,
                   k r s' = Done s' (Ok v)
                   /\ match expected_outcome json_loads r with
                      | Fallback => is_fallback raw v = true
                      | Output output =>
                          v = PDict (dict_set output (lit "raw_transcript") (PStr raw))
                      end
       else exists v,
              process_transcript json_loads format_value raw mode context turns s
              = Done s (Ok v)
              /\ is_fallback raw v = true.
Proof.
  intros raw mode context turns s. split.
  - intros s1. apply process_transcript_sat; intros; reflexivity || exact I.
  - destruct (truthy_opt (gemini_api s)) eqn:Hkey.
    + destruct (gemini_api s) as [key|] eqn:Hs; [|discriminate].
      destruct (process_transcript_answer raw mode context turns s key Hs Hkey) as (k & Hk & Hans).
      eexists. exists k. split; [exact Hk|]. intros r s'.
      destruct (Hans r s') as (v & Hv & _ & Hexp). eauto.
    + destruct (process_transcript_no_key json_loads format_value raw mode context turns s Hkey)
        as (v & Hv & _ & Hfb).
      eauto.
Qed.

(** C2. For every text, the result of [process_transcript] has its
    [raw_transcript] equal to the input text, however the call ends: on
    each fallback, and on success whatever the service echoed or omitted. *)
Theorem process_transcript_echoes_input :
  forall raw mode context turns,
    always_returns (fun v => echoes raw v = true)
      (process_transcript json_loads format_value raw mode context turns).
Proof.
  intros raw mode context turns s.
  apply process_transcript_sat; intros; eauto.
Qed.

End EnrichmentClaims.

(** C4, as stated, fails: a structured output that decodes to the empty
    object violates the schema, and is returned with [raw_transcript] added,
    still violating it, where the claim expects the fallback. *)
Lemma process_transcript_returns_unchecked_output :
  let raw := lit "book a flight tomorrow" in
  let response := mk_Response 200 empty_object_body in
  let returned := PDict [kv "raw_transcript" (PStr raw)] in
  sample_loads (lit "{}") = Ok (PDict [])
  /\ conforms (PDict []) = false
  /\ snd (run (all_succeed response no_message)
              (process_transcript sample_loads sample_format raw BALANCED None None
                                  sample_world))
     = (sample_world, Ok returned)
  /\ conforms returned = false
  /\ is_fallback raw returned = false.
Proof. vm_compute. repeat split; reflexivity. Qed.

(** C4, amended. When the service answers 200 with a structured output
    [text]: if [text] cannot be decoded (it is not JSON, or [json.loads]
    raises anything else on it), or decodes to something that is not an
    object, or to an object whose cleaned meaning cannot be cut for the log,
    the fallback is returned; if it decodes to any other object, that object
    is returned with its [raw_transcript] set to the input, and nothing
    checks it against the schema. *)
Theorem process_transcript_structured_output :
  forall json_loads format_value raw mode context turns s key response result text,
    gemini_api s = Some key ->
    truthy_opt (Some key) = true ->
    status_code response = 200%Z ->
    Response_json json_loads response = Ok result ->
    output_text result = Some (PStr text) ->
    exists k,
      process_transcript json_loads format_value raw mode context turns s
      = Await s (client_post (GEMINI_API_URL ++ lit "?key=" ++ key)
                             (payload format_value raw mode context turns)) k
      /\ forall s', exists v,
           k (Ok response) s' = Done s' (Ok v)
           /\ match json_loads text with
              | Raise _ => is_fallback raw v = true
              | Ok (PDict output) =>
                  if sliceable (dict_get_default output (lit "cleaned_english_meaning")
                                                 (PStr []))
                  then v = PDict (dict_set output (lit "raw_transcript") (PStr raw))
                  else is_fallback raw v = true
              | Ok _ => is_fallback raw v = true
              end.
Proof.
  intros json_loads format_value raw mode context turns s key response result text
         Hs Hkey Hstatus Hjson Htext.
  destruct (process_transcript_answer json_loads format_value raw mode context turns s key
              Hs Hkey) as (k & Hk & Hans).
  exists k. split; [exact Hk|]. intros s'.
  destruct (Hans (Ok response) s') as (v & Hv & _ & Hexp).
  exists v. split; [exact Hv|].
  unfold expected_outcome in Hexp.
  apply Z.eqb_eq in Hstatus. rewrite Hstatus, Hjson, Htext in Hexp. cbn [negb] in Hexp.
  destruct (json_loads text) as [[| | | | | | output] | e]; try exact Hexp.
  destruct (sliceable _); exact Hexp.
Qed.

Lemma process_transcript_structured_output_witness :
  let raw := lit "book a flight tomorrow" in
  let response := mk_Response 200 empty_object_body in
  exists k,
    process_transcript sample_loads sample_format raw STRICT None None sample_world
    = Await sample_world
            (client_post (GEMINI_API_URL ++ lit "?key=" ++ lit "AIza")
                         (payload sample_format raw STRICT None None)) k
    /\ forall s', exists v,
         k (Ok response) s' = Done s' (Ok v)
         /\ v = PDict (dict_set [] (lit "raw_transcript") (PStr raw)).
Proof.
  intros raw response.
  exact (process_transcript_structured_output
           sample_loads sample_format raw STRICT None None sample_world (lit "AIza")
           response
           (PDict [kv "candidates" (PList
              [PDict [kv "content" (PDict
                 [kv "parts" (PList [PDict [kv "text" (str "{}")]])])]])])
           (lit "{}")
           eq_refl eq_refl eq_refl eq_refl eq_refl).
Defined.

(* ================================================================= *)
(** ** The session *)

(** Symbolic execution of a coroutine under [sat]: run the code as far as
    it computes, split on what it tests, and take each await as it comes. *)
Ltac unfold_code :=
  cbv beta delta [bind ret raise lift gets modify await try_except try_finally
                  append_final clear get_gemini_api_key safe_send];
  cbn [bind_act except_act finally_act sat negb orb andb
       client_connected should_stop current_mode accumulated_transcript tasks
       elevenlabs_ws gemini_api ELEVENLABS_API_KEY
       set_client_connected set_should_stop set_current_mode
       set_accumulated_transcript set_elevenlabs_ws create_task].

Ltac split_bool b :=
  lazymatch b with
  | negb ?c => split_bool c
  | orb ?c _ => split_bool c
  | andb ?c _ => split_bool c
  | _ => destruct b eqn:?
  end.

Ltac split_test :=
  match goal with
  | |- context [match ?x with _ => _ end] =>
      lazymatch x with
      | context [match _ with _ => _ end] => fail
      | _ => split_bool x
      end
  end.

Ltac exec_sat :=
  repeat first
    [ progress unfold_code
    | match goal with
      | |- sat _ _ _ _ (bind_act (process_transcript _ _ _ _ _ _ _) _) => fail 1
      | |- sat _ _ _ _ _ => split_test
      | |- _ /\ _ => split
      | |- forall _, _ => intro
      end ].

Ltac gone_leaf := unfold keeps_gone, gone in *; cbn in *; congruence.

Lemma safe_send_never_raises : forall data, never_raises (safe_send data).
Proof.
  intros data s. exec_sat; try reflexivity; exact I.
Qed.

(** A property that the body of a loop keeps from one state to the next
    is kept by the first [n] turns of the loop. *)
Lemma iterations_sat :
  forall (rely : world -> Prop) (guar : forall R, world -> world -> io R -> Prop)
         (inv : world -> world -> Prop) (body : M loop_ctl),
    (forall s0 s, inv s0 s -> sat rely guar (fun s0' s' _ => inv s0' s') s0 (body s)) ->
    forall n s0 s, inv s0 s ->
      sat rely guar (fun s0' s' _ => inv s0' s') s0 (iterations n body s).
Proof.
  intros rely guar inv body Hbody. induction n as [|n IH]; intros s0 s Hinv.
  - exact Hinv.
  - cbn [iterations]. unfold bind. apply sat_bind.
    eapply sat_weaken; [|apply Hbody, Hinv].
    intros s0' s' [[|] | e] Hinv'; cbn; auto.
Qed.

(** A part of a coroutine that a lemma describes. *)
Ltac exec_call lemma :=
  apply sat_bind; eapply sat_weaken; [|apply lemma; try assumption; try gone_leaf];
  let r := fresh "r" in intros ? ? r ?; destruct r as [[] | ?]; unfold_code.

Section SessionLemmas.

Variable json_loads : pystr -> result pyval.
Variable json_dumps : pyval -> pystr.
Variable format_value : pyval -> pystr.

(** The call to the enrichment client inside a larger coroutine. *)
Ltac exec_process_transcript :=
  match goal with
  | |- sat _ _ _ _ (bind_act (process_transcript _ _ _ _ _ _ _) _) =>
      apply sat_bind; apply process_transcript_sat
  end.

Ltac exec_all := exec_sat; repeat (exec_process_transcript; exec_sat).

(* ----------------------------------------------------------------- *)
(** *** The coroutines of the session guard the client *)

Lemma safe_send_guards_client : forall data, guards_client (safe_send data).
Proof.
  intros data s0 s H. unfold guards_client_from. exec_sat; try gone_leaf; auto.
Qed.

Lemma process_with_gemini_guards_client : forall transcript,
  guards_client (process_with_gemini json_loads format_value transcript).
Proof.
  intros transcript s0 s H. unfold guards_client_from, process_with_gemini.
  exec_all; try gone_leaf; auto.
Qed.

Lemma elevenlabs_message_guards_client : forall message,
  guards_client (elevenlabs_message json_loads message).
Proof.
  intros message s0 s H. unfold guards_client_from, elevenlabs_message.
  exec_all; try gone_leaf; auto.
Qed.

Lemma receive_from_elevenlabs_iteration_guards_client :
  guards_client (receive_from_elevenlabs_iteration json_loads).
Proof.
  intros s0 s H. unfold guards_client_from, receive_from_elevenlabs_iteration.
  exec_sat; try assumption; try gone_leaf; try discriminate.
  exec_call elevenlabs_message_guards_client; auto.
Qed.

Lemma receive_from_elevenlabs_guards_client : forall n,
  guards_client (receive_from_elevenlabs json_loads n).
Proof.
  intros n s0 s H. unfold guards_client_from, receive_from_elevenlabs, try_except.
  apply sat_except. eapply sat_weaken.
  2: { apply iterations_sat with (inv := keeps_gone); [|exact H].
       apply receive_from_elevenlabs_iteration_guards_client. }
  intros s1 s2 [c | e] H12; cbn; exact H12.
Qed.

Lemma client_text_guards_client : forall text,
  guards_client (client_text json_loads json_dumps text).
Proof.
  intros text s0 s H. unfold guards_client_from, client_text, py_json_loads_text.
  exec_all; try assumption; try gone_leaf; try discriminate.
Qed.

Lemma receive_from_client_iteration_guards_client :
  guards_client (receive_from_client_iteration json_loads json_dumps).
Proof.
  intros s0 s H. unfold guards_client_from, receive_from_client_iteration.
  exec_sat; try assumption; try gone_leaf; try discriminate.
  exec_call client_text_guards_client; auto.
Qed.

Lemma receive_from_client_guards_client : forall n,
  guards_client (receive_from_client json_loads json_dumps n).
Proof.
  intros n s0 s H. unfold guards_client_from, receive_from_client, try_except.
  apply sat_except. eapply sat_weaken.
  2: { apply iterations_sat with (inv := keeps_gone); [|exact H].
       apply receive_from_client_iteration_guards_client. }
  intros s1 s2 [c | e] H12; unfold_code; [exact H12 | intros _; reflexivity].
Qed.

Lemma session_run_never_reconnects : forall key, never_reconnects (session_run key).
Proof.
  intros key s0 s H. unfold session_run.
  exec_sat; try assumption; try gone_leaf.
Qed.

End SessionLemmas.

(* ----------------------------------------------------------------- *)
(** *** Under the event loop *)

(** What a coroutine that guards the client leaves once it has run to its
    next await or to its end. *)
Lemma guards_client_settles : forall A (a : act A) w,
  guards_client_from w a ->
  Forall guards_client_suspended (suspended_of a)
  /\ (gone w -> gone (state_of a) /\ Forall not_a_write (calls_of a)).
Proof.
  intros A [s r | R s e k] w H; cbn in *.
  - split; [constructor|]. intros Hw. split; [apply H, Hw | constructor].
  - destruct H as [[Hkeeps Hwrite] Hk]. split.
    + constructor; [|constructor]. intros r s'. apply Hk, I.
    + intros Hw. split; [apply Hkeeps, Hw|].
      constructor; [|constructor]. cbn.
      destruct (sent e) as [data|] eqn:Hsent; [|reflexivity].
      assert (Hconnected : client_connected s = true) by (apply Hwrite; discriminate).
      specialize (Hkeeps Hw). unfold gone in Hkeeps. congruence.
Qed.

Section EventLoop.

Variable started : forall A, M A -> Prop.
Hypothesis started_guard : forall A (m : M A), started A m -> guards_client m.

(** The coroutines of a run all guard the client, if those it began with do. *)
Lemma event_loop_guarded : forall c1 calls c2,
  event_loop started c1 calls c2 ->
  Forall guards_client_suspended (snd c1) ->
  Forall guards_client_suspended (snd c2).
Proof.
  induction 1 as [c | w before after A R e k r calls c Hrun IH
                    | w pool A m calls c Hm Hrun IH]; intros Hpool; cbn in *.
  - exact Hpool.
  - apply IH. cbn.
    apply Forall_app in Hpool as [Hbefore Hafter].
    apply Forall_cons_iff in Hafter as [Hk Hafter].
    apply Forall_app. split; [exact Hbefore|]. apply Forall_app. split; [|exact Hafter].
    apply (guards_client_settles _ (k r w) w), Hk.
  - apply IH. cbn. apply Forall_app. split; [|exact Hpool].
    apply (guards_client_settles _ (m w) w).
    apply (started_guard _ m Hm). intros Hw. exact Hw.
Qed.

(** Once the client is marked as gone, a run keeps it gone and starts no
    write to it. *)
Lemma event_loop_gone : forall c1 calls c2,
  event_loop started c1 calls c2 ->
  Forall guards_client_suspended (snd c1) ->
  gone (fst c1) ->
  gone (fst c2) /\ Forall not_a_write calls.
Proof.
  induction 1 as [c | w before after A R e k r calls c Hrun IH
                    | w pool A m calls c Hm Hrun IH]; intros Hpool Hgone; cbn in *.
  - split; [exact Hgone | constructor].
  - apply Forall_app in Hpool as [Hbefore Hafter].
    apply Forall_cons_iff in Hafter as [Hk Hafter].
    destruct (guards_client_settles _ (k r w) w (Hk r w)) as [Hnew Hstep].
    destruct (Hstep Hgone) as [Hgone' Hcalls].
    destruct IH as [Hend Hrest].
    + cbn. apply Forall_app. split; [exact Hbefore|]. apply Forall_app. now split.
    + exact Hgone'.
    + split; [exact Hend|]. apply Forall_app. now split.
  - assert (Hm' : guards_client_from w (m w)).
    { apply (started_guard _ m Hm). intros Hw. exact Hw. }
    destruct (guards_client_settles _ (m w) w Hm') as [Hnew Hstep].
    destruct (Hstep Hgone) as [Hgone' Hcalls].
    destruct IH as [Hend Hrest].
    + cbn. apply Forall_app. now split.
    + exact Hgone'.
    + split; [exact Hend|]. apply Forall_app. now split.
Qed.

End EventLoop.

Lemma session_coroutine_guards_client :
  forall json_loads json_dumps format_value A (m : M A),
    @session_coroutine json_loads json_dumps format_value A m -> guards_client m.
Proof.
  intros json_loads json_dumps format_value A m [n | n | transcript].
  - apply receive_from_elevenlabs_guards_client.
  - apply receive_from_client_guards_client.
  - apply process_with_gemini_guards_client.
Qed.

(** C3. [safe_send] never raises. With the client marked as gone it returns
    [False] at once and writes nothing; with the client marked as connected
    it makes one write, returns [True] if the write succeeds and, if the
    write fails, marks the client as gone and returns [False]. The mark is
    permanent: [safe_send], the tasks, the two loops and the rest of the
    session never mark a gone client as connected again, and the tasks and
    the loops start a write to the client only while it is marked as
    connected; so that, however the event loop interleaves the loops and
    the tasks of a session, from the moment the client is marked as gone it
    stays so and no write to it is started. *)
Theorem safe_send_dead_state :
  forall json_loads json_dumps format_value data,
    never_raises (safe_send data)
    /\ (forall s,
          if client_connected s
          then exists k,
                 safe_send data s = Await s (websocket_send_json data) k
                 /\ forall s',
                      k (Ok tt) s' = Done s' (Ok true)
                      /\ forall e, k (Raise e) s'
                                   = Done (set_client_connected false s') (Ok false)
          else safe_send data s = Done s (Ok false))
    /\ guards_client (safe_send data)
    /\ (forall transcript,
          guards_client (process_with_gemini json_loads format_value transcript))
    /\ (forall n, guards_client (receive_from_elevenlabs json_loads n))
    /\ (forall n, guards_client (receive_from_client json_loads json_dumps n))
    /\ (forall key, never_reconnects (session_run key))
    /\ (forall w0 calls1 w1 pool1 calls2 w2 pool2,
          event_loop (@session_coroutine json_loads json_dumps format_value)
                     (w0, []) calls1 (w1, pool1) ->
          event_loop (@session_coroutine json_loads json_dumps format_value)
                     (w1, pool1) calls2 (w2, pool2) ->
          gone w1 ->
          gone w2 /\ Forall not_a_write calls2).
Proof.
  intros json_loads json_dumps format_value data.
  split; [apply safe_send_never_raises|].
  split.
  { intros s. unfold safe_send, bind, gets. cbn [bind_act].
    destruct (client_connected s); cbn [negb]; [|reflexivity].
    eexists. split; [reflexivity|]. intros s'. split; [reflexivity|].
    intros e. reflexivity. }
  split; [apply safe_send_guards_client|].
  split; [apply process_with_gemini_guards_client|].
  split; [apply receive_from_elevenlabs_guards_client|].
  split; [apply receive_from_client_guards_client|].
  split; [apply session_run_never_reconnects|].
  intros w0 calls1 w1 pool1 calls2 w2 pool2 Hbefore Hafter Hgone.
  apply (event_loop_gone _ (session_coroutine_guards_client json_loads json_dumps format_value)
           _ _ _ Hafter); [|exact Hgone].
  apply (event_loop_guarded _ (session_coroutine_guards_client json_loads json_dumps format_value)
           _ _ _ Hbefore).
  constructor.
Qed.

(** The client is gone; the loop of the provider is started, awaits a
    message, is resumed with one, and ends: no write to the client. *)
Lemma safe_send_dead_state_witness :
  let w := set_client_connected false sample_world in
  gone w /\ Forall not_a_write [Call elevenlabs_ws_next].
Proof.
  intros w.
  refine (proj2 (proj2 (proj2 (proj2 (proj2 (proj2 (proj2
            (safe_send_dead_state sample_loads sample_dumps sample_format PNone)))))))
            w [] w [] [Call elevenlabs_ws_next] w [] _ _ _).
  - apply loop_idle.
  - refine (@loop_start _ w [] _ (receive_from_elevenlabs sample_loads 1) [] (w, [])
              (started_receive_from_elevenlabs _ _ _ 1) _).
    cbn [state_of suspended_of receive_from_elevenlabs try_except iterations bind
         receive_from_elevenlabs_iteration await bind_act except_act app].
    match goal with
    | |- event_loop _ (_, [Suspended ?e ?k]) _ _ =>
        refine (@loop_resume _ w [] [] _ _ e k (Ok (Some (lit "{}"))) [] (w, []) _)
    end.
    apply loop_idle.
  - reflexivity.
Defined.

(** Two sends in a row to a client that cannot be reached: the first write
    fails, the second send writes nothing, and both return [False]. *)
Example safe_send_after_failure :
  let first := PDict [kv "type" (str "processing")] in
  let second := PDict [kv "type" (str "gemini_result")] in
  run (client_unreachable no_response no_message)
      ((a <- safe_send first ;; b <- safe_send second ;; ret (a, b)) sample_world)
  = ([Call (websocket_send_json first)],
     (set_client_connected false sample_world, Ok (false, false))).
Proof. reflexivity. Qed.

(* ================================================================= *)
(** ** The messages written to the client *)

Section Messages.

Variable json_loads : pystr -> result pyval.
Variable json_dumps : pyval -> pystr.
Variable format_value : pyval -> pystr.

Ltac exec_process_transcript :=
  match goal with
  | |- sat _ _ _ _ (bind_act (process_transcript _ _ _ _ _ _ _) _) =>
      apply sat_bind; apply process_transcript_sat
  end.

Ltac exec_all := exec_sat; repeat (exec_process_transcript; exec_sat).

(** The message of a write, at a leaf of the execution. *)
Ltac sent_message :=
  match goal with
  | H : sent _ = Some _ |- _ =>
      cbn [sent] in H; first [discriminate H | injection H as <-]
  end.

Lemma elevenlabs_message_language : forall message,
  every_message (language_ok (language_code json_loads message))
                (elevenlabs_message json_loads message).
Proof.
  intros message s0 s. unfold elevenlabs_message.
  exec_all; try exact I; sent_message.
  all: try (lazy; first [exact I | reflexivity]).
  match goal with
  | H1 : py_json_loads _ _ = Ok ?a, H2 : py_get ?a (lit "language_code") _ = Ok _ |- _ =>
      apply py_json_loads_ok in H1 as (text & Htext & Hloads);
      injection Htext as <-;
      apply py_get_ok in H2 as (d & -> & ->)
  end.
  unfold language_code. rewrite Hloads. unfold dict_get_default.
  destruct (dict_get d (lit "language_code")); reflexivity.
Qed.

Lemma process_with_gemini_no_transcript : forall transcript,
  every_message (fun m => is_transcript m = false)
                (process_with_gemini json_loads format_value transcript).
Proof.
  intros transcript s0 s. unfold process_with_gemini.
  exec_all; try exact I; sent_message; reflexivity.
Qed.

Lemma client_text_no_transcript : forall text,
  every_message (fun m => is_transcript m = false)
                (client_text json_loads json_dumps text).
Proof.
  intros text s0 s. unfold client_text, py_json_loads_text.
  exec_all; try exact I; sent_message.
Qed.

Lemma receive_from_client_iteration_no_transcript :
  every_message (fun m => is_transcript m = false)
                (receive_from_client_iteration json_loads json_dumps).
Proof.
  intros s0 s. unfold receive_from_client_iteration.
  exec_sat; try exact I; try sent_message.
  exec_call client_text_no_transcript; exact I.
Qed.

Lemma receive_from_client_no_transcript : forall n,
  every_message (fun m => is_transcript m = false)
                (receive_from_client json_loads json_dumps n).
Proof.
  intros n s0 s. unfold receive_from_client, try_except.
  apply sat_except. eapply sat_weaken.
  2: { apply iterations_sat with (inv := fun _ _ => True); [|exact I].
       intros s1 s2 _. apply receive_from_client_iteration_no_transcript. }
  intros s1 s2 [c | e] _; unfold_code; exact I.
Qed.

Lemma session_run_no_transcript : forall key,
  every_message (fun m => is_transcript m = false) (session_run key).
Proof.
  intros key s0 s. unfold session_run.
  exec_sat; try exact I; sent_message; reflexivity.
Qed.

(** In the loop of the provider, where the message at hand changes from
    one turn to the next: a final transcript carries a [language], a partial
    one does not. *)
Lemma receive_from_elevenlabs_iteration_language :
  every_message (fun m => exists code, language_ok code m)
                (receive_from_elevenlabs_iteration json_loads).
Proof.
  intros s0 s. unfold receive_from_elevenlabs_iteration.
  exec_sat; try exact I; try sent_message.
  apply sat_bind.
  eapply sat_mono; [| | |apply elevenlabs_message_language]; cbn.
  - auto.
  - intros R s1 s2 e Hsent data Hdata. eauto.
  - intros s1 s2 [[] | e] _; exact I.
Qed.

Lemma receive_from_elevenlabs_language : forall n,
  every_message (fun m => exists code, language_ok code m)
                (receive_from_elevenlabs json_loads n).
Proof.
  intros n s0 s. unfold receive_from_elevenlabs, try_except.
  apply sat_except. eapply sat_weaken.
  2: { apply iterations_sat with (inv := fun _ _ => True); [|exact I].
       intros s1 s2 _. apply receive_from_elevenlabs_iteration_language. }
  intros s1 s2 [c | e] _; unfold_code; exact I.
Qed.

End Messages.

(** C10. Every final transcript message written to the client carries a
    [language], which is the language code of the provider's message when
    it has one and ["en"] when it has none; a partial transcript message
    carries no [language]. Transcript messages are written for messages of
    the provider only: the tasks, the loop of the client and the rest of
    the session write none. *)
Theorem transcript_language_field :
  forall json_loads json_dumps format_value,
    (forall message,
       every_message (language_ok (language_code json_loads message))
                     (elevenlabs_message json_loads message))
    /\ (forall n,
          every_message (fun m => exists code, language_ok code m)
                        (receive_from_elevenlabs json_loads n))
    /\ (forall transcript,
          every_message (fun m => is_transcript m = false)
                        (process_with_gemini json_loads format_value transcript))
    /\ (forall n,
          every_message (fun m => is_transcript m = false)
                        (receive_from_client json_loads json_dumps n))
    /\ (forall key,
          every_message (fun m => is_transcript m = false) (session_run key)).
Proof.
  intros json_loads json_dumps format_value.
  split; [apply elevenlabs_message_language|].
  split; [apply receive_from_elevenlabs_language|].
  split; [apply process_with_gemini_no_transcript|].
  split; [apply receive_from_client_no_transcript|].
  apply session_run_no_transcript.
Qed.

(** A final segment without language code, and a partial one, as the
    client sees them. *)
Example transcript_messages :
  fst (run (all_succeed no_response no_message)
           (elevenlabs_message sample_loads
              (dq "{'message_type': 'committed_transcript', 'text': 'book a flight tomorrow'}")
              sample_world))
  = [Call (websocket_send_json (PDict
       [kv "type" (str "transcript");
        kv "text" (str "book a flight tomorrow");
        kv "is_final" (PBool true);
        kv "language" (str "en")]))]
  /\ fst (run (all_succeed no_response no_message)
              (elevenlabs_message sample_loads
                 (dq "{'message_type': 'partial_transcript', 'text': 'book a'}")
                 sample_world))
     = [Call (websocket_send_json (PDict
          [kv "type" (str "transcript");
           kv "text" (str "book a");
           kv "is_final" (PBool false)]))].
Proof. split; reflexivity. Qed.

(* ================================================================= *)
(** ** Final segments: the accumulator and the dispatch of tasks *)

Lemma eq_any_str_committed : forall v,
  eq_any_str v [lit "committed_transcript"; lit "committed_transcript_with_timestamps"] = true ->
  eq_str v (lit "session_started") = false
  /\ eq_str v (lit "partial_transcript") = false.
Proof.
  intros v H. unfold eq_any_str in H. cbn [existsb] in H.
  rewrite orb_false_r in H. apply orb_true_iff in H as [H | H];
    apply eq_str_eq in H; subst v; split; reflexivity.
Qed.

(** The message written to the client for a final segment. *)
Lemma final_segment : forall json_loads message data raw s,
  json_loads message = Ok (PDict data) ->
  eq_any_str (dict_get_default data (lit "message_type") (PStr []))
             [lit "committed_transcript"; lit "committed_transcript_with_timestamps"] = true ->
  dict_get_default data (lit "text") (PStr []) = PStr raw ->
  client_connected s = true ->
  match strip raw with
  | [] => elevenlabs_message json_loads message s = Done s (Ok tt)
  | _ :: _ =>
      exists k,
        elevenlabs_message json_loads message s
        = Await s (websocket_send_json (PDict
                     [kv "type" (str "transcript");
                      kv "text" (PStr (strip raw));
                      kv "is_final" (PBool true);
                      kv "language" (dict_get_default data (lit "language_code") (str "en"))]))
                k
        /\ forall r s',
             let s1 := if is_ok r then s' else set_client_connected false s' in
             let s2 := set_accumulated_transcript
                         (accumulated_transcript s1 ++ lit " " ++ strip raw) s1 in
             k r s' = Done (if client_connected s1 then create_task (strip raw) s2 else s2)
                           (Ok tt)
  end.
Proof.
  intros json_loads message data raw s Hloads Htype Htext Hs.
  apply eq_any_str_committed in Htype as Hother. destruct Hother as [H1 H2].
  unfold elevenlabs_message, try_except, bind, lift.
  cbn [py_json_loads bind_act]. rewrite Hloads. cbn [bind_act py_get].
  rewrite H1, H2, Htype, Htext. cbn [bind_act py_strip].
  destruct (strip raw) as [|c text] eqn:Hstrip; cbn [truthy].
  - reflexivity.
  - unfold safe_send, append_final, bind, gets, modify, ret, try_except, await.
    cbn [bind_act]. rewrite Hs. cbn [negb bind_act except_act].
    eexists. split; [reflexivity|].
    intros [[] | e] s';
      cbn [is_ok bind_act except_act client_connected set_accumulated_transcript
           set_client_connected].
    + destruct (client_connected s'); reflexivity.
    + reflexivity.
Qed.

(** C5, as stated, fails: a final segment with text arrives while the
    session runs, the write of its transcript to the client fails, and no
    task is dispatched for it, though it is appended to the accumulator. *)
Lemma final_segment_without_task :
  let message :=
    dq "{'message_type': 'committed_transcript', 'text': 'book a flight tomorrow'}" in
  let failed := Raise (OtherException (lit "Cannot call send once a close message has been sent.")) in
  let out := run (provider_sends message failed)
                 (receive_from_elevenlabs_iteration sample_loads sample_world) in
  strip (lit "book a flight tomorrow") = lit "book a flight tomorrow"
  /\ should_stop sample_world = false
  /\ client_connected sample_world = true
  /\ fst out = [Call elevenlabs_ws_next;
                Call (websocket_send_json (PDict
                  [kv "type" (str "transcript");
                   kv "text" (str "book a flight tomorrow");
                   kv "is_final" (PBool true);
                   kv "language" (str "en")]))]
  /\ snd (snd out) = Ok Continue
  /\ tasks (fst (snd out)) = []
  /\ accumulated_transcript (fst (snd out)) = lit " book a flight tomorrow".
Proof. vm_compute. repeat split; reflexivity. Qed.

(** C5, amended. A final-transcript event reaches its handling when it is
    received with the stop flag clear and the client marked as connected;
    otherwise the loop ends. If its text is empty after trimming, nothing is
    written, nothing is appended and no task is dispatched. If not, the
    transcript is written to the client, the trimmed text is appended to the
    accumulator, and exactly one task is dispatched for it when the client
    is still marked as connected once the write has returned (the write
    succeeded, and nothing marked the client as gone meanwhile), none
    otherwise. *)
Theorem final_segment_dispatch :
  forall json_loads message data raw s0,
    json_loads message = Ok (PDict data) ->
    eq_any_str (dict_get_default data (lit "message_type") (PStr []))
               [lit "committed_transcript"; lit "committed_transcript_with_timestamps"] = true ->
    dict_get_default data (lit "text") (PStr []) = PStr raw ->
    exists k0,
      receive_from_elevenlabs_iteration json_loads s0 = Await s0 elevenlabs_ws_next k0
      /\ forall s,
           if should_stop s || negb (client_connected s)
           then k0 (Ok (Some message)) s = Done s (Ok Break)
           else
             match strip raw with
             | [] => k0 (Ok (Some message)) s = Done s (Ok Continue)
             | _ :: _ =>
                 exists k,
                   k0 (Ok (Some message)) s
                   = Await s (websocket_send_json (PDict
                       [kv "type" (str "transcript");
                        kv "text" (PStr (strip raw));
                        kv "is_final" (PBool true);
                        kv "language"
                           (dict_get_default data (lit "language_code") (str "en"))])) k
                   /\ forall r s', exists s'',
                        k r s' = Done s'' (Ok Continue)
                        /\ accumulated_transcript s''
                           = accumulated_transcript s' ++ lit " " ++ strip raw
                        /\ client_connected s'' = client_connected s' && is_ok r
                        /\ tasks s''
                           = tasks s' ++ (if client_connected s' && is_ok r
                                          then [strip raw] else [])
             end.
Proof.
  intros json_loads message data raw s0 Hloads Htype Htext.
  unfold receive_from_elevenlabs_iteration, bind, await, gets. cbn [bind_act].
  eexists. split; [reflexivity|]. intros s. cbn [bind_act].
  destruct (should_stop s) eqn:Hstop; cbn [orb]; [reflexivity|].
  destruct (client_connected s) eqn:Hs; cbn [negb]; [|reflexivity].
  pose proof (final_segment json_loads message data raw s Hloads Htype Htext Hs) as Hfinal.
  destruct (strip raw) as [|c text] eqn:Hstrip.
  - rewrite Hfinal. reflexivity.
  - destruct Hfinal as (k & -> & Hk). cbn [bind_act].
    eexists. split; [reflexivity|]. intros r s'. cbv beta. rewrite Hk.
    eexists. split; [reflexivity|].
    destruct r as [[] | e]; cbn [is_ok]; [destruct (client_connected s') eqn:Hs'|];
      cbn; rewrite ?Hs', ?andb_false_r, ?app_nil_r; auto.
Qed.

Lemma final_segment_dispatch_witness :
  let message :=
    dq "{'message_type': 'committed_transcript', 'text': 'book a flight tomorrow'}" in
  exists k0,
    receive_from_elevenlabs_iteration sample_loads sample_world
    = Await sample_world elevenlabs_ws_next k0
    /\ forall s,
         if should_stop s || negb (client_connected s)
         then k0 (Ok (Some message)) s = Done s (Ok Break)
         else
           exists k,
             k0 (Ok (Some message)) s
             = Await s (websocket_send_json (PDict
                 [kv "type" (str "transcript");
                  kv "text" (str "book a flight tomorrow");
                  kv "is_final" (PBool true);
                  kv "language" (str "en")])) k
             /\ forall r s', exists s'',
                  k r s' = Done s'' (Ok Continue)
                  /\ accumulated_transcript s''
                     = accumulated_transcript s' ++ lit " " ++ lit "book a flight tomorrow"
                  /\ client_connected s'' = client_connected s' && is_ok r
                  /\ tasks s''
                     = tasks s' ++ (if client_connected s' && is_ok r
                                    then [lit "book a flight tomorrow"] else []).
Proof.
  intros message.
  exact (final_segment_dispatch sample_loads message
           [kv "message_type" (str "committed_transcript");
            kv "text" (str "book a flight tomorrow")]
           (lit "book a flight tomorrow") sample_world
           eq_refl eq_refl eq_refl).
Defined.

(* ================================================================= *)
(** ** The control messages of the client *)

(** What is done with a text frame that decodes to a JSON object. *)
Lemma client_text_object : forall json_loads json_dumps frame data s,
  json_loads frame = Ok (PDict data) ->
  let type := dict_get_default data (lit "type") PNone in
  if eq_str type (lit "stop") then
    exists k,
      client_text json_loads json_dumps (Some frame) s
      = Await s (elevenlabs_ws_send (commit_frame json_dumps)) k
      /\ forall s', k (Ok tt) s' = Done s' (Ok tt)
                    /\ forall e, exists r, k (Raise e) s' = Done s' r
  else
    client_text json_loads json_dumps (Some frame) s
    = if eq_str type (lit "set_mode") then
        Done (set_current_mode
                (if eq_str (dict_get_default data (lit "mode") (str "balanced")) (lit "strict")
                 then STRICT else BALANCED) s) (Ok tt)
      else if eq_str type (lit "clear") then
        Done (set_accumulated_transcript [] s) (Ok tt)
      else Done s (Ok tt).
Proof.
  intros json_loads json_dumps frame data s Hloads type. subst type.
  unfold client_text, py_json_loads_text, try_except, bind, lift.
  cbn [py_json_loads bind_act]. rewrite Hloads. cbn [bind_act py_get].
  destruct (eq_str _ (lit "stop")).
  { unfold await. cbn [except_act]. eexists. split; [reflexivity|].
    intros s'. split; [reflexivity|]. intros e. destruct e; eexists; reflexivity. }
  destruct (eq_str _ (lit "set_mode")); [reflexivity|].
  destruct (eq_str _ (lit "clear")); reflexivity.
Qed.

(** C9. Whatever was accumulated, [clear] followed by a reading of the
    transcript gives the empty string, and a [clear] control message does
    exactly that; appending a final segment changes the transcript by adding
    one space and the text at its end, so that appending the same segment
    twice doubles it, and this is what the handling of a final segment does
    to the transcript, whether the write to the client succeeds or not. *)
Theorem accumulator_clear_and_append :
  forall json_loads json_dumps frame fdata message mdata raw text content s,
    json_loads frame = Ok (PDict fdata) ->
    dict_get fdata (lit "type") = Some (str "clear") ->
    json_loads message = Ok (PDict mdata) ->
    eq_any_str (dict_get_default mdata (lit "message_type") (PStr []))
               [lit "committed_transcript"; lit "committed_transcript_with_timestamps"] = true ->
    dict_get_default mdata (lit "text") (PStr []) = PStr raw ->
    strip raw <> [] ->
    client_connected s = true ->
    (clear ;; gets accumulated_transcript) (set_accumulated_transcript content s)
    = Done (set_accumulated_transcript [] s) (Ok [])
    /\ client_text json_loads json_dumps (Some frame) s = clear s
    /\ append_final text s
       = Done (set_accumulated_transcript (accumulated_transcript s ++ lit " " ++ text) s)
              (Ok tt)
    /\ (append_final text ;; append_final text ;; gets accumulated_transcript) s
       = Done (set_accumulated_transcript
                 ((accumulated_transcript s ++ lit " " ++ text) ++ lit " " ++ text) s)
              (Ok ((accumulated_transcript s ++ lit " " ++ text) ++ lit " " ++ text))
    /\ exists data k,
         elevenlabs_message json_loads message s = Await s (websocket_send_json data) k
         /\ forall r s', exists s'',
              k r s' = Done s'' (Ok tt)
              /\ accumulated_transcript s''
                 = accumulated_transcript s' ++ lit " " ++ strip raw.
Proof.
  intros json_loads json_dumps frame fdata message mdata raw text content s
         Hframe Hclear Hmessage Htype Htext Hraw Hs.
  split; [reflexivity|].
  split.
  { pose proof (client_text_object json_loads json_dumps frame fdata s Hframe) as H.
    cbv zeta in H. unfold dict_get_default in H. rewrite Hclear in H. exact H. }
  split; [reflexivity|].
  split; [reflexivity|].
  pose proof (final_segment json_loads message mdata raw s Hmessage Htype Htext Hs) as H.
  destruct (strip raw) as [|c t]; [congruence|].
  destruct H as (k & Hk & Hafter). eexists. exists k. split; [exact Hk|].
  intros r s'. eexists. split; [apply Hafter|].
  destruct r as [[] | e]; cbn [is_ok]; [destruct (client_connected s')|]; reflexivity.
Qed.

Lemma accumulator_clear_and_append_witness :
  let frame := dq "{'type': 'clear'}" in
  let message :=
    dq "{'message_type': 'committed_transcript', 'text': 'book a flight tomorrow'}" in
  let text := lit "book a flight tomorrow" in
  let s := set_accumulated_transcript (lit " hello") sample_world in
  (clear ;; gets accumulated_transcript) (set_accumulated_transcript (lit " hello") s)
  = Done (set_accumulated_transcript [] s) (Ok [])
  /\ client_text sample_loads sample_dumps (Some frame) s = clear s
  /\ append_final text s
     = Done (set_accumulated_transcript (lit " hello book a flight tomorrow") s) (Ok tt)
  /\ (append_final text ;; append_final text ;; gets accumulated_transcript) s
     = Done (set_accumulated_transcript
               (lit " hello book a flight tomorrow book a flight tomorrow") s)
            (Ok (lit " hello book a flight tomorrow book a flight tomorrow"))
  /\ exists data k,
       elevenlabs_message sample_loads message s = Await s (websocket_send_json data) k
       /\ forall r s', exists s'',
            k r s' = Done s'' (Ok tt)
            /\ accumulated_transcript s''
               = accumulated_transcript s' ++ lit " " ++ lit "book a flight tomorrow".
Proof.
  intros frame message text s.
  refine (accumulator_clear_and_append sample_loads sample_dumps frame
            [kv "type" (str "clear")] message
            [kv "message_type" (str "committed_transcript");
             kv "text" (str "book a flight tomorrow")]
            text text (lit " hello") s
            eq_refl eq_refl eq_refl eq_refl eq_refl _ eq_refl).
  discriminate.
Defined.

Lemma prompts_differ : STRICT_SYSTEM_PROMPT <> BALANCED_SYSTEM_PROMPT.
Proof.
  intros H.
  assert (Hlen : List.length STRICT_SYSTEM_PROMPT = List.length BALANCED_SYSTEM_PROMPT)
    by now rewrite H.
  vm_compute in Hlen. discriminate Hlen.
Qed.

(** The request a task makes, with the mode in effect when it makes it. *)
Lemma process_with_gemini_request :
  forall json_loads format_value transcript s,
    strip transcript <> [] ->
    client_connected s = true ->
    exists k,
      process_with_gemini json_loads format_value transcript s
      = Await s (websocket_send_json (PDict
                   [kv "type" (str "processing");
                    kv "message" (str "Processing with Gemini...")])) k
      /\ forall r s' key,
           gemini_api s' = Some key -> truthy_opt (Some key) = true ->
           exists k',
             k r s'
             = Await (if is_ok r then s' else set_client_connected false s')
                     (client_post (GEMINI_API_URL ++ lit "?key=" ++ key)
                                  (payload format_value transcript (current_mode s') None None))
                     k'.
Proof.
  intros json_loads format_value transcript s Htext Hs.
  unfold process_with_gemini, safe_send, bind, gets, try_except, await, modify, ret.
  cbn [bind_act]. rewrite Hs.
  destruct (strip transcript) as [|c t] eqn:Hstrip; [congruence|].
  cbn [truthy negb orb bind_act except_act]. rewrite Hs.
  cbn [truthy negb orb bind_act except_act].
  eexists. split; [reflexivity|].
  intros r s' key Hkey Htruthy.
  destruct r as [[] | e]; cbn [bind_act except_act is_ok current_mode set_client_connected].
  - destruct (process_transcript_answer json_loads format_value transcript (current_mode s')
                None None s' key Hkey Htruthy) as (k' & -> & _).
    cbn [bind_act]. eexists. reflexivity.
  - destruct (process_transcript_answer json_loads format_value transcript (current_mode s')
                None None (set_client_connected false s') key Hkey Htruthy) as (k' & Hk' & _).
    cbn [current_mode set_client_connected] in Hk'. rewrite Hk'.
    cbn [bind_act]. eexists. reflexivity.
Qed.

(** C6. The mode of a session starts as balanced. A [set_mode] control
    message sets it to strict when its [mode] is the string ["strict"], and
    to balanced for any other value and when [mode] is missing. The mode
    selects one of two fixed, distinct instruction templates, the strict one
    exactly for the strict mode; the request to the service carries it, and
    a task makes its request with the mode in effect when it makes it. *)
Theorem mode_selects_template :
  forall json_loads json_dumps format_value frame data transcript context turns s,
    json_loads frame = Ok (PDict data) ->
    dict_get data (lit "type") = Some (str "set_mode") ->
    strip transcript <> [] ->
    client_connected s = true ->
    (exists s', session_start s = Done s' (Ok tt) /\ current_mode s' = BALANCED)
    /\ (exists s',
          client_text json_loads json_dumps (Some frame) s = Done s' (Ok tt)
          /\ current_mode s'
             = match dict_get data (lit "mode") with
               | Some mode => if eq_str mode (lit "strict") then STRICT else BALANCED
               | None => BALANCED
               end
          /\ (current_mode s' = STRICT <-> dict_get data (lit "mode") = Some (str "strict")))
    /\ (forall mode,
          request_instructions (payload format_value transcript mode context turns)
          = Some (PStr (match mode with
                        | STRICT => STRICT_SYSTEM_PROMPT
                        | BALANCED => BALANCED_SYSTEM_PROMPT
                        end)))
    /\ STRICT_SYSTEM_PROMPT <> BALANCED_SYSTEM_PROMPT
    /\ exists k,
         process_with_gemini json_loads format_value transcript s
         = Await s (websocket_send_json (PDict
                      [kv "type" (str "processing");
                       kv "message" (str "Processing with Gemini...")])) k
         /\ forall r s' key,
              gemini_api s' = Some key -> truthy_opt (Some key) = true ->
              exists k',
                k r s'
                = Await (if is_ok r then s' else set_client_connected false s')
                        (client_post (GEMINI_API_URL ++ lit "?key=" ++ key)
                           (payload format_value transcript (current_mode s') None None))
                        k'.
Proof.
  intros json_loads json_dumps format_value frame data transcript context turns s
         Hframe Htype Htext Hs.
  split; [eexists; split; reflexivity|].
  split.
  { pose proof (client_text_object json_loads json_dumps frame data s Hframe) as H.
    cbv zeta in H. unfold dict_get_default in H. rewrite Htype in H.
    change (eq_str (str "set_mode") (lit "stop")) with false in H.
    change (eq_str (str "set_mode") (lit "set_mode")) with true in H.
    cbv iota in H. eexists. split; [exact H|].
    cbn [current_mode set_current_mode].
    destruct (dict_get data (lit "mode")) as [mode|]; [|split; [reflexivity|]].
    - split; [reflexivity|].
      destruct (eq_str mode (lit "strict")) eqn:E; split; intros H'; try discriminate.
      + apply eq_str_eq in E. now subst.
      + reflexivity.
      + injection H' as ->. discriminate E.
    - split; discriminate. }
  split; [intros [|]; reflexivity|].
  split; [apply prompts_differ|].
  apply process_with_gemini_request; assumption.
Qed.

Lemma mode_selects_template_witness :
  let frame := dq "{'type': 'set_mode', 'mode': 'strict'}" in
  let transcript := lit "book a flight tomorrow" in
  (exists s', session_start sample_world = Done s' (Ok tt) /\ current_mode s' = BALANCED)
  /\ (exists s',
        client_text sample_loads sample_dumps (Some frame) sample_world = Done s' (Ok tt)
        /\ current_mode s' = STRICT
        /\ (current_mode s' = STRICT <-> Some (str "strict") = Some (str "strict")))
  /\ (forall mode,
        request_instructions (payload sample_format transcript mode None None)
        = Some (PStr (match mode with
                      | STRICT => STRICT_SYSTEM_PROMPT
                      | BALANCED => BALANCED_SYSTEM_PROMPT
                      end)))
  /\ STRICT_SYSTEM_PROMPT <> BALANCED_SYSTEM_PROMPT
  /\ exists k,
       process_with_gemini sample_loads sample_format transcript sample_world
       = Await sample_world (websocket_send_json (PDict
                    [kv "type" (str "processing");
                     kv "message" (str "Processing with Gemini...")])) k
       /\ forall r s' key,
            gemini_api s' = Some key -> truthy_opt (Some key) = true ->
            exists k',
              k r s'
              = Await (if is_ok r then s' else set_client_connected false s')
                      (client_post (GEMINI_API_URL ++ lit "?key=" ++ key)
                         (payload sample_format transcript (current_mode s') None None))
                      k'.
Proof.
  intros frame transcript.
  refine (mode_selects_template sample_loads sample_dumps sample_format frame
            [kv "type" (str "set_mode"); kv "mode" (str "strict")]
            transcript None None sample_world
            eq_refl eq_refl _ eq_refl).
  discriminate.
Defined.

(* ================================================================= *)
(** ** Audio frames and the stop message *)

Lemma count_kind_app : forall k a b,
  count_kind k (a ++ b) = count_kind k a + count_kind k b.
Proof.
  intros k a b. induction a as [|[R e] a IH]; simpl; [reflexivity|].
  rewrite IH. lia.
Qed.

Section ClientLoop.

Variable json_loads : pystr -> result pyval.
Variable json_dumps : pyval -> pystr.
Variable env : answers.

(** Every write to the provider succeeds. *)
Hypothesis provider_writes_succeed :
  forall n frame, env n _ (elevenlabs_ws_send frame) = Ok tt.

(** One turn of the loop on a binary frame. *)
Lemma run_binary_frame : forall past data s (rest : loop_ctl -> M loop_ctl) h,
  should_stop s = false ->
  client_connected s = true ->
  env (count_kind Kreceive past) _ websocket_receive = Ok (binary_frame data) ->
  run_from env past
    (except_act (bind_act (receive_from_client_iteration json_loads json_dumps s) rest) h)
  = run_from env
      (past ++ [Call websocket_receive; Call (elevenlabs_ws_send (chunk_frame json_dumps data))])
      (except_act (rest Continue s) h).
Proof.
  intros past data s rest h Hstop Hs Hframe.
  unfold receive_from_client_iteration, bind, gets, try_except, await, ret, lift.
  cbn [bind_act]. rewrite Hstop, Hs. cbn [orb negb bind_act except_act run_from kind_of].
  rewrite Hframe.
  cbn [bind_act except_act binary_frame message_type message_bytes message_text].
  change (str_eqb (lit "websocket.receive") (lit "websocket.disconnect")) with false.
  cbn [py_b64encode bind_act except_act run_from].
  rewrite provider_writes_succeed. cbn [bind_act except_act].
  rewrite <- app_assoc. reflexivity.
Qed.

(** One turn of the loop on a stop message. *)
Lemma run_stop_frame : forall past frame data s (rest : loop_ctl -> M loop_ctl) h,
  should_stop s = false ->
  client_connected s = true ->
  json_loads frame = Ok (PDict data) ->
  dict_get data (lit "type") = Some (str "stop") ->
  env (count_kind Kreceive past) _ websocket_receive = Ok (text_frame frame) ->
  run_from env past
    (except_act (bind_act (receive_from_client_iteration json_loads json_dumps s) rest) h)
  = run_from env
      (past ++ [Call websocket_receive; Call (elevenlabs_ws_send (commit_frame json_dumps))])
      (except_act (rest Continue s) h).
Proof.
  intros past frame data s rest h Hstop Hs Hloads Htype Hframe.
  unfold receive_from_client_iteration, bind, gets, try_except, await, ret, lift.
  cbn [bind_act]. rewrite Hstop, Hs. cbn [orb negb bind_act except_act run_from kind_of].
  rewrite Hframe.
  cbn [bind_act except_act text_frame message_type message_bytes message_text].
  change (str_eqb (lit "websocket.receive") (lit "websocket.disconnect")) with false.
  cbv iota.
  unfold client_text, py_json_loads_text, try_except, bind, lift, await.
  cbn [py_json_loads bind_act]. rewrite Hloads. cbn [bind_act py_get].
  unfold dict_get_default. rewrite Htype.
  change (eq_str (str "stop") (lit "stop")) with true.
  cbn [bind_act except_act run_from].
  rewrite provider_writes_succeed. cbn [bind_act except_act].
  rewrite <- app_assoc. reflexivity.
Qed.

Lemma run_audio_then_stop : forall chunks past frame data s,
  should_stop s = false ->
  client_connected s = true ->
  json_loads frame = Ok (PDict data) ->
  dict_get data (lit "type") = Some (str "stop") ->
  (forall n chunk, nth_error chunks n = Some chunk ->
     env (count_kind Kreceive past + n) _ websocket_receive = Ok (binary_frame chunk)) ->
  env (count_kind Kreceive past + List.length chunks) _ websocket_receive
  = Ok (text_frame frame) ->
  run_from env past (receive_from_client json_loads json_dumps (S (List.length chunks)) s)
  = (past
     ++ flat_map (fun chunk => [Call websocket_receive;
                                Call (elevenlabs_ws_send (chunk_frame json_dumps chunk))])
                 chunks
     ++ [Call websocket_receive; Call (elevenlabs_ws_send (commit_frame json_dumps))],
     (s, Ok Continue)).
Proof.
  induction chunks as [|chunk chunks IH];
    intros past frame data s Hstop Hs Hloads Htype Hchunks Hlast.
  - unfold receive_from_client, try_except. cbn [List.length iterations]. unfold bind.
    rewrite (run_stop_frame past frame data s _ _ Hstop Hs Hloads Htype).
    + reflexivity.
    + now rewrite Nat.add_0_r in Hlast.
  - unfold receive_from_client, try_except.
    change (iterations (S (List.length (chunk :: chunks)))
              (receive_from_client_iteration json_loads json_dumps) s)
      with (bind_act (receive_from_client_iteration json_loads json_dumps s)
              (fun c => match c with
                        | Break => ret Break
                        | Continue => iterations (S (List.length chunks))
                                        (receive_from_client_iteration json_loads json_dumps)
                        end)).
    rewrite (run_binary_frame past chunk s _ _ Hstop Hs).
    2: { rewrite <- (Hchunks 0 chunk eq_refl). now rewrite Nat.add_0_r. }
    cbv beta iota.
    fold (try_except (iterations (S (List.length chunks))
                        (receive_from_client_iteration json_loads json_dumps))
                     (fun _ : exn =>
                        modify (set_client_connected false) ;;
                        modify (set_should_stop true) ;;
                        ret Break) s).
    fold (receive_from_client json_loads json_dumps (S (List.length chunks)) s).
    rewrite (IH _ frame data s Hstop Hs Hloads Htype).
    + cbn [flat_map]. rewrite <- !app_assoc. reflexivity.
    + intros n c Hn. rewrite count_kind_app. cbn.
      rewrite <- Nat.add_assoc. apply (Hchunks (S n) c Hn).
    + rewrite count_kind_app. cbn. rewrite <- Nat.add_assoc. exact Hlast.
Qed.

End ClientLoop.

(** C8, as stated, fails: the client sends two binary frames and a stop
    message while the provider cannot be written to; the write of the first
    chunk fails, the second frame is not forwarded and no commit is sent,
    and the loop ends with the stop flag set and the client marked as gone. *)
Lemma audio_frames_lost_when_provider_fails :
  let frames := [binary_frame [Byte.x4d; Byte.x61; Byte.x6e];
                 binary_frame [Byte.x4d];
                 text_frame (dq "{'type': 'stop'}")] in
  let failed := Raise (ConnectionClosed (lit "no close frame received or sent")) in
  run (client_sends frames failed)
      (receive_from_client sample_loads sample_dumps 3 sample_world)
  = ([Call websocket_receive;
      Call (elevenlabs_ws_send
              (dq "{'message_type': 'input_audio_chunk', 'audio_base_64': 'TWFu'}"))],
     (set_should_stop true (set_client_connected false sample_world), Ok Break)).
Proof. vm_compute. reflexivity. Qed.

(** C8, amended. When the client sends binary frames and then a stop
    message, and every write to the provider succeeds, each frame is
    forwarded to the provider as an audio chunk, base64-encoded, in the
    order received, then a commit frame is sent, and the loop of the client
    is still running after them, with the stop flag clear and the client
    marked as connected: the shared state is as it was. *)
Theorem audio_frames_then_stop :
  forall json_loads json_dumps (env : answers) chunks frame data s,
    (forall n f, env n _ (elevenlabs_ws_send f) = Ok tt) ->
    should_stop s = false ->
    client_connected s = true ->
    json_loads frame = Ok (PDict data) ->
    dict_get data (lit "type") = Some (str "stop") ->
    (forall n chunk, nth_error chunks n = Some chunk ->
       env n _ websocket_receive = Ok (binary_frame chunk)) ->
    env (List.length chunks) _ websocket_receive = Ok (text_frame frame) ->
    run env (receive_from_client json_loads json_dumps (S (List.length chunks)) s)
    = (flat_map (fun chunk => [Call websocket_receive;
                               Call (elevenlabs_ws_send (chunk_frame json_dumps chunk))])
                chunks
       ++ [Call websocket_receive; Call (elevenlabs_ws_send (commit_frame json_dumps))],
       (s, Ok Continue)).
Proof.
  intros json_loads json_dumps env chunks frame data s Hwrites Hstop Hs Hloads Htype
         Hchunks Hlast.
  unfold run.
  apply (run_audio_then_stop json_loads json_dumps env Hwrites chunks [] frame data s
           Hstop Hs Hloads Htype Hchunks Hlast).
Qed.

Lemma audio_frames_then_stop_witness :
  let first := [Byte.x4d; Byte.x61; Byte.x6e] in
  let second := [Byte.x4d] in
  let stop := dq "{'type': 'stop'}" in
  let env := client_sends [binary_frame first; binary_frame second; text_frame stop] (Ok tt) in
  run env (receive_from_client sample_loads sample_dumps 3 sample_world)
  = ([Call websocket_receive;
      Call (elevenlabs_ws_send (chunk_frame sample_dumps first));
      Call websocket_receive;
      Call (elevenlabs_ws_send (chunk_frame sample_dumps second));
      Call websocket_receive;
      Call (elevenlabs_ws_send (commit_frame sample_dumps))],
     (sample_world, Ok Continue)).
Proof.
  intros first second stop env.
  refine (audio_frames_then_stop sample_loads sample_dumps env [first; second] stop
            [kv "type" (str "stop")] sample_world
            (fun _ _ => eq_refl) eq_refl eq_refl eq_refl eq_refl _ eq_refl).
  intros [|[|n]] chunk H; cbn in H.
  - injection H as <-. reflexivity.
  - injection H as <-. reflexivity.
  - destruct n; discriminate H.
Defined.

(* ================================================================= *)
(** ** A connection without the key of the provider *)

(** C7, as stated, fails: the key is absent, the connection is accepted,
    the write of the error message fails, and the connection is not closed:
    the session ends after the failed write. *)
Lemma missing_key_without_close :
  ELEVENLABS_API_KEY no_key_world = None
  /\ run (client_unreachable no_response no_message) (websocket_transcribe no_key_world)
     = ([Call websocket_accept; Call (websocket_send_json not_configured)],
        (no_key_world, Ok tt)).
Proof. split; reflexivity. Qed.

(** C7, amended. If the key of the provider is absent (not set, or empty)
    when a connection is accepted, the session writes one message, an error
    whose text says that the key is not configured; it closes the connection
    if that write succeeds; and it ends there, without raising, without
    changing the shared state and without any attempt to connect to the
    provider. *)
Theorem missing_key_ends_session :
  forall (env : answers) s,
    truthy_opt (ELEVENLABS_API_KEY s) = false ->
    env 0 _ websocket_accept = Ok tt ->
    not_configured = PDict [kv "type" (str "error");
                            kv "message" (str "ElevenLabs API key not configured")]
    /\ run env (websocket_transcribe s)
       = ([Call websocket_accept; Call (websocket_send_json not_configured)]
          ++ (if is_ok (env 0 _ (websocket_send_json not_configured))
              then [Call websocket_close] else []),
          (s, Ok tt)).
Proof.
  intros env s Hkey Haccept. split; [reflexivity|].
  unfold run, websocket_transcribe, bind, await, gets, try_except.
  cbn [bind_act run_from kind_of count_kind]. rewrite Haccept.
  cbn [bind_act]. rewrite Hkey. cbn [negb except_act bind_act run_from app kind_of].
  change (count_kind Ksend_json [Call websocket_accept]) with 0.
  destruct (env 0 unit (websocket_send_json not_configured)) as [[] | e];
    cbn [is_ok bind_act except_act run_from app].
  - destruct (env _ unit websocket_close) as [[] | e]; reflexivity.
  - reflexivity.
Qed.

Lemma missing_key_ends_session_witness :
  run (all_succeed no_response no_message) (websocket_transcribe no_key_world)
  = ([Call websocket_accept; Call (websocket_send_json not_configured);
      Call websocket_close],
     (no_key_world, Ok tt)).
Proof.
  exact (proj2 (missing_key_ends_session (all_succeed no_response no_message) no_key_world
                  eq_refl eq_refl)).
Defined.

(* ================================================================= *)
(** ** More on the enrichment client *)

Lemma is_fallback_fields : forall raw v,
  is_fallback raw v = true ->
  exists d msg,
    v = PDict d
    /\ dict_get d (lit "error") = Some (PStr msg)
    /\ dict_get d (lit "meaning_change_risk") = Some (str "high")
    /\ dict_get d (lit "confidence_score") = Some (PFloat float_0_0)
    /\ dict_get d (lit "detected_languages") = Some (PList [str "unknown"])
    /\ dict_get d (lit "cleaned_english_meaning") = Some (PStr raw)
    /\ dict_get d (lit "prompt_ready_english") = Some (PStr raw).
Proof.
  intros raw v H. unfold is_fallback in H.
  apply andb_true_iff in H as [_ H].
  destruct v as [| | | | | |d]; try discriminate H.
  repeat (apply andb_true_iff in H as [H ?]).
  destruct (dict_get d (lit "error")) as [[| | | |msg| |]|] eqn:He; try discriminate.
  destruct (dict_get d (lit "meaning_change_risk")) as [risk|] eqn:Hr; try discriminate.
  destruct (dict_get d (lit "confidence_score")) as [[| | |[[|]| | |]| | |]|] eqn:Hc;
    try discriminate.
  destruct (dict_get d (lit "detected_languages")) as [[| | | | |[|l [|]]|]|] eqn:Hl;
    try discriminate.
  destruct (dict_get d (lit "cleaned_english_meaning")) as [cleaned|] eqn:Hcl;
    try discriminate.
  destruct (dict_get d (lit "prompt_ready_english")) as [prompt|] eqn:Hp; try discriminate.
  repeat match goal with
         | H : eq_str _ _ = true |- _ => apply eq_str_eq in H; subst
         end.
  exists d, msg. repeat split; assumption.
Qed.

Section MoreEnrichment.

Variable json_loads : pystr -> result pyval.
Variable format_value : pyval -> pystr.

(** Every result of [process_transcript] is a dict that carries the input
    text and that the log line of the task can cut. *)
Lemma process_transcript_result :
  forall (rely : world -> Prop) (guar : forall R, world -> world -> io R -> Prop)
         (post : world -> world -> result pyval -> Prop) raw mode context turns s0 s,
    (forall url json, guar _ s0 s (client_post url json)) ->
    (forall v, echoes raw v = true -> loggable v = true -> post s0 s (Ok v)) ->
    (forall s' v, rely s' -> echoes raw v = true -> loggable v = true -> post s' s' (Ok v)) ->
    sat rely guar post s0
        (process_transcript json_loads format_value raw mode context turns s).
Proof.
  intros rely guar post raw mode context turns s0 s Hguar Hnow Hlater.
  destruct (truthy_opt (gemini_api s)) eqn:Hkey.
  - destruct (gemini_api s) as [key|] eqn:Hs; [|discriminate].
    destruct (process_transcript_post json_loads format_value raw mode context turns s key
                Hs Hkey) as (k & -> & _ & Hk).
    simpl. split; [apply Hguar|]. intros r s' Hs'.
    destruct (Hk r s') as (v & -> & Hecho & Hv). simpl. apply Hlater; auto.
    destruct Hv as [(response & result & text & output & _ & _ & _ & _ & _ & Hslice & ->)
                   | [error ->]].
    + unfold loggable, dict_get_default in *.
      now rewrite dict_get_set_other by reflexivity.
    + reflexivity.
  - destruct (process_transcript_no_key json_loads format_value raw mode context turns s Hkey)
      as (v & -> & Hecho & Hfb).
    simpl. apply Hnow; auto.
    apply is_fallback_fields in Hfb as (d & msg & -> & _ & _ & _ & _ & Hcleaned & _).
    unfold loggable, dict_get_default. now rewrite Hcleaned.
Qed.

End MoreEnrichment.

Section EnrichmentErrors.

Variable json_loads : pystr -> result pyval.
Variable format_value : pyval -> pystr.

Ltac run_code :=
  cbv beta delta [ret raise lift];
  cbn [bind_act except_act py_get py_index0 py_slice50 py_setitem py_json_loads
       truthy negb dict_get_default].

Lemma fallback_with_create : forall raw error,
  fallback_with raw error (create_fallback_response raw error).
Proof.
  intros raw error. split; [apply is_fallback_create|].
  eexists. split; reflexivity.
Qed.

(** X1. The [error] of the result of [process_transcript], failure by
    failure; in each case the result is the fallback for the input text and
    the shared state is left as it is. With no key, the error is ["Gemini
    API key not configured"]. With a key, it is ["API timeout"] when the
    request times out and the text of the exception when it raises anything
    else; ["API error: <status>"] when the status is not 200; the text of
    the exception when the body cannot be decoded; ["No response from
    Gemini"] when the body is an object without candidates; ["Empty
    response from Gemini"] when the first candidate has no parts; ["Invalid
    JSON from Gemini"] when the structured output is rejected as not being
    JSON, but the text of the exception when its decoding raises anything
    else (a [RecursionError], a [ValueError]); and the text of the
    [TypeError] of the assignment when it decodes to something that is not
    an object. *)
Theorem process_transcript_error_texts :
  forall raw mode context turns s key,
    gemini_api s = Some key ->
    truthy_opt (Some key) = true ->
    (forall s0, truthy_opt (gemini_api s0) = false ->
       exists v,
         process_transcript json_loads format_value raw mode context turns s0
         = Done s0 (Ok v)
         /\ fallback_with raw (lit "Gemini API key not configured") v)
    /\ exists k,
         process_transcript json_loads format_value raw mode context turns s
         = Await s (client_post (GEMINI_API_URL ++ lit "?key=" ++ key)
                                (payload format_value raw mode context turns)) k
         /\ forall s',
              (forall e,
                 exists v,
                   k (Raise e) s' = Done s' (Ok v)
                   /\ fallback_with raw (failure_text e) v)
              /\ (forall response,
                    status_code response <> 200%Z ->
                    exists v,
                      k (Ok response) s' = Done s' (Ok v)
                      /\ fallback_with raw
                           (lit "API error: " ++ str_of_int (status_code response)) v)
              /\ (forall response e,
                    status_code response = 200%Z ->
                    json_loads (response_text response) = Raise e ->
                    exists v,
                      k (Ok response) s' = Done s' (Ok v)
                      /\ fallback_with raw (failure_text e) v)
              /\ (forall response d,
                    status_code response = 200%Z ->
                    json_loads (response_text response) = Ok (PDict d) ->
                    truthy (dict_get_default d (lit "candidates") (PList [])) = false ->
                    exists v,
                      k (Ok response) s' = Done s' (Ok v)
                      /\ fallback_with raw (lit "No response from Gemini") v)
              /\ (forall response d candidate rest,
                    status_code response = 200%Z ->
                    json_loads (response_text response) = Ok (PDict d) ->
                    dict_get d (lit "candidates") = Some (PList (PDict candidate :: rest)) ->
                    match dict_get_default candidate (lit "content") (PDict []) with
                    | PDict content =>
                        truthy (dict_get_default content (lit "parts") (PList [])) = false
                    | _ => False
                    end ->
                    exists v,
                      k (Ok response) s' = Done s' (Ok v)
                      /\ fallback_with raw (lit "Empty response from Gemini") v)
              /\ (forall response result text e,
                    status_code response = 200%Z ->
                    Response_json json_loads response = Ok result ->
                    output_text result = Some (PStr text) ->
                    json_loads text = Raise e ->
                    exists v,
                      k (Ok response) s' = Done s' (Ok v)
                      /\ fallback_with raw (output_failure_text e) v)
              /\ (forall response result text output e,
                    status_code response = 200%Z ->
                    Response_json json_loads response = Ok result ->
                    output_text result = Some (PStr text) ->
                    json_loads text = Ok output ->
                    py_setitem output (lit "raw_transcript") (PStr raw) = Raise e ->
                    exists v,
                      k (Ok response) s' = Done s' (Ok v)
                      /\ fallback_with raw (str_exn e) v).
Proof.
  intros raw mode context turns s key Hs Hkey. split.
  { intros s0 Hnone.
    unfold process_transcript, get_gemini_api_key, bind, gets.
    cbn [bind_act]. rewrite Hnone. cbn [negb]. unfold ret.
    eexists. split; [reflexivity|]. split; [apply no_key_result|].
    eexists. split; reflexivity. }
  unfold process_transcript, get_gemini_api_key, bind, gets.
  cbn [bind_act]. rewrite Hs, Hkey. cbn [negb].
  unfold try_except, await. cbn [bind_act except_act].
  eexists. split; [reflexivity|]. intros s'.
  split.
  { intros e. eexists. split; [|apply fallback_with_create]. destruct e; reflexivity. }
  split.
  { intros response Hstatus. apply Z.eqb_neq in Hstatus.
    eexists. split; [|apply fallback_with_create].
    run_code. rewrite Hstatus. reflexivity. }
  split.
  { intros response e Hstatus Hbody. apply Z.eqb_eq in Hstatus.
    eexists. split; [|apply fallback_with_create].
    run_code. rewrite Hstatus. unfold Response_json. run_code. rewrite Hbody.
    destruct e; reflexivity. }
  split.
  { intros response d Hstatus Hbody Hcandidates. apply Z.eqb_eq in Hstatus.
    eexists. split; [|apply fallback_with_create].
    run_code. rewrite Hstatus. unfold Response_json. run_code. rewrite Hbody.
    run_code. unfold dict_get_default in *. rewrite Hcandidates. reflexivity. }
  split.
  { intros response d candidate rest Hstatus Hbody Hcandidates Hparts.
    apply Z.eqb_eq in Hstatus.
    eexists. split; [|apply fallback_with_create].
    run_code. rewrite Hstatus. unfold Response_json. run_code. rewrite Hbody.
    run_code. unfold dict_get_default in *. rewrite Hcandidates. run_code.
    unfold dict_get_default.
    destruct (dict_get candidate (lit "content")) as [[| | | | | |content]|];
      try contradiction; run_code; unfold dict_get_default; rewrite Hparts; reflexivity. }
  split.
  { intros response result text e Hstatus Hjson Htext Hloads.
    apply Z.eqb_eq in Hstatus.
    apply output_text_shape in Htext as (d & c & l & ct & p & l' & -> & Hc & Hct & Hp & Ht).
    eexists. split; [|apply fallback_with_create].
    run_code. rewrite Hstatus, Hjson. run_code.
    unfold dict_get_default in *.
    rewrite Hc. run_code. unfold dict_get_default.
    rewrite Hct. run_code. unfold dict_get_default.
    rewrite Hp. run_code. unfold dict_get_default.
    rewrite <- Ht. run_code. rewrite Hloads. destruct e; reflexivity. }
  intros response result text output e Hstatus Hjson Htext Hloads Hset.
  apply Z.eqb_eq in Hstatus.
  apply output_text_shape in Htext as (d & c & l & ct & p & l' & -> & Hc & Hct & Hp & Ht).
  eexists. split; [|apply fallback_with_create].
  run_code. rewrite Hstatus, Hjson. run_code.
  unfold dict_get_default in *.
  rewrite Hc. run_code. unfold dict_get_default.
  rewrite Hct. run_code. unfold dict_get_default.
  rewrite Hp. run_code. unfold dict_get_default.
  rewrite <- Ht. run_code. rewrite Hloads.
  destruct output; cbn [py_setitem] in Hset; try discriminate Hset;
    injection Hset as <-; reflexivity.
Qed.

End EnrichmentErrors.

(** A status 503, a body that is not JSON, a body on which the decoder
    exceeds the recursion limit, and a body without candidates. *)
Lemma process_transcript_error_texts_witness :
  let raw := lit "book a flight tomorrow" in
  exists k,
    process_transcript deep_loads sample_format raw BALANCED None None sample_world
    = Await sample_world
            (client_post (GEMINI_API_URL ++ lit "?key=" ++ lit "AIza")
                         (payload sample_format raw BALANCED None None)) k
    /\ (exists v, k (Ok (mk_Response 503 [])) sample_world = Done sample_world (Ok v)
                  /\ fallback_with raw (lit "API error: 503") v)
    /\ (exists v, k (Ok (mk_Response 200 (lit "<html>"))) sample_world
                  = Done sample_world (Ok v)
                  /\ fallback_with raw (lit "Expecting value: line 1 column 1 (char 0)") v)
    /\ (exists v, k (Ok (mk_Response 200 deep_text)) sample_world
                  = Done sample_world (Ok v)
                  /\ fallback_with raw
                       (lit "maximum recursion depth exceeded while decoding a JSON array from a unicode string")
                       v)
    /\ (exists v, k (Ok (mk_Response 200 (lit "{}"))) sample_world
                  = Done sample_world (Ok v)
                  /\ fallback_with raw (lit "No response from Gemini") v).
Proof.
  intros raw.
  destruct (process_transcript_error_texts deep_loads sample_format raw BALANCED None None
              sample_world (lit "AIza") eq_refl eq_refl) as [_ (k & Hk & Hcases)].
  exists k. split; [exact Hk|].
  destruct (Hcases sample_world) as (_ & Hstatus & Hbody & Hcandidates & _).
  split; [apply Hstatus; discriminate|].
  split; [apply (Hbody (mk_Response 200 (lit "<html>")) (JSONDecodeError _)); reflexivity|].
  split; [apply (Hbody (mk_Response 200 deep_text) (RecursionError _)); reflexivity|].
  apply (Hcandidates (mk_Response 200 (lit "{}")) []); reflexivity.
Defined.

Lemma dict_set_cons : forall k' v' d k v,
  dict_set ((k', v') :: d) k v
  = if str_eqb k' k then (k', v) :: d else (k', v') :: dict_set d k v.
Proof. reflexivity. Qed.

Lemma dict_get_cons : forall k' v' d k,
  dict_get ((k', v') :: d) k = if str_eqb k' k then Some v' else dict_get d k.
Proof. reflexivity. Qed.

Lemma dict_set_present : forall d k v,
  dict_has d k = true -> map fst (dict_set d k v) = map fst d.
Proof.
  unfold dict_has. induction d as [|[k' v'] d IH]; intros k v H.
  - discriminate.
  - rewrite dict_set_cons. rewrite dict_get_cons in H.
    destruct (str_eqb k' k) eqn:E; [reflexivity|].
    change (k' :: map fst (dict_set d k v) = k' :: map fst d).
    f_equal. apply IH. exact H.
Qed.

Lemma dict_set_absent : forall d k v,
  dict_has d k = false -> dict_set d k v = d ++ [(k, v)].
Proof.
  unfold dict_has. induction d as [|[k' v'] d IH]; intros k v H.
  - reflexivity.
  - rewrite dict_set_cons. rewrite dict_get_cons in H.
    destruct (str_eqb k' k) eqn:E; [discriminate|].
    change ((k', v') :: dict_set d k v = (k', v') :: (d ++ [(k, v)])).
    f_equal. apply IH. exact H.
Qed.

(** X2. When the service answers with a structured output that decodes to
    an object, [process_transcript] returns that object with only its
    [raw_transcript] changed: the input text is put under that key, in the
    place of the echo of the service when there is one and at the end when
    there is none, and every other field is passed through as the service
    gave it. *)
Theorem process_transcript_passes_fields_through :
  forall json_loads format_value raw mode context turns s key response result text output,
    gemini_api s = Some key ->
    truthy_opt (Some key) = true ->
    status_code response = 200%Z ->
    Response_json json_loads response = Ok result ->
    output_text result = Some (PStr text) ->
    json_loads text = Ok (PDict output) ->
    sliceable (dict_get_default output (lit "cleaned_english_meaning") (PStr [])) = true ->
    exists k d,
      process_transcript json_loads format_value raw mode context turns s
      = Await s (client_post (GEMINI_API_URL ++ lit "?key=" ++ key)
                             (payload format_value raw mode context turns)) k
      /\ (forall s', k (Ok response) s' = Done s' (Ok (PDict d)))
      /\ dict_get d (lit "raw_transcript") = Some (PStr raw)
      /\ (forall field, field <> lit "raw_transcript" ->
            dict_get d field = dict_get output field)
      /\ (if dict_has output (lit "raw_transcript")
          then map fst d = map fst output
          else d = output ++ [(lit "raw_transcript", PStr raw)]).
Proof.
  intros json_loads format_value raw mode context turns s key response result text output
         Hs Hkey Hstatus Hjson Htext Hloads Hslice.
  destruct (process_transcript_post json_loads format_value raw mode context turns s key
              Hs Hkey) as (k & Hk & Hforward & _).
  exists k, (dict_set output (lit "raw_transcript") (PStr raw)).
  split; [exact Hk|]. split.
  { intros s'. apply Hforward. exists response, result, text, output.
    repeat split; assumption. }
  split; [apply dict_get_set|]. split.
  { intros field Hfield. apply dict_get_set_other.
    destruct (str_eqb (lit "raw_transcript") field) eqn:E; [|reflexivity].
    apply str_eqb_eq in E. congruence. }
  destruct (dict_has output (lit "raw_transcript")) eqn:Hhas.
  - apply dict_set_present, Hhas.
  - apply dict_set_absent, Hhas.
Qed.

Lemma process_transcript_passes_fields_through_witness :
  let raw := lit "um book a flight" in
  exists k d,
    process_transcript result_loads sample_format raw BALANCED None None sample_world
    = Await sample_world
            (client_post (GEMINI_API_URL ++ lit "?key=" ++ lit "AIza")
                         (payload sample_format raw BALANCED None None)) k
    /\ (forall s', k (Ok (mk_Response 200 result_body)) s' = Done s' (Ok (PDict d)))
    /\ dict_get d (lit "raw_transcript") = Some (PStr raw)
    /\ (forall field, field <> lit "raw_transcript" ->
          dict_get d field = dict_get result_object field)
    /\ map fst d = map fst result_object.
Proof.
  intros raw.
  exact (process_transcript_passes_fields_through
           result_loads sample_format raw BALANCED None None sample_world (lit "AIza")
           (mk_Response 200 result_body)
           (PDict [kv "candidates" (PList
              [PDict [kv "content" (PDict
                 [kv "parts" (PList [PDict [kv "text" (str "<result>")]])])]])])
           (lit "<result>") result_object
           eq_refl eq_refl eq_refl eq_refl eq_refl eq_refl eq_refl).
Defined.

(* ================================================================= *)
(** ** The enrichment task *)

Section Task.

Variable json_loads : pystr -> result pyval.
Variable format_value : pyval -> pystr.

Ltac sent_message :=
  match goal with
  | H : sent _ = Some _ |- _ =>
      cbn [sent] in H; first [discriminate H | injection H as <-]
  end.

(** The call to the enrichment client inside the task, with what is known
    of its result. *)
Ltac exec_result :=
  match goal with
  | |- sat _ _ _ _ (bind_act (process_transcript _ _ _ _ _ _ _) _) =>
      apply sat_bind; apply process_transcript_result;
      [ intros; cbn; auto; try sent_message
      | let v := fresh "v" in
        let Hecho := fresh "Hecho" in
        let Hlog := fresh "Hlog" in
        intros v Hecho Hlog; destruct v; try discriminate Hlog
      | let v := fresh "v" in
        let Hecho := fresh "Hecho" in
        let Hlog := fresh "Hlog" in
        intros ? v ? Hecho Hlog; destruct v; try discriminate Hlog ]
  end.

Ltac cut_log :=
  match goal with
  | Hlog : loggable (PDict ?d) = true |- _ =>
      unfold loggable in Hlog;
      destruct (dict_get_default d (lit "cleaned_english_meaning") (PStr []));
      try discriminate Hlog
  end.

(** X3. A task never ends by raising, whatever the service, the client and
    the other coroutines do: every result of [process_transcript] is a dict
    whose cleaned meaning the last log line can cut, and a failed write to
    the client is absorbed by [safe_send]. *)
Theorem process_with_gemini_never_raises :
  forall transcript, never_raises (process_with_gemini json_loads format_value transcript).
Proof.
  intros transcript s. unfold process_with_gemini.
  exec_sat; try reflexivity; try exact I.
  all: exec_result.
  all: cbn [py_get]; cut_log; cbn [py_slice50].
  all: exec_sat; try exact I; reflexivity.
Qed.

(** X4. A task writes two kinds of message to the client and no other:
    the [processing] notice, and a [gemini_result] with the nine fields
    [type], [raw_transcript], [cleaned_meaning], [prompt_ready],
    [detected_languages], [risk_level], [entities], [confidence] and [error],
    in that order, whose [raw_transcript] is the text the task was started
    with, whatever the service answered. *)
Theorem process_with_gemini_messages :
  forall transcript,
    every_message (task_message transcript)
                  (process_with_gemini json_loads format_value transcript).
Proof.
  intros transcript s0 s. unfold process_with_gemini.
  exec_sat; try exact I.
  all: try (sent_message; left; reflexivity).
  all: exec_result.
  all: cbn [py_get]; cut_log; cbn [py_slice50].
  all: exec_sat; try exact I.
  all: sent_message; right; split; [reflexivity|].
  all: eexists; split; [reflexivity|]; split; [reflexivity|].
  all: unfold echoes in Hecho.
  all: change (Some (dict_get_default d (lit "raw_transcript") (PStr transcript))
               = Some (PStr transcript)).
  all: unfold dict_get_default.
  all: destruct (dict_get _ (lit "raw_transcript")) as [x|]; [|discriminate Hecho].
  all: apply eq_str_eq in Hecho; now subst.
Qed.

(** X5. A task that runs with the client connected and a service that
    fails reports the failure to the client: after the [processing] notice
    and the request, if the key is configured, it writes one [gemini_result]
    whose cleaned meaning and prompt are the transcript unchanged, with the
    languages [["unknown"]], the risk [high], no entities, the confidence
    [0.0] and the text of the error, and it returns. The service fails when
    its key is not configured, when the request raises, and when the answer
    is not a usable structured output. *)
Theorem process_with_gemini_reports_failure :
  forall transcript s (env : answers),
    truthy (PStr (strip transcript)) = true ->
    client_connected s = true ->
    (forall n data, env n _ (websocket_send_json data) = Ok tt) ->
    (forall key,
       gemini_api s = Some key ->
       expected_outcome json_loads
         (env 0 _ (client_post (GEMINI_API_URL ++ lit "?key=" ++ key)
                               (payload format_value transcript (current_mode s) None None)))
       = Fallback) ->
    exists error,
      run env (process_with_gemini json_loads format_value transcript s)
      = ([Call (websocket_send_json processing_notice)]
           ++ service_calls format_value transcript s
           ++ [Call (websocket_send_json (failure_report transcript error))],
         (s, Ok tt)).
Proof.
  intros transcript s env Htext Hs Hwrites Hfails.
  unfold run, process_with_gemini, safe_send, bind, gets, try_except, await, modify, ret.
  cbn [bind_act]. rewrite Hs, Htext.
  cbn [negb orb bind_act except_act]. rewrite Hs.
  cbn [negb orb bind_act except_act run_from kind_of count_kind].
  rewrite Hwrites. cbn [bind_act except_act app].
  unfold service_calls.
  destruct (truthy_opt (gemini_api s)) eqn:Hkey.
  - destruct (gemini_api s) as [key|] eqn:Hapi; [|discriminate].
    rewrite Hkey.
    destruct (process_transcript_post json_loads format_value transcript (current_mode s)
                None None s key Hapi Hkey) as (k & -> & _ & Hback).
    cbn [bind_act run_from kind_of count_kind kind_eqb app Nat.add].
    specialize (Hfails key eq_refl).
    destruct (Hback (env 0 _ (client_post (GEMINI_API_URL ++ lit "?key=" ++ key)
                       (payload format_value transcript (current_mode s) None None))) s)
      as (v & -> & _ & [Hdec | [error ->]]).
    { apply decoded_output_expected in Hdec as [output Hout]. congruence. }
    exists error. unfold lift, create_fallback_response.
    cbn [bind_act py_get]. rewrite Hs.
    cbn [negb bind_act except_act run_from kind_of count_kind kind_eqb Nat.add app].
    rewrite Hwrites. reflexivity.
  - exists (lit "Gemini API key not configured").
    assert (Hnone : match gemini_api s with
                    | Some key =>
                        if truthy_opt (Some key)
                        then [Call (client_post (GEMINI_API_URL ++ lit "?key=" ++ key)
                                (payload format_value transcript (current_mode s) None None))]
                        else []
                    | None => []
                    end = []).
    { destruct (gemini_api s); [rewrite Hkey|]; reflexivity. }
    rewrite Hnone.
    unfold process_transcript, get_gemini_api_key, bind, gets, ret, lift.
    cbn [bind_act]. rewrite Hkey. cbn [negb bind_act py_get]. rewrite Hs.
    cbn [negb bind_act except_act run_from kind_of count_kind kind_eqb Nat.add app].
    rewrite Hwrites. reflexivity.
Qed.

End Task.

Lemma process_with_gemini_reports_failure_witness :
  exists error,
    run (all_succeed no_response no_message)
        (process_with_gemini sample_loads sample_format (lit "book a flight") sample_world)
    = ([Call (websocket_send_json processing_notice)]
         ++ service_calls sample_format (lit "book a flight") sample_world
         ++ [Call (websocket_send_json (failure_report (lit "book a flight") error))],
       (sample_world, Ok tt)).
Proof.
  apply (process_with_gemini_reports_failure sample_loads sample_format
           (lit "book a flight") sample_world (all_succeed no_response no_message)).
  - reflexivity.
  - reflexivity.
  - intros n data. reflexivity.
  - intros key Hkey. reflexivity.
Defined.

(* ================================================================= *)
(** ** The loop of the provider *)

Lemma lstrip_app_nonspace : forall l c,
  isspace c = false -> lstrip (l ++ [c]) = lstrip l ++ [c].
Proof.
  induction l as [|x l IH]; intros c Hc; cbn [lstrip app].
  - now rewrite Hc.
  - destruct (isspace x); [now apply IH | reflexivity].
Qed.

Lemma rstrip_cons_nonspace : forall c t,
  isspace c = false -> rstrip (c :: t) = c :: rstrip t.
Proof.
  intros c t Hc. unfold rstrip. cbn [rev].
  rewrite lstrip_app_nonspace by exact Hc.
  rewrite rev_app_distr. reflexivity.
Qed.

Lemma lstrip_head : forall s,
  match lstrip s with
  | [] => True
  | c :: _ => isspace c = false
  end.
Proof.
  induction s as [|x s IH]; cbn [lstrip]; [exact I|].
  destruct (isspace x) eqn:Hx; [exact IH | exact Hx].
Qed.

Lemma lstrip_lstrip : forall s, lstrip (lstrip s) = lstrip s.
Proof.
  intros s. pose proof (lstrip_head s) as H.
  destruct (lstrip s) as [|c t]; [reflexivity|].
  cbn [lstrip]. now rewrite H.
Qed.

(** [strip] leaves nothing to strip. *)
Lemma strip_strip : forall s, strip (strip s) = strip s.
Proof.
  intros s. unfold strip. pose proof (lstrip_head s) as H.
  destruct (lstrip s) as [|c t]; [reflexivity|].
  rewrite rstrip_cons_nonspace by exact H.
  cbn [lstrip]. rewrite H.
  rewrite rstrip_cons_nonspace by exact H. f_equal.
  unfold rstrip. rewrite rev_involutive, lstrip_lstrip. reflexivity.
Qed.

(** A loop whose body keeps [inv] from one turn to the next, and ends or
    raises in a way that satisfies [post], satisfies [post] after any
    number of turns. *)
Lemma iterations_sat_ctl :
  forall (rely : world -> Prop) (guar : forall R, world -> world -> io R -> Prop)
         (inv : world -> world -> Prop)
         (post : world -> world -> result loop_ctl -> Prop) (body : M loop_ctl),
    (forall s0 s, inv s0 s -> post s0 s (Ok Continue)) ->
    (forall s0 s, inv s0 s ->
       sat rely guar (fun s0' s' r => match r with
                                      | Ok Continue => inv s0' s'
                                      | _ => post s0' s' r
                                      end) s0 (body s)) ->
    forall n s0 s, inv s0 s -> sat rely guar post s0 (iterations n body s).
Proof.
  intros rely guar inv post body Hcontinue Hbody.
  induction n as [|n IH]; intros s0 s Hinv.
  - apply Hcontinue, Hinv.
  - cbn [iterations]. unfold bind. apply sat_bind.
    eapply sat_weaken; [|apply Hbody, Hinv].
    intros s0' s' [[|] | e] H; cbn; auto.
Qed.

Section ProviderLoop.

Variable json_loads : pystr -> result pyval.

(** X6. What the loop of the provider does with each thing its stream
    yields. The end of the stream and an exception of the stream end the
    loop, and so does any message received once the session is stopped or
    the client gone. Otherwise a message that [json.loads] rejects with a
    [JSONDecodeError] is skipped, the loop going on as if it had not come;
    a message on which [json.loads] raises anything else (a
    [RecursionError] for a text nested too deep, a [ValueError] for an
    integer too long) ends the loop, and so does a message that is JSON but
    not an object. In all these cases nothing is written to the client and
    the shared state is left as it is. *)
Theorem provider_stream_decoding :
  forall n message s0,
    exists k0,
      receive_from_elevenlabs json_loads (S n) s0 = Await s0 elevenlabs_ws_next k0
      /\ forall s,
           k0 (Ok None) s = Done s (Ok Break)
           /\ (forall e, k0 (Raise e) s = Done s (Ok Break))
           /\ if over s
              then k0 (Ok (Some message)) s = Done s (Ok Break)
              else match json_loads message with
                   | Raise (JSONDecodeError _) =>
                       k0 (Ok (Some message)) s = receive_from_elevenlabs json_loads n s
                   | Raise _ => k0 (Ok (Some message)) s = Done s (Ok Break)
                   | Ok (PDict _) => True
                   | Ok _ => k0 (Ok (Some message)) s = Done s (Ok Break)
                   end.
Proof.
  intros n message s0.
  unfold receive_from_elevenlabs, try_except. cbn [iterations].
  unfold receive_from_elevenlabs_iteration at 1.
  unfold bind, await, gets, ret. cbn [bind_act except_act].
  eexists. split; [reflexivity|]. intros s.
  split; [reflexivity|]. split; [reflexivity|].
  cbn [bind_act except_act]. unfold over.
  destruct (should_stop s || negb (client_connected s)); [reflexivity|].
  unfold elevenlabs_message, try_except, bind, lift, ret, raise.
  cbn [py_json_loads bind_act except_act].
  destruct (json_loads message) as [[| | | | | |d] | []];
    cbn [bind_act except_act py_get]; first [reflexivity | exact I].
Qed.

(** A frame that is not JSON is skipped; a frame of 2000 opening brackets
    ends the loop. *)
Example provider_frames_not_decoded :
  let s := sample_world in
  exists k0,
    receive_from_elevenlabs deep_loads 1 s = Await s elevenlabs_ws_next k0
    /\ k0 (Ok (Some (lit "ping"))) s = Done s (Ok Continue)
    /\ k0 (Ok (Some deep_text)) s = Done s (Ok Break).
Proof. eexists. split; [reflexivity|]. split; vm_compute; reflexivity. Qed.

(** X7. A message of the provider costs the client at most one message:
    handling it makes no call at all, or makes one write to the client, of a
    [session_started], [transcript] or [error] message, and then returns
    whatever the write answers. It never writes to the provider and never
    calls the service itself. *)
Theorem provider_message_one_write :
  forall message s,
    one_write_at_most
      (fun m => message_type_in [lit "session_started"; lit "transcript"; lit "error"] m = true)
      s (elevenlabs_message json_loads message s).
Proof.
  intros message s. unfold elevenlabs_message, one_write_at_most.
  repeat first [progress unfold_code | split_test].
  all: try exact I.
  all: split; [reflexivity|]; split; [eexists; split; reflexivity|].
  all: intros [[] | e] s1; cbn [bind_act except_act].
  all: unfold_code; try split_test; eexists; reflexivity.
Qed.

Lemma provider_step_refl : forall s, provider_step s s.
Proof.
  intros s. unfold provider_step. repeat split; auto.
  - exists []. now rewrite app_nil_r.
  - exists []. split; [now rewrite app_nil_r | constructor].
Qed.

Lemma provider_step_trans : forall s1 s2 s3,
  provider_step s1 s2 -> provider_step s2 s3 -> provider_step s1 s3.
Proof.
  unfold provider_step.
  intros s1 s2 s3 (Hk & Hg & Hw & Hstop & Hmode & Hgone & [t Ht] & [new [Hnew Htrim]])
         (Hk' & Hg' & Hw' & Hstop' & Hmode' & Hgone' & [t' Ht'] & [new' [Hnew' Htrim']]).
  repeat split; try congruence; auto.
  - exists (t ++ t'). rewrite Ht', Ht. now rewrite app_assoc.
  - exists (new ++ new'). split.
    + rewrite Hnew', Hnew. now rewrite app_assoc.
    + apply Forall_app. now split.
Qed.

Lemma provider_step_gone : forall s, provider_step s (set_client_connected false s).
Proof.
  intros s. unfold provider_step. cbn. repeat split; auto.
  - exists []. now rewrite app_nil_r.
  - exists []. split; [now rewrite app_nil_r | constructor].
Qed.

Lemma provider_step_append : forall s t u,
  u = accumulated_transcript s ++ t ->
  provider_step s (set_accumulated_transcript u s).
Proof.
  intros s t u ->. unfold provider_step. cbn. repeat split; auto.
  - now exists t.
  - exists []. split; [now rewrite app_nil_r | constructor].
Qed.

Lemma provider_step_task : forall s t, trimmed t -> provider_step s (create_task t s).
Proof.
  intros s t Ht. unfold provider_step. cbn. repeat split; auto.
  - exists []. now rewrite app_nil_r.
  - exists [t]. split; [reflexivity | now constructor].
Qed.

Lemma py_strip_trimmed : forall v t,
  py_strip v = Ok t -> truthy (PStr t) = true -> trimmed t.
Proof.
  intros v t Hstrip Ht. destruct v; try discriminate Hstrip.
  cbn [py_strip] in Hstrip. injection Hstrip as <-. split.
  - apply strip_strip.
  - intros Hnil. rewrite Hnil in Ht. discriminate Ht.
Qed.

(** The state a part of the loop leaves, step by step from the state it
    was resumed in. *)
Ltac provider_leaf :=
  lazymatch goal with
  | |- provider_step ?a (create_task ?t ?b) =>
      apply provider_step_trans with b;
      [provider_leaf | apply provider_step_task; eapply py_strip_trimmed; eassumption]
  | |- provider_step ?a (set_accumulated_transcript _ ?b) =>
      apply provider_step_trans with b;
      [provider_leaf | eapply provider_step_append; reflexivity]
  | |- provider_step ?a (set_client_connected false ?b) =>
      apply provider_step_trans with b; [provider_leaf | apply provider_step_gone]
  | |- provider_step _ _ => first [assumption | apply provider_step_refl]
  end.

Lemma elevenlabs_message_steps : forall message s0 s,
  provider_step s0 s ->
  sat (fun _ => True)
      (fun _ s0 s' e => provider_step s0 s' /\ provider_call e = true)
      (fun s0 s' _ => provider_step s0 s') s0
      (elevenlabs_message json_loads message s).
Proof.
  intros message s0 s H. unfold elevenlabs_message.
  exec_sat; try reflexivity; provider_leaf.
Qed.

Lemma receive_from_elevenlabs_iteration_steps : forall s0 s,
  provider_step s0 s ->
  sat (fun _ => True)
      (fun _ s0 s' e => provider_step s0 s' /\ provider_call e = true)
      (fun s0 s' _ => provider_step s0 s') s0
      (receive_from_elevenlabs_iteration json_loads s).
Proof.
  intros s0 s H. unfold receive_from_elevenlabs_iteration.
  exec_sat; try reflexivity; try provider_leaf.
  apply sat_bind. eapply sat_weaken;
    [|apply elevenlabs_message_steps; apply provider_step_refl].
  intros s1 s2 [[] | e] Hstep; unfold_code; exact Hstep.
Qed.

Lemma receive_from_elevenlabs_loop_steps : forall n s,
  sat (fun _ => True)
      (fun _ s0 s' e => provider_step s0 s' /\ provider_call e = true)
      (fun s0 s' r => provider_step s0 s' /\ is_ok r = true) s
      (receive_from_elevenlabs json_loads n s).
Proof.
  intros n s. unfold receive_from_elevenlabs, try_except.
  apply sat_except. eapply sat_weaken.
  2: { apply iterations_sat_ctl
         with (inv := provider_step)
              (post := fun s0 s' (_ : result loop_ctl) => provider_step s0 s').
       - intros s0 s1 H. exact H.
       - intros s0 s1 H. eapply sat_weaken;
           [|apply receive_from_elevenlabs_iteration_steps, H].
         intros s0' s' [[|] | e] H'; exact H'.
       - apply provider_step_refl. }
  intros s1 s2 [c | e] H; unfold_code; (split; [exact H | reflexivity]).
Qed.

Variable format_value : pyval -> pystr.

(** X8. Between two resumptions the loop of the provider makes no call
    but to read its stream and to write to the client, and leaves the stop
    flag, the mode, the keys and the provider connection as they are; it may
    mark the client as gone, never as connected; it only appends to the
    accumulator and to the list of tasks, and every task it dispatches has a
    transcript that is trimmed and not empty. It never ends by raising. A
    task with such a transcript, started while the client is connected,
    passes its own test of the transcript and writes its notice. *)
Theorem receive_from_elevenlabs_steps :
  (forall n s,
     sat (fun _ => True)
         (fun _ s0 s' e => provider_step s0 s' /\ provider_call e = true)
         (fun s0 s' r => provider_step s0 s' /\ is_ok r = true) s
         (receive_from_elevenlabs json_loads n s))
  /\ (forall t s,
        trimmed t ->
        client_connected s = true ->
        exists k,
          process_with_gemini json_loads format_value t s
          = Await s (websocket_send_json processing_notice) k).
Proof.
  split.
  - apply receive_from_elevenlabs_loop_steps.
  - intros t s [Hstrip Ht] Hs.
    destruct (process_with_gemini_request json_loads format_value t s) as (k & Hk & _).
    + now rewrite Hstrip.
    + exact Hs.
    + exists k. exact Hk.
Qed.

End ProviderLoop.

Lemma receive_from_elevenlabs_steps_witness :
  exists k,
    process_with_gemini sample_loads sample_format (lit "book a flight") sample_world
    = Await sample_world (websocket_send_json processing_notice) k.
Proof.
  apply (proj2 (receive_from_elevenlabs_steps sample_loads sample_format)).
  - split; [reflexivity | discriminate].
  - reflexivity.
Defined.

(* ================================================================= *)
(** ** The loop of the client *)

Lemma client_step_refl : forall s, client_step s s.
Proof. intros s. unfold client_step. repeat split; auto. Qed.

Lemma client_step_trans : forall s1 s2 s3,
  client_step s1 s2 -> client_step s2 s3 -> client_step s1 s3.
Proof.
  unfold client_step.
  intros s1 s2 s3 (Hk & Hg & Hw & Ht & Hstop & Hgone & Hacc)
         (Hk' & Hg' & Hw' & Ht' & Hstop' & Hgone' & Hacc').
  repeat split; try congruence; auto.
  destruct Hacc' as [Hacc' | Hacc']; [|now right].
  destruct Hacc as [Hacc | Hacc]; [left | right]; congruence.
Qed.

Lemma client_step_gone : forall s, client_step s (set_client_connected false s).
Proof. intros s. unfold client_step. cbn. repeat split; auto. Qed.

Lemma client_step_stop : forall s, client_step s (set_should_stop true s).
Proof. intros s. unfold client_step. cbn. repeat split; auto. Qed.

Lemma client_step_mode : forall s m, client_step s (set_current_mode m s).
Proof. intros s m. unfold client_step. cbn. repeat split; auto. Qed.

Lemma client_step_clear : forall s, client_step s (set_accumulated_transcript [] s).
Proof. intros s. unfold client_step. cbn. repeat split; auto. Qed.

Ltac client_leaf :=
  lazymatch goal with
  | |- client_step ?a (set_client_connected false ?b) =>
      apply client_step_trans with b; [client_leaf | apply client_step_gone]
  | |- client_step ?a (set_should_stop true ?b) =>
      apply client_step_trans with b; [client_leaf | apply client_step_stop]
  | |- client_step ?a (set_current_mode _ ?b) =>
      apply client_step_trans with b; [client_leaf | apply client_step_mode]
  | |- client_step ?a (set_accumulated_transcript [] ?b) =>
      apply client_step_trans with b; [client_leaf | apply client_step_clear]
  | |- client_step _ _ => first [assumption | apply client_step_refl]
  end.

Section ClientLoopSteps.

Variable json_loads : pystr -> result pyval.
Variable json_dumps : pyval -> pystr.

Lemma client_text_steps : forall text s0 s,
  client_step s0 s ->
  sat (fun _ => True)
      (fun _ s0 s' e => client_step s0 s' /\ client_call e = true)
      (fun s0 s' _ => client_step s0 s') s0
      (client_text json_loads json_dumps text s).
Proof.
  intros text s0 s H. unfold client_text, py_json_loads_text.
  exec_sat; try reflexivity; client_leaf.
Qed.

Lemma receive_from_client_iteration_steps : forall s0 s,
  client_step s0 s ->
  sat (fun _ => True)
      (fun _ s0 s' e => client_step s0 s' /\ client_call e = true)
      (fun s0 s' r => client_step s0 s'
                      /\ match r with
                         | Ok Break => over s' = true
                         | _ => True
                         end) s0
      (receive_from_client_iteration json_loads json_dumps s).
Proof.
  intros s0 s H. unfold receive_from_client_iteration.
  exec_sat; try reflexivity; try exact I; try client_leaf.
  - unfold over. now rewrite Heqb.
  - apply sat_bind. eapply sat_weaken;
      [|apply client_text_steps; apply client_step_refl].
    intros s1 s2 [[] | e] Hstep; unfold_code; [split; [exact Hstep | exact I]|].
    split; [exact Hstep | exact I].
  - unfold over. rewrite Heqb0. apply orb_true_r.
Qed.

(** The loop of the client keeps [client_step] and makes only calls of
    [client_call]. *)
Lemma receive_from_client_loop_steps :
  forall n s,
    sat (fun _ => True)
        (fun _ s0 s' e => client_step s0 s' /\ client_call e = true)
        (fun s0 s' _ => client_step s0 s') s
        (receive_from_client json_loads json_dumps n s).
Proof.
  intros n s. unfold receive_from_client, try_except.
  apply sat_except. eapply sat_weaken.
  2: { apply iterations_sat
         with (inv := client_step); [|apply client_step_refl].
       intros s0 s1 H. eapply sat_weaken;
         [|apply receive_from_client_iteration_steps, H].
       intros s0' s' r [H' _]. exact H'. }
  intros s1 s2 [c | e] H; unfold_code; [exact H | client_leaf].
Qed.

(** X9. Between two resumptions the loop of the client makes no call but
    to read a frame of the client and to write to the provider: it writes
    nothing to the client and calls no service. It dispatches no task and
    leaves the keys and the provider connection as they are; it never
    clears the stop flag and never marks a gone client as connected; it
    leaves the accumulator as it is or empties it. It never ends by raising,
    and when it ends the session is over: the stop flag is set or the client
    is marked as gone. *)
Theorem receive_from_client_steps :
  forall n s,
    sat (fun _ => True)
        (fun _ s0 s' e => client_step s0 s' /\ client_call e = true)
        (fun s0 s' r => client_step s0 s'
                        /\ (r = Ok Continue \/ (r = Ok Break /\ over s' = true))) s
        (receive_from_client json_loads json_dumps n s).
Proof.
  intros n s. unfold receive_from_client, try_except.
  apply sat_except. eapply sat_weaken.
  2: { apply iterations_sat_ctl
         with (inv := client_step)
              (post := fun s0 s' (r : result loop_ctl) =>
                         client_step s0 s'
                         /\ match r with
                            | Ok Break => over s' = true
                            | _ => True
                            end).
       - intros s0 s1 H. split; [exact H | exact I].
       - intros s0 s1 H. eapply sat_weaken;
           [|apply receive_from_client_iteration_steps, H].
         intros s0' s' [[|] | e] [H' Hover]; auto.
       - apply client_step_refl. }
  intros s1 s2 [[|] | e] [H Hover]; unfold_code.
  - split; [exact H | now left].
  - split; [exact H | right; now split].
  - split; [client_leaf | right; split; reflexivity].
Qed.

(** X10. The frames and failures that end the loop of the client, and the
    session with it: each marks the client as gone and sets the stop flag,
    and nothing is written to the provider. They are a disconnect message;
    any exception of the read other than its timeout; a frame whose [bytes]
    key holds [None], whatever text it carries; a frame whose [text] key
    holds [None]; and a text that is JSON but not an object. *)
Theorem client_frames_ending_session :
  forall n s0,
    over s0 = false ->
    exists k0,
      receive_from_client json_loads json_dumps (S n) s0 = Await s0 websocket_receive k0
      /\ forall s,
           let ended := Done (set_should_stop true (set_client_connected false s)) (Ok Break) in
           (forall bytes text,
              k0 (Ok (mk_Message (lit "websocket.disconnect") bytes text)) s = ended)
           /\ (forall e,
                 match e with TimeoutError _ => True | _ => k0 (Raise e) s = ended end)
           /\ (forall type text,
                 str_eqb type (lit "websocket.disconnect") = false ->
                 k0 (Ok (mk_Message type (Some None) text)) s = ended)
           /\ (forall type,
                 str_eqb type (lit "websocket.disconnect") = false ->
                 k0 (Ok (mk_Message type None (Some None))) s = ended)
           /\ (forall type text,
                 str_eqb type (lit "websocket.disconnect") = false ->
                 match json_loads text with
                 | Ok (PDict _) | Raise _ => True
                 | Ok _ => k0 (Ok (mk_Message type None (Some (Some text)))) s = ended
                 end).
Proof.
  intros n s0 Hover. unfold over in Hover.
  unfold receive_from_client, try_except. cbn [iterations].
  unfold receive_from_client_iteration at 1.
  unfold bind, await, gets, ret, modify, try_except. cbn [bind_act except_act].
  rewrite Hover. cbn [bind_act except_act].
  eexists. split; [reflexivity|]. intros s.
  split; [|split; [|split; [|split]]].
  - intros bytes text. cbn [bind_act except_act message_type]. reflexivity.
  - intros [] ; try exact I; reflexivity.
  - intros type text Htype.
    cbn [bind_act except_act message_type message_bytes message_text].
    rewrite Htype. reflexivity.
  - intros type Htype.
    cbn [bind_act except_act message_type message_bytes message_text].
    rewrite Htype. reflexivity.
  - intros type text Htype.
    destruct (json_loads text) as [[| | | | | |d] | e] eqn:Hloads; try exact I.
    all: cbn [bind_act except_act message_type message_bytes message_text].
    all: rewrite Htype.
    all: unfold client_text, try_except, bind, lift, raise, ret.
    all: cbn [py_json_loads_text py_json_loads bind_act except_act].
    all: rewrite Hloads; reflexivity.
Qed.

(** X11. The frames and failures the loop of the client passes over: it
    goes on with its next turn as if they had not come, the shared state
    and the provider untouched. They are the timeout of the read; a frame
    with neither [bytes] nor [text]; a text that [json.loads] rejects with a
    [JSONDecodeError]; and a JSON object whose [type] is none of [stop],
    [set_mode] and [clear], or that has no [type]. A text on which
    [json.loads] raises anything else (a [RecursionError] for a text nested
    too deep, a [ValueError] for an integer too long) is not passed over: it
    ends the loop and the session, the client marked as gone and the stop
    flag set. *)
Theorem client_frames_passed_over :
  forall n s0,
    over s0 = false ->
    exists k0,
      receive_from_client json_loads json_dumps (S n) s0 = Await s0 websocket_receive k0
      /\ forall s,
           let next := receive_from_client json_loads json_dumps n s in
           (forall msg, k0 (Raise (TimeoutError msg)) s = next)
           /\ (forall type,
                 str_eqb type (lit "websocket.disconnect") = false ->
                 k0 (Ok (mk_Message type None None)) s = next)
           /\ (forall type text,
                 str_eqb type (lit "websocket.disconnect") = false ->
                 match json_loads text with
                 | Raise (JSONDecodeError _) =>
                     k0 (Ok (mk_Message type None (Some (Some text)))) s = next
                 | Raise _ =>
                     k0 (Ok (mk_Message type None (Some (Some text)))) s
                     = Done (set_should_stop true (set_client_connected false s)) (Ok Break)
                 | Ok (PDict data) =>
                     let t := dict_get_default data (lit "type") PNone in
                     eq_any_str t [lit "stop"; lit "set_mode"; lit "clear"] = false ->
                     k0 (Ok (mk_Message type None (Some (Some text)))) s = next
                 | Ok _ => True
                 end).
Proof.
  intros n s0 Hover. unfold over in Hover.
  unfold receive_from_client, try_except. cbn [iterations].
  unfold receive_from_client_iteration at 1.
  unfold bind, await, gets, ret, modify, try_except. cbn [bind_act except_act].
  rewrite Hover. cbn [bind_act except_act].
  eexists. split; [reflexivity|]. intros s.
  split; [|split].
  - intros msg. reflexivity.
  - intros type Htype.
    cbn [bind_act except_act message_type message_bytes message_text].
    rewrite Htype. reflexivity.
  - intros type text Htype.
    destruct (json_loads text) as [[| | | | | |d] | []] eqn:Hloads; try exact I.
    all: cbn [bind_act except_act message_type message_bytes message_text].
    all: rewrite Htype.
    all: unfold client_text, try_except, bind, lift, raise, ret.
    all: cbn [py_json_loads_text py_json_loads bind_act except_act].
    all: rewrite Hloads; try reflexivity.
    intros Ht.
    unfold eq_any_str in Ht. cbn [existsb] in Ht.
    apply orb_false_iff in Ht as [Hstop Ht].
    apply orb_false_iff in Ht as [Hmode Ht].
    apply orb_false_iff in Ht as [Hclear _].
    cbn [bind_act except_act py_get].
    rewrite Hstop, Hmode, Hclear. reflexivity.
Qed.

End ClientLoopSteps.

(** A [stop] message in a frame whose [bytes] key holds [None] is not
    passed on: the frame ends the session. *)
Lemma client_frames_ending_session_witness :
  exists k0,
    receive_from_client sample_loads sample_dumps 1 sample_world
    = Await sample_world websocket_receive k0
    /\ forall s,
         k0 (Ok (mk_Message (lit "websocket.receive") (Some None)
                            (Some (Some (dq "{'type': 'stop'}"))))) s
         = Done (set_should_stop true (set_client_connected false s)) (Ok Break).
Proof.
  destruct (client_frames_ending_session sample_loads sample_dumps 0 sample_world eq_refl)
    as (k0 & Hk & H).
  exists k0. split; [exact Hk|]. intros s.
  destruct (H s) as (_ & _ & Hbytes & _). apply Hbytes. reflexivity.
Defined.

Lemma client_frames_passed_over_witness :
  exists k0,
    receive_from_client deep_loads sample_dumps 1 sample_world
    = Await sample_world websocket_receive k0
    /\ forall s,
         k0 (Raise (TimeoutError [])) s = receive_from_client deep_loads sample_dumps 0 s
         /\ k0 (Ok (text_frame (lit "ping"))) s
            = receive_from_client deep_loads sample_dumps 0 s
         /\ k0 (Ok (text_frame deep_text)) s
            = Done (set_should_stop true (set_client_connected false s)) (Ok Break).
Proof.
  destruct (client_frames_passed_over deep_loads sample_dumps 0 sample_world eq_refl)
    as (k0 & Hk & H).
  exists k0. split; [exact Hk|]. intros s.
  destruct (H s) as (Htimeout & _ & Htext).
  split; [apply Htimeout|]. split.
  - exact (Htext (lit "websocket.receive") (lit "ping") eq_refl).
  - exact (Htext (lit "websocket.receive") deep_text eq_refl).
Defined.

(* ================================================================= *)
(** ** The session and the health endpoint *)

(** The message the session writes when it fails with [e]. *)
Lemma session_error_text : forall e,
  match e with
  | InvalidStatusCode c => lit "ElevenLabs HTTP " ++ str_of_int c
  | _ => str_exn e
  end = session_error e.
Proof. intros []; reflexivity. Qed.

(** X12. When the connection to the provider cannot be opened, the
    session tells the client why and ends: it writes one [error] message,
    whose text is [ElevenLabs HTTP <status>] when the provider rejected the
    handshake with a status and the text of the exception otherwise; it
    writes it whether or not the client is marked as connected, and ignores
    the failure of that write; it sets the stop flag, attempts no close of
    the provider connection, starts neither loop, and returns. *)
Theorem handshake_failure_reported :
  forall (env : answers) key s e,
    elevenlabs_ws s = false ->
    env 0 _ (websockets_connect elevenlabs_url (PDict [kv "xi-api-key" (PStr key)]))
    = Raise e ->
    run env (session_run key s)
    = ([Call (websockets_connect elevenlabs_url (PDict [kv "xi-api-key" (PStr key)]));
        Call (websocket_send_json
                (PDict [kv "type" (str "error");
                        kv "message" (PStr (session_error e))]))],
       (set_should_stop true s, Ok tt)).
Proof.
  intros env key s e Hws Hconnect.
  unfold run, session_run, try_finally, try_except, bind, await, gets, modify, ret.
  cbn [bind_act except_act finally_act run_from kind_of count_kind app].
  rewrite Hconnect. cbn [bind_act except_act finally_act].
  rewrite <- session_error_text.
  destruct e; cbn [bind_act except_act finally_act run_from kind_of count_kind app];
    match goal with
    | |- context [env ?n unit (websocket_send_json ?m)] =>
        destruct (env n unit (websocket_send_json m)) as [[] | e']
    end;
    cbn [bind_act except_act finally_act elevenlabs_ws set_should_stop];
    rewrite Hws; reflexivity.
Qed.

Lemma handshake_failure_reported_witness :
  let s := set_elevenlabs_ws false sample_world in
  run (handshake_rejected 401) (session_run (lit "sk_eleven") s)
  = ([Call (websockets_connect elevenlabs_url (PDict [kv "xi-api-key" (str "sk_eleven")]));
      Call (websocket_send_json
              (PDict [kv "type" (str "error");
                      kv "message" (str "ElevenLabs HTTP 401")]))],
     (set_should_stop true s, Ok tt)).
Proof.
  intros s.
  exact (handshake_failure_reported (handshake_rejected 401) (lit "sk_eleven") s (InvalidStatusCode 401)
           eq_refl eq_refl).
Defined.



(** The session connects to the provider once if the key of the provider
    is configured, and not at all if it is not. *)
Lemma websocket_transcribe_connects :
  forall (env : answers) s,
    env 0 _ websocket_accept = Ok tt ->
    count_kind Kconnect (fst (run env (websocket_transcribe s)))
    = if truthy_opt (ELEVENLABS_API_KEY s) then 1 else 0.
Proof.
  intros env s Haccept.
  unfold run, websocket_transcribe, session_start, session_run, safe_send,
    try_finally, try_except, bind, await, gets, modify, ret.
  cbn [bind_act run_from kind_of count_kind]. rewrite Haccept.
  cbn [bind_act]. destruct (truthy_opt (ELEVENLABS_API_KEY s)) eqn:Hkey.
  all: repeat first
         [ progress cbn [negb bind_act except_act finally_act run_from kind_of count_kind
                         kind_eqb app Nat.add fst elevenlabs_ws client_connected
                         set_should_stop set_elevenlabs_ws set_client_connected
                         set_current_mode set_accumulated_transcript]
         | split_test ].
  all: reflexivity.
Qed.

(** X14. The health endpoint tells what the two other entry points will
    do. It returns the three fields [status], [elevenlabs_configured] and
    [gemini_configured], with the status [ok]; [elevenlabs_configured] is
    true exactly when a session, once accepted, connects to the provider
    rather than refuse for want of a key; [gemini_configured] is true
    exactly when [process_transcript] calls the service rather than return
    its fallback at once. An empty key counts as no key for all three. *)
Theorem health_check_agrees :
  forall json_loads format_value raw mode context turns (env : answers) s,
    env 0 _ websocket_accept = Ok tt ->
    exists d,
      health_check s = Done s (Ok (PDict d))
      /\ map fst d = [lit "status"; lit "elevenlabs_configured"; lit "gemini_configured"]
      /\ dict_get d (lit "status") = Some (str "ok")
      /\ dict_get d (lit "elevenlabs_configured")
         = Some (PBool (Nat.eqb (count_kind Kconnect (fst (run env (websocket_transcribe s)))) 1))
      /\ dict_get d (lit "gemini_configured")
         = Some (PBool (match process_transcript json_loads format_value raw mode context turns s
                        with
                        | Await _ _ _ => true
                        | Done _ _ => false
                        end)).
Proof.
  intros json_loads format_value raw mode context turns env s Haccept.
  eexists. split; [reflexivity|]. split; [reflexivity|]. split; [reflexivity|]. split.
  - rewrite (websocket_transcribe_connects env s Haccept).
    destruct (truthy_opt (ELEVENLABS_API_KEY s)); reflexivity.
  - destruct (truthy_opt (gemini_api s)) eqn:Hkey.
    + destruct (gemini_api s) as [key|] eqn:Hs; [|discriminate].
      destruct (process_transcript_post json_loads format_value raw mode context turns s key
                  Hs Hkey) as (k & -> & _).
      reflexivity.
    + destruct (process_transcript_no_key json_loads format_value raw mode context turns s Hkey)
        as (v & -> & _).
      reflexivity.
Qed.

Lemma health_check_agrees_witness :
  exists d,
    health_check no_key_world = Done no_key_world (Ok (PDict d))
    /\ map fst d = [lit "status"; lit "elevenlabs_configured"; lit "gemini_configured"]
    /\ dict_get d (lit "status") = Some (str "ok")
    /\ dict_get d (lit "elevenlabs_configured") = Some (PBool false)
    /\ dict_get d (lit "gemini_configured") = Some (PBool true).
Proof.
  exact (health_check_agrees sample_loads sample_format (lit "book a flight") BALANCED
           None None (all_succeed no_response no_message) no_key_world eq_refl).
Defined.

(* ================================================================= *)
(** ** The loops and the tasks under the event loop *)

Section Keeps.

Variable step : world -> world -> Prop.
Variable allowed : forall R, io R -> bool.

Hypothesis step_refl : forall s, step s s.
Hypothesis step_trans : forall s1 s2 s3, step s1 s2 -> step s2 s3 -> step s1 s3.

(** What a coroutine that keeps [step] leaves once it has run to its next
    await or to its end. *)
Lemma keeps_settles : forall A (a : act A) w,
  keeps step allowed w a ->
  step w (state_of a)
  /\ Forall (allowed_call allowed) (calls_of a)
  /\ Forall (keeps_suspended step allowed) (suspended_of a).
Proof.
  intros A [s r | R s e k] w H; cbn in *.
  - split; [exact H|]. split; constructor.
  - destruct H as [[Hstep Hcall] Hk]. split; [exact Hstep|]. split.
    + constructor; [exact Hcall | constructor].
    + constructor; [|constructor]. intros r s'. apply Hk, I.
Qed.

Variable started : forall A, M A -> Prop.
Hypothesis started_keeps :
  forall A (m : M A), started A m -> forall s, keeps step allowed s (m s).

(** A run of the event loop keeps [step] from its first state to its last
    and makes only calls of [allowed], if the coroutines it begins with do. *)
Lemma event_loop_keeps : forall c1 calls c2,
  event_loop started c1 calls c2 ->
  Forall (keeps_suspended step allowed) (snd c1) ->
  step (fst c1) (fst c2)
  /\ Forall (allowed_call allowed) calls
  /\ Forall (keeps_suspended step allowed) (snd c2).
Proof.
  induction 1 as [c | w before after A R e k r calls c Hrun IH
                    | w pool A m calls c Hm Hrun IH]; intros Hpool; cbn in *.
  - split; [apply step_refl|]. split; [constructor | exact Hpool].
  - apply Forall_app in Hpool as [Hbefore Hafter].
    apply Forall_cons_iff in Hafter as [Hk Hafter].
    destruct (keeps_settles _ (k r w) w (Hk r w)) as (Hstep & Hcalls & Hnew).
    destruct IH as (Hrest & Hcalls' & Hend).
    { cbn. apply Forall_app. split; [exact Hbefore|]. apply Forall_app. now split. }
    split; [eapply step_trans; eassumption|].
    split; [apply Forall_app; now split | exact Hend].
  - destruct (keeps_settles _ (m w) w (started_keeps _ m Hm w)) as (Hstep & Hcalls & Hnew).
    destruct IH as (Hrest & Hcalls' & Hend).
    { cbn. apply Forall_app. now split. }
    split; [eapply step_trans; eassumption|].
    split; [apply Forall_app; now split | exact Hend].
Qed.

End Keeps.

Lemma session_step_refl : forall s, session_step s s.
Proof.
  intros s. unfold session_step. repeat split; auto.
  exists []. split; [now rewrite app_nil_r | constructor].
Qed.

Lemma session_step_trans : forall s1 s2 s3,
  session_step s1 s2 -> session_step s2 s3 -> session_step s1 s3.
Proof.
  unfold session_step.
  intros s1 s2 s3 (Hk & Hg & Hw & Hstop & Hgone & [new [Hnew Htrim]])
         (Hk' & Hg' & Hw' & Hstop' & Hgone' & [new' [Hnew' Htrim']]).
  repeat split; try congruence; auto.
  exists (new ++ new'). split.
  - rewrite Hnew', Hnew. now rewrite app_assoc.
  - apply Forall_app. now split.
Qed.

Lemma session_step_gone : forall s, session_step s (set_client_connected false s).
Proof.
  intros s. unfold session_step. cbn. repeat split; auto.
  exists []. split; [now rewrite app_nil_r | constructor].
Qed.

Lemma provider_step_session : forall s0 s, provider_step s0 s -> session_step s0 s.
Proof.
  unfold provider_step, session_step.
  intros s0 s (Hk & Hg & Hw & Hstop & Hmode & Hgone & _ & Hnew).
  repeat split; auto. congruence.
Qed.

Lemma client_step_session : forall s0 s, client_step s0 s -> session_step s0 s.
Proof.
  unfold client_step, session_step.
  intros s0 s (Hk & Hg & Hw & Ht & Hstop & Hgone & _).
  repeat split; auto. exists []. split; [now rewrite app_nil_r | constructor].
Qed.

Ltac session_leaf :=
  lazymatch goal with
  | |- session_step ?a (set_client_connected false ?b) =>
      apply session_step_trans with b; [session_leaf | apply session_step_gone]
  | |- session_step _ _ => first [assumption | apply session_step_refl]
  end.

Section SessionKeeps.

Variable json_loads : pystr -> result pyval.
Variable json_dumps : pyval -> pystr.
Variable format_value : pyval -> pystr.

Lemma process_with_gemini_keeps : forall transcript s,
  keeps session_step session_call s (process_with_gemini json_loads format_value transcript s).
Proof.
  intros transcript s. unfold keeps, process_with_gemini.
  exec_sat; try reflexivity; try session_leaf.
  all: apply sat_bind; apply process_transcript_sat;
    [ intros; split; [session_leaf | reflexivity]
    | intros v _; exec_sat; try reflexivity; session_leaf
    | intros ? v _ _; exec_sat; try reflexivity; session_leaf ].
Qed.

Lemma session_coroutine_keeps :
  forall A (m : M A),
    @session_coroutine json_loads json_dumps format_value A m ->
    forall s, keeps session_step session_call s (m s).
Proof.
  intros A m [n | n | transcript] s.
  - eapply sat_mono; [| | |apply (receive_from_elevenlabs_loop_steps json_loads)].
    + auto.
    + intros R s0 s' e [Hstep Hcall]. split; [apply provider_step_session, Hstep|].
      unfold provider_call in Hcall. unfold session_call.
      destruct (kind_of e); try discriminate; reflexivity.
    + intros s0 s' r [Hstep _]. apply provider_step_session, Hstep.
  - eapply sat_mono; [| | |apply (receive_from_client_loop_steps json_loads json_dumps)].
    + auto.
    + intros R s0 s' e [Hstep Hcall]. split; [apply client_step_session, Hstep|].
      unfold client_call in Hcall. unfold session_call.
      destruct (kind_of e); try discriminate; reflexivity.
    + intros s0 s' r Hstep. apply client_step_session, Hstep.
  - apply process_with_gemini_keeps.
Qed.

(** X15. However the event loop interleaves the two loops and the tasks
    of a session, from any of its states to any later one: the keys and the
    provider connection are as they were; the stop flag, once set, is still
    set; the client, once marked as gone, is still so; the tasks dispatched
    so far are still there, in order, and every task dispatched since has a
    transcript that is trimmed and not empty. Every call made on the way
    reads or writes one of the two connections or is a request to the
    service: none accepts, opens or closes a connection. *)
Theorem session_interleaving_keeps :
  forall w0 calls1 w1 pool1 calls2 w2 pool2,
    event_loop (@session_coroutine json_loads json_dumps format_value)
               (w0, []) calls1 (w1, pool1) ->
    event_loop (@session_coroutine json_loads json_dumps format_value)
               (w1, pool1) calls2 (w2, pool2) ->
    session_step w1 w2
    /\ Forall (allowed_call session_call) (calls1 ++ calls2).
Proof.
  intros w0 calls1 w1 pool1 calls2 w2 pool2 Hbefore Hafter.
  destruct (event_loop_keeps session_step session_call session_step_refl session_step_trans
              _ session_coroutine_keeps _ _ _ Hbefore) as (_ & Hcalls1 & Hpool1).
  { constructor. }
  destruct (event_loop_keeps session_step session_call session_step_refl session_step_trans
              _ session_coroutine_keeps _ _ _ Hafter Hpool1) as (Hstep & Hcalls2 & _).
  split; [exact Hstep|]. apply Forall_app. now split.
Qed.

End SessionKeeps.

(** The loop of the provider is started, awaits a message, is resumed at
    the end of the stream, and ends. *)
Lemma session_interleaving_keeps_witness :
  session_step sample_world sample_world
  /\ Forall (allowed_call session_call) ([] ++ [Call elevenlabs_ws_next]).
Proof.
  refine (session_interleaving_keeps sample_loads sample_dumps sample_format
            sample_world [] sample_world [] [Call elevenlabs_ws_next] sample_world [] _ _).
  - apply loop_idle.
  - refine (@loop_start _ sample_world [] _ (receive_from_elevenlabs sample_loads 1) []
              (sample_world, []) (started_receive_from_elevenlabs _ _ _ 1) _).
    cbn [state_of suspended_of receive_from_elevenlabs try_except iterations bind
         receive_from_elevenlabs_iteration await bind_act except_act app].
    match goal with
    | |- event_loop _ (_, [Suspended ?e ?k]) _ _ =>
        refine (@loop_resume _ sample_world [] [] _ _ e k (Ok None) [] (sample_world, []) _)
    end.
    apply loop_idle.
Defined.

(* ================================================================= *)
(** ** The request: the prompt and the schema *)

Lemma last3_length : forall A (l : list A),
  List.length (last3 l) = Nat.min (List.length l) 3.
Proof.
  intros A l. unfold last3. rewrite length_skipn. lia.
Qed.

Lemma last3_last3 : forall A (l : list A), last3 (last3 l) = last3 l.
Proof.
  intros A l. unfold last3 at 1. rewrite last3_length.
  replace (Nat.min (List.length l) 3 - 3) with 0 by lia. reflexivity.
Qed.

(** X16. The user prompt of a request always ends with the instruction
    line and the transcript itself, whatever context and earlier turns come
    before them. Only the last three of the earlier turns count: the prompt,
    and the whole request, are the same with the full list of turns as with
    its last three. An empty context and an empty list of turns count as
    none. *)
Theorem user_prompt_last_turns :
  forall format_value raw mode context turns,
    (forall previous,
       exists before,
         user_prompt format_value raw context previous
         = before ++ lit "Process this transcript and return JSON:" ++ nl ++ nl ++ raw)
    /\ user_prompt format_value raw context (Some turns)
       = user_prompt format_value raw context (Some (last3 turns))
    /\ payload format_value raw mode context (Some turns)
       = payload format_value raw mode context (Some (last3 turns))
    /\ user_prompt format_value raw (Some []) (Some [])
       = user_prompt format_value raw None None.
Proof.
  intros format_value raw mode context turns.
  assert (Hturns : user_prompt format_value raw context (Some turns)
                   = user_prompt format_value raw context (Some (last3 turns))).
  { destruct turns as [|t turns]; [reflexivity|].
    destruct (last3 (t :: turns)) as [|t' turns'] eqn:Hlast.
    - pose proof (last3_length _ (t :: turns)) as Hlen.
      rewrite Hlast in Hlen. cbn [List.length] in Hlen. lia.
    - unfold user_prompt. rewrite <- Hlast, last3_last3. reflexivity. }
  split; [|split; [exact Hturns | split; [|reflexivity]]].
  - intros previous. unfold user_prompt.
    destruct previous as [[|t previous]|]; destruct context as [[|c context]|].
    all: try (exists []; reflexivity).
    all: eexists; rewrite ?app_assoc; reflexivity.
  - unfold payload. now rewrite Hturns.
Qed.

Lemma validate_dict : forall depth sch d,
  validate (S depth) (PDict sch) (PDict d)
  = type_ok (dict_get sch (lit "type")) (PDict d)
    && enum_ok (dict_get sch (lit "enum")) (PDict d)
    && (required_ok (dict_get sch (lit "required")) d
        && match dict_get sch (lit "properties") with
           | Some (PDict properties) =>
               forallb (fun p => match dict_get d (fst p) with
                                 | Some x => validate depth (snd p) x
                                 | None => true
                                 end) properties
           | Some _ => false
           | None => true
           end).
Proof. reflexivity. Qed.

(** A dict that conforms to a schema has each key the schema requires. *)
Lemma validate_required : forall depth sch d keys k,
  validate (S depth) (PDict sch) (PDict d) = true ->
  dict_get sch (lit "required") = Some (PList keys) ->
  In (PStr k) keys ->
  dict_has d k = true.
Proof.
  intros depth sch d keys k H Hreq Hin. rewrite validate_dict, Hreq in H.
  apply andb_true_iff in H as [_ H]. apply andb_true_iff in H as [H _].
  unfold required_ok in H. rewrite forallb_forall in H. exact (H _ Hin).
Qed.

(** Each of its values conforms to the schema of its property. *)
Lemma validate_property : forall depth sch d properties k schema x,
  validate (S depth) (PDict sch) (PDict d) = true ->
  dict_get sch (lit "properties") = Some (PDict properties) ->
  In (k, schema) properties ->
  dict_get d k = Some x ->
  validate depth schema x = true.
Proof.
  intros depth sch d properties k schema x H Hprops Hin Hx.
  rewrite validate_dict, Hprops in H.
  apply andb_true_iff in H as [_ H]. apply andb_true_iff in H as [_ H].
  rewrite forallb_forall in H. specialize (H _ Hin). cbn [fst snd] in H.
  now rewrite Hx in H.
Qed.

Lemma dict_has_set : forall d k v k',
  dict_has d k' = true -> dict_has (dict_set d k v) k' = true.
Proof.
  intros d k v k' H. unfold dict_has in *.
  destruct (str_eqb k k') eqn:E.
  - apply str_eqb_eq in E. subst k'. now rewrite dict_get_set.
  - now rewrite dict_get_set_other.
Qed.

(** A dict that conforms to a schema still does once one of its keys is
    set to a value that conforms to the schema of that property. *)
Lemma validate_set : forall depth sch d properties k v,
  validate (S depth) (PDict sch) (PDict d) = true ->
  dict_get sch (lit "properties") = Some (PDict properties) ->
  forallb (fun p => if str_eqb k (fst p) then validate depth (snd p) v else true)
          properties = true ->
  validate (S depth) (PDict sch) (PDict (dict_set d k v)) = true.
Proof.
  intros depth sch d properties k v H Hprops Hv.
  rewrite validate_dict in *. rewrite Hprops in *.
  apply andb_true_iff in H as [Hhead H]. apply andb_true_iff in H as [Hreq Hall].
  apply andb_true_iff. split.
  { apply andb_true_iff in Hhead as [Htype Henum]. apply andb_true_iff. split.
    - destruct (dict_get sch (lit "type")) as [t|]; [|reflexivity]. exact Htype.
    - destruct (dict_get sch (lit "enum")) as [[]|]; try discriminate; reflexivity. }
  apply andb_true_iff. split.
  - unfold required_ok in *.
    destruct (dict_get sch (lit "required")) as [[| | | | |keys|]|]; try discriminate;
      [|reflexivity].
    rewrite forallb_forall in *. intros [| | | |k'| |] Hin; specialize (Hreq _ Hin);
      try discriminate.
    now apply dict_has_set.
  - rewrite forallb_forall in *. intros p Hin.
    specialize (Hall p Hin). specialize (Hv p Hin).
    destruct (str_eqb k (fst p)) eqn:E.
    + apply str_eqb_eq in E. rewrite <- E, dict_get_set. exact Hv.
    + now rewrite dict_get_set_other.
Qed.

Section SchemaOutput.

Variable json_loads : pystr -> result pyval.
Variable format_value : pyval -> pystr.

(** X17. A structured output that follows the schema sent with the
    request is always accepted: when the service answers with status 200
    and such an output, [process_transcript] returns it, with the transcript
    put in place of the echo of the service, rather than its fallback; and
    what it returns follows the schema too. *)
Theorem schema_output_accepted :
  forall raw mode context turns s key response result text output,
    gemini_api s = Some key ->
    truthy_opt (Some key) = true ->
    status_code response = 200%Z ->
    Response_json json_loads response = Ok result ->
    output_text result = Some (PStr text) ->
    json_loads text = Ok (PDict output) ->
    conforms (PDict output) = true ->
    exists k,
      process_transcript json_loads format_value raw mode context turns s
      = Await s (client_post (GEMINI_API_URL ++ lit "?key=" ++ key)
                             (payload format_value raw mode context turns)) k
      /\ (forall s',
            k (Ok response) s'
            = Done s' (Ok (PDict (dict_set output (lit "raw_transcript") (PStr raw)))))
      /\ conforms (PDict (dict_set output (lit "raw_transcript") (PStr raw))) = true.
Proof.
  intros raw mode context turns s key response result text output
         Hs Hkey Hstatus Hjson Htext Hloads Hconforms.
  unfold conforms, get_json_schema in Hconforms.
  assert (Hcleaned : exists cleaned,
             dict_get output (lit "cleaned_english_meaning") = Some (PStr cleaned)).
  { assert (Hhas : dict_has output (lit "cleaned_english_meaning") = true).
    { eapply validate_required; [exact Hconforms | reflexivity |].
      cbn [In]. right; right; left; reflexivity. }
    unfold dict_has in Hhas.
    destruct (dict_get output (lit "cleaned_english_meaning")) as [x|] eqn:Hx;
      [|discriminate Hhas].
    assert (Hval : validate 3 (PDict [kv "type" (str "string");
                                      kv "description"
                                         (str "Cleaned English preserving exact meaning with minimal edits")])
                            x = true).
    { eapply validate_property; [exact Hconforms | reflexivity | | exact Hx].
      cbn [In]. right; right; left; reflexivity. }
    destruct x; try (vm_compute in Hval; discriminate Hval).
    eauto. }
  destruct Hcleaned as [cleaned Hcleaned].
  destruct (process_transcript_post json_loads format_value raw mode context turns s key
              Hs Hkey) as (k & Hk & Hforward & _).
  exists k. split; [exact Hk|]. split.
  { intros s'. apply Hforward. exists response, result, text, output.
    repeat split; try assumption.
    unfold dict_get_default. now rewrite Hcleaned. }
  unfold conforms, get_json_schema.
  eapply validate_set; [exact Hconforms | reflexivity | reflexivity].
Qed.

End SchemaOutput.

Lemma schema_output_accepted_witness :
  let raw := lit "um book a flight" in
  exists k,
    process_transcript result_loads sample_format raw BALANCED None None sample_world
    = Await sample_world
            (client_post (GEMINI_API_URL ++ lit "?key=" ++ lit "AIza")
                         (payload sample_format raw BALANCED None None)) k
    /\ (forall s',
          k (Ok (mk_Response 200 result_body)) s'
          = Done s' (Ok (PDict (dict_set result_object (lit "raw_transcript") (PStr raw)))))
    /\ conforms (PDict (dict_set result_object (lit "raw_transcript") (PStr raw))) = true.
Proof.
  intros raw.
  exact (schema_output_accepted
           result_loads sample_format raw BALANCED None None sample_world (lit "AIza")
           (mk_Response 200 result_body)
           (PDict [kv "candidates" (PList
              [PDict [kv "content" (PDict
                 [kv "parts" (PList [PDict [kv "text" (str "<result>")]])])]])])
           (lit "<result>") result_object
           eq_refl eq_refl eq_refl eq_refl eq_refl eq_refl eq_refl).
Defined.

(* ================================================================= *)
(** ** The audio sent to the provider *)

Lemma all_bytes_complete : forall b, In b all_bytes.
Proof.
  intros b.
  assert (H : existsb (Byte.eqb b) all_bytes = true) by (destruct b; vm_compute; reflexivity).
  apply existsb_exists in H as (x & Hin & Heq).
  apply Byte.byte_dec_bl in Heq. now subst.
Qed.

Lemma forall_bytes : forall f : Byte.byte -> bool,
  forallb f all_bytes = true -> forall a, f a = true.
Proof.
  intros f H a. rewrite forallb_forall in H. apply H, all_bytes_complete.
Qed.

Lemma forall_bytes2 : forall f : Byte.byte -> Byte.byte -> bool,
  forallb (fun a => forallb (f a) all_bytes) all_bytes = true ->
  forall a b, f a b = true.
Proof.
  intros f H a b.
  apply (forall_bytes (f a)). apply (forall_bytes (fun a => forallb (f a) all_bytes) H).
Qed.

Lemma bytes_eqb_eq : forall x y, bytes_eqb x y = true -> x = y.
Proof.
  induction x as [|a x IH]; intros [|b y] H; cbn in H; try discriminate; [reflexivity|].
  apply andb_true_iff in H as [Hab H]. apply Byte.byte_dec_bl in Hab.
  f_equal; [exact Hab | apply IH, H].
Qed.

Lemma b64_char_not_pad : forall v, (b64_char v =? b64_pad)%N = false.
Proof.
  intros v. unfold b64_char, b64_pad. apply N.eqb_neq.
  destruct (N.ltb_spec v 26); [lia|].
  destruct (N.ltb_spec v 52); [lia|].
  destruct (N.ltb_spec v 62); [lia|].
  destruct (N.eqb_spec v 62); lia.
Qed.

Lemma roundtrip_one : forall a, b64decode (b64encode [a]) = [a].
Proof.
  intros a. apply bytes_eqb_eq.
  apply (forall_bytes (fun a => bytes_eqb (b64decode (b64encode [a])) [a])).
  vm_compute. reflexivity.
Qed.

Lemma roundtrip_two : forall a b, b64decode (b64encode [a; b]) = [a; b].
Proof.
  intros a b. apply bytes_eqb_eq.
  apply (forall_bytes2 (fun a b => bytes_eqb (b64decode (b64encode [a; b])) [a; b])).
  vm_compute. reflexivity.
Qed.

Lemma forall_bytes_N : forall f g : Byte.byte -> N,
  forallb (fun a => N.eqb (f a) (g a)) all_bytes = true -> forall a, f a = g a.
Proof.
  intros f g H a. apply N.eqb_eq. exact (forall_bytes _ H a).
Qed.

Lemma forall_bytes2_N : forall f g : Byte.byte -> Byte.byte -> N,
  forallb (fun a => forallb (fun b => N.eqb (f a b) (g a b)) all_bytes) all_bytes = true ->
  forall a b, f a b = g a b.
Proof.
  intros f g H a b. apply N.eqb_eq.
  exact (forall_bytes2 (fun a b => N.eqb (f a b) (g a b)) H a b).
Qed.

Lemma forall_bytes2_byte : forall f g : Byte.byte -> Byte.byte -> Byte.byte,
  forallb (fun a => forallb (fun b => Byte.eqb (f a b) (g a b)) all_bytes) all_bytes = true ->
  forall a b, f a b = g a b.
Proof.
  intros f g H a b. apply Byte.byte_dec_bl.
  exact (forall_bytes2 (fun a b => Byte.eqb (f a b) (g a b)) H a b).
Qed.

Lemma forall_bytes_byte : forall f g : Byte.byte -> Byte.byte,
  forallb (fun a => Byte.eqb (f a) (g a)) all_bytes = true -> forall a, f a = g a.
Proof.
  intros f g H a. apply Byte.byte_dec_bl. exact (forall_bytes _ H a).
Qed.

Ltac by_all_bytes := vm_compute; reflexivity.

(** The four 6-bit values of a group of three bytes. *)
Lemma group_value_1 : forall a b c,
  N.shiftr (N.lor (N.lor (N.shiftl (Byte.to_N a) 16) (N.shiftl (Byte.to_N b) 8))
                  (Byte.to_N c)) 18
  = N.shiftr (Byte.to_N a) 2.
Proof.
  intros a b c. rewrite !N.shiftr_lor.
  rewrite (forall_bytes_N (fun a => N.shiftr (N.shiftl (Byte.to_N a) 16) 18)
                          (fun a => N.shiftr (Byte.to_N a) 2)) by by_all_bytes.
  rewrite (forall_bytes_N (fun b => N.shiftr (N.shiftl (Byte.to_N b) 8) 18)
                          (fun _ => 0%N)) by by_all_bytes.
  rewrite (forall_bytes_N (fun c => N.shiftr (Byte.to_N c) 18) (fun _ => 0%N)) by by_all_bytes.
  now rewrite !N.lor_0_r.
Qed.

Lemma group_value_2 : forall a b c,
  N.land (N.shiftr (N.lor (N.lor (N.shiftl (Byte.to_N a) 16) (N.shiftl (Byte.to_N b) 8))
                          (Byte.to_N c)) 12) 63
  = N.lor (N.shiftl (N.land (Byte.to_N a) 3) 4) (N.shiftr (Byte.to_N b) 4).
Proof.
  intros a b c. rewrite !N.shiftr_lor, !N.land_lor_distr_l.
  rewrite (forall_bytes_N (fun a => N.land (N.shiftr (N.shiftl (Byte.to_N a) 16) 12) 63)
                          (fun a => N.shiftl (N.land (Byte.to_N a) 3) 4)) by by_all_bytes.
  rewrite (forall_bytes_N (fun b => N.land (N.shiftr (N.shiftl (Byte.to_N b) 8) 12) 63)
                          (fun b => N.shiftr (Byte.to_N b) 4)) by by_all_bytes.
  rewrite (forall_bytes_N (fun c => N.land (N.shiftr (Byte.to_N c) 12) 63)
                          (fun _ => 0%N)) by by_all_bytes.
  now rewrite N.lor_0_r.
Qed.

Lemma group_value_3 : forall a b c,
  N.land (N.shiftr (N.lor (N.lor (N.shiftl (Byte.to_N a) 16) (N.shiftl (Byte.to_N b) 8))
                          (Byte.to_N c)) 6) 63
  = N.lor (N.shiftl (N.land (Byte.to_N b) 15) 2) (N.shiftr (Byte.to_N c) 6).
Proof.
  intros a b c. rewrite !N.shiftr_lor, !N.land_lor_distr_l.
  rewrite (forall_bytes_N (fun a => N.land (N.shiftr (N.shiftl (Byte.to_N a) 16) 6) 63)
                          (fun _ => 0%N)) by by_all_bytes.
  rewrite (forall_bytes_N (fun b => N.land (N.shiftr (N.shiftl (Byte.to_N b) 8) 6) 63)
                          (fun b => N.shiftl (N.land (Byte.to_N b) 15) 2)) by by_all_bytes.
  rewrite (forall_bytes_N (fun c => N.land (N.shiftr (Byte.to_N c) 6) 63)
                          (fun c => N.shiftr (Byte.to_N c) 6)) by by_all_bytes.
  now rewrite N.lor_0_l.
Qed.

Lemma group_value_4 : forall a b c,
  N.land (N.lor (N.lor (N.shiftl (Byte.to_N a) 16) (N.shiftl (Byte.to_N b) 8))
                (Byte.to_N c)) 63
  = N.land (Byte.to_N c) 63.
Proof.
  intros a b c. rewrite !N.land_lor_distr_l.
  rewrite (forall_bytes_N (fun a => N.land (N.shiftl (Byte.to_N a) 16) 63)
                          (fun _ => 0%N)) by by_all_bytes.
  rewrite (forall_bytes_N (fun b => N.land (N.shiftl (Byte.to_N b) 8) 63)
                          (fun _ => 0%N)) by by_all_bytes.
  now rewrite !N.lor_0_l.
Qed.

Lemma roundtrip_three : forall a b c rest,
  b64decode (b64encode (a :: b :: c :: rest)) = a :: b :: c :: b64decode (b64encode rest).
Proof.
  intros a b c rest. cbn [b64encode app b64decode].
  rewrite !b64_char_not_pad.
  rewrite group_value_1, group_value_2, group_value_3, group_value_4.
  f_equal; [|f_equal; [|f_equal]].
  - refine (forall_bytes2_byte
             (fun a b =>
                byte_of
                  (N.lor (N.shiftl (b64_value (b64_char (N.shiftr (Byte.to_N a) 2))) 2)
                     (N.shiftr
                        (b64_value
                           (b64_char
                              (N.lor (N.shiftl (N.land (Byte.to_N a) 3) 4)
                                 (N.shiftr (Byte.to_N b) 4)))) 4)))
             (fun a _ => a) _ a b).
    by_all_bytes.
  - rewrite (forall_bytes2_N
               (fun a b =>
                  N.land
                    (b64_value
                       (b64_char
                          (N.lor (N.shiftl (N.land (Byte.to_N a) 3) 4)
                             (N.shiftr (Byte.to_N b) 4)))) 15)
               (fun _ b => N.shiftr (Byte.to_N b) 4)) by by_all_bytes.
    rewrite (forall_bytes2_N
               (fun b c =>
                  N.shiftr
                    (b64_value
                       (b64_char
                          (N.lor (N.shiftl (N.land (Byte.to_N b) 15) 2)
                             (N.shiftr (Byte.to_N c) 6)))) 2)
               (fun b _ => N.land (Byte.to_N b) 15)) by by_all_bytes.
    refine (forall_bytes_byte
              (fun b =>
                 byte_of (N.lor (N.shiftl (N.shiftr (Byte.to_N b) 4) 4)
                                (N.land (Byte.to_N b) 15)))
              (fun b => b) _ b).
    by_all_bytes.
  - rewrite (forall_bytes2_N
               (fun b c =>
                  N.land
                    (b64_value
                       (b64_char
                          (N.lor (N.shiftl (N.land (Byte.to_N b) 15) 2)
                             (N.shiftr (Byte.to_N c) 6)))) 3)
               (fun _ c => N.land (N.shiftr (Byte.to_N c) 6) 3)) by by_all_bytes.
    refine (forall_bytes_byte
              (fun c =>
                 byte_of (N.lor (N.shiftl (N.land (N.shiftr (Byte.to_N c) 6) 3) 6)
                                (b64_value (b64_char (N.land (Byte.to_N c) 63)))))
              (fun c => c) _ c).
    by_all_bytes.
Qed.

Lemma b64encode_length_three : forall a b c rest,
  List.length (b64encode (a :: b :: c :: rest)) = 4 + List.length (b64encode rest).
Proof. reflexivity. Qed.

(** Induction on a list of bytes, three at a time. *)
Lemma bytes_ind3 : forall P : bytes -> Prop,
  P [] -> (forall a, P [a]) -> (forall a b, P [a; b]) ->
  (forall a b c rest, P rest -> P (a :: b :: c :: rest)) ->
  forall data, P data.
Proof.
  intros P H0 H1 H2 H3.
  assert (H : forall n data, List.length data <= n -> P data).
  { induction n as [|n IH]; intros data Hlen.
    - destruct data; [exact H0 | cbn in Hlen; lia].
    - destruct data as [|a [|b [|c rest]]]; auto.
      apply H3, IH. cbn in Hlen. lia. }
  intros data. exact (H _ data (le_n _)).
Qed.

(** X18. The audio of a binary frame reaches the provider whole: the text
    put in the chunk message is four characters for every three bytes of
    audio, the last group padded, and the audio can be read back from it
    byte for byte; two frames with different audio give different texts. *)
Theorem audio_chunk_lossless :
  forall data,
    b64decode (b64encode data) = data
    /\ List.length (b64encode data) = 4 * ((List.length data + 2) / 3)
    /\ py_b64encode (Some data) = Ok (b64encode data)
    /\ forall data', b64encode data = b64encode data' -> data = data'.
Proof.
  assert (Hback : forall data, b64decode (b64encode data) = data).
  { induction data as [|a|a b|a b c rest IH] using bytes_ind3.
    - reflexivity.
    - apply roundtrip_one.
    - apply roundtrip_two.
    - rewrite roundtrip_three. now rewrite IH. }
  intros data. split; [apply Hback|]. split; [|split; [reflexivity|]].
  - induction data as [|a|a b|a b c rest IH] using bytes_ind3; try reflexivity.
    rewrite b64encode_length_three, IH. cbn [List.length].
    replace (S (S (S (List.length rest))) + 2) with (List.length rest + 2 + 1 * 3) by lia.
    rewrite Nat.div_add by lia. lia.
  - intros data' H. rewrite <- (Hback data), <- (Hback data'). now rewrite H.
Qed.

Lemma audio_chunk_lossless_witness :
  b64encode [Byte.x4d; Byte.x61] = lit "TWE="
  /\ [Byte.x4d; Byte.x61] = b64decode (lit "TWE=").
Proof.
  split; [reflexivity|].
  exact (proj2 (proj2 (proj2 (audio_chunk_lossless [Byte.x4d; Byte.x61])))
           (b64decode (lit "TWE=")) eq_refl).
Defined.

(* ================================================================= *)
(** ** The accumulated transcript *)

Ltac same_leaf :=
  unfold same_session, set_accumulated_transcript, set_client_connected, set_should_stop,
    set_current_mode, set_elevenlabs_ws, create_task in *;
  cbn in *;
  repeat match goal with
         | H : mk_world _ _ _ _ _ _ _ _ = mk_world _ _ _ _ _ _ _ _ |- _ =>
             injection H as ? ? ? ? ? ? ?
         end;
  congruence.

Lemma unread_ret : forall A (a : A), unread (ret a).
Proof. intros A a s1 s2 H. now constructor. Qed.

Lemma unread_raise : forall A e, unread (@raise A e).
Proof. intros A e s1 s2 H. now constructor. Qed.

Lemma unread_lift : forall A (r : result A), unread (lift r).
Proof. intros A r s1 s2 H. now constructor. Qed.

Lemma unread_gets : forall A (f : world -> A),
  (forall s1 s2, same_session s1 s2 -> f s1 = f s2) -> unread (gets f).
Proof.
  intros A f Hf s1 s2 H. unfold gets. rewrite (Hf s1 s2 H). now constructor.
Qed.

Lemma unread_modify : forall f : world -> world,
  (forall s1 s2, same_session s1 s2 -> same_session (f s1) (f s2)) -> unread (modify f).
Proof. intros f Hf s1 s2 H. constructor. now apply Hf. Qed.

Lemma unread_await : forall R (e : io R), unread (await e).
Proof.
  intros R e s1 s2 H. unfold await. constructor; [exact H|].
  intros r s1' s2' H'. now constructor.
Qed.

Lemma similar_bind : forall A B (a1 a2 : act A) (f : A -> M B),
  similar a1 a2 -> (forall x, unread (f x)) -> similar (bind_act a1 f) (bind_act a2 f).
Proof.
  intros A B a1 a2 f H Hf.
  induction H as [s1 s2 [x | e] H | R s1 s2 e k1 k2 H Hk IH]; cbn [bind_act].
  - now apply Hf.
  - now constructor.
  - constructor; [exact H|]. intros r s1' s2' H'. now apply IH.
Qed.

Lemma unread_bind : forall A B (m : M A) (f : A -> M B),
  unread m -> (forall x, unread (f x)) -> unread (bind m f).
Proof.
  intros A B m f Hm Hf s1 s2 H. unfold bind. apply similar_bind; [now apply Hm | exact Hf].
Qed.

Lemma unread_try_except : forall A (m : M A) (h : exn -> M A),
  unread m -> (forall e, unread (h e)) -> unread (try_except m h).
Proof.
  intros A m h Hm Hh s1 s2 H. unfold try_except.
  specialize (Hm s1 s2 H).
  induction Hm as [s1' s2' [x | e] H' | R s1' s2' e k1 k2 H' Hk IH]; cbn [except_act].
  - now constructor.
  - now apply Hh.
  - constructor; [exact H'|]. intros r t1 t2 Ht. now apply IH.
Qed.

Lemma unread_try_finally : forall A (m : M A) (f : M unit),
  unread m -> unread f -> unread (try_finally m f).
Proof.
  intros A m f Hm Hf s1 s2 H. unfold try_finally.
  specialize (Hm s1 s2 H).
  induction Hm as [s1' s2' r H' | R s1' s2' e k1 k2 H' Hk IH]; cbn [finally_act].
  - apply similar_bind; [now apply Hf|]. intros [] t1 t2 Ht. now constructor.
  - constructor; [exact H'|]. intros r t1 t2 Ht. now apply IH.
Qed.

Lemma unread_iterations : forall n (body : M loop_ctl),
  unread body -> unread (iterations n body).
Proof.
  induction n as [|n IH]; intros body Hbody; cbn [iterations].
  - apply unread_ret.
  - apply unread_bind; [exact Hbody|]. intros [|]; [now apply IH | apply unread_ret].
Qed.

(** A program built from the operations above, part by part. *)
Ltac unread_step :=
  lazymatch goal with
  | |- unread (bind _ _) => apply unread_bind; [|intro]
  | |- unread (ret _) => apply unread_ret
  | |- unread (raise _) => apply unread_raise
  | |- unread (lift _) => apply unread_lift
  | |- unread (await _) => apply unread_await
  | |- unread (gets _) => apply unread_gets; intros; same_leaf
  | |- unread (modify _) => apply unread_modify; intros; same_leaf
  | |- unread (try_except _ _) => apply unread_try_except; [|intro]
  | |- unread (try_finally _ _) => apply unread_try_finally
  | |- unread (iterations _ _) => apply unread_iterations
  | |- unread (if ?b then _ else _) => destruct b
  | |- unread (match ?x with _ => _ end) => destruct x
  | |- unread (let _ := _ in _) => cbv zeta
  end.

Ltac unread_code :=
  repeat first
    [ unread_step
    | progress unfold safe_send, append_final, clear, get_gemini_api_key ].

Section Unread.

Variable json_loads : pystr -> result pyval.
Variable json_dumps : pyval -> pystr.
Variable format_value : pyval -> pystr.

Lemma process_transcript_unread : forall raw mode context turns,
  unread (process_transcript json_loads format_value raw mode context turns).
Proof.
  intros raw mode context turns. unfold process_transcript. unread_code.
Qed.

Lemma process_with_gemini_unread : forall transcript,
  unread (process_with_gemini json_loads format_value transcript).
Proof.
  intros transcript. unfold process_with_gemini.
  repeat first [ apply process_transcript_unread | unread_step
               | progress unfold safe_send ].
Qed.

Lemma receive_from_elevenlabs_unread : forall n,
  unread (receive_from_elevenlabs json_loads n).
Proof.
  intros n. unfold receive_from_elevenlabs, receive_from_elevenlabs_iteration,
    elevenlabs_message.
  unread_code.
Qed.

Lemma receive_from_client_unread : forall n,
  unread (receive_from_client json_loads json_dumps n).
Proof.
  intros n. unfold receive_from_client, receive_from_client_iteration, client_text.
  unread_code.
Qed.

Lemma session_run_unread : forall key, unread (session_run key).
Proof.
  intros key. unfold session_run. unread_code.
Qed.

Lemma websocket_transcribe_unread : unread websocket_transcribe.
Proof.
  unfold websocket_transcribe, session_start.
  repeat first [ apply session_run_unread | unread_step ].
Qed.

(** Two coroutines that go the same way, run alone against the same
    outside world. *)
Lemma similar_run : forall (env : answers) A (a1 a2 : act A),
  similar a1 a2 ->
  forall past,
    fst (run_from env past a1) = fst (run_from env past a2)
    /\ snd (snd (run_from env past a1)) = snd (snd (run_from env past a2))
    /\ same_session (fst (snd (run_from env past a1))) (fst (snd (run_from env past a2))).
Proof.
  intros env A a1 a2 H.
  induction H as [s1 s2 r H | R s1 s2 e k1 k2 H Hk IH]; intros past; cbn [run_from].
  - cbn. auto.
  - apply IH, H.
Qed.

(** X19. The accumulated transcript is written and never read: nothing a
    session does depends on it. From two states that differ in the
    accumulator only, each loop, each task and the session as a whole go the
    same way: they make the same calls with the same arguments, return or
    raise the same, and leave states that differ in the accumulator only,
    whatever the calls answer and however they are resumed. So neither a
    [clear] message nor the text appended for a final segment changes what
    the client, the provider or the service receive. *)
Theorem accumulator_never_read :
  (forall A (m : M A),
     @session_coroutine json_loads json_dumps format_value A m -> unread m)
  /\ (forall key, unread (session_run key))
  /\ unread websocket_transcribe
  /\ (forall A (m : M A) (env : answers) s text,
        @session_coroutine json_loads json_dumps format_value A m ->
        let out1 := run env (m s) in
        let out2 := run env (m (set_accumulated_transcript text s)) in
        fst out1 = fst out2
        /\ snd (snd out1) = snd (snd out2)
        /\ same_session (fst (snd out1)) (fst (snd out2))).
Proof.
  assert (Hm : forall A (m : M A),
             @session_coroutine json_loads json_dumps format_value A m -> unread m).
  { intros A m [n | n | transcript].
    - apply receive_from_elevenlabs_unread.
    - apply receive_from_client_unread.
    - apply process_with_gemini_unread. }
  split; [exact Hm|].
  split; [apply session_run_unread|].
  split; [apply websocket_transcribe_unread|].
  intros A m env s text Hstarted out1 out2. subst out1 out2.
  apply similar_run, (Hm A m Hstarted). reflexivity.
Qed.

End Unread.

(** With or without text accumulated, the loop of the client does the
    same with a [stop] message. *)
Lemma accumulator_never_read_witness :
  let env := client_sends [text_frame (dq "{'type': 'stop'}")] (Ok tt) in
  let out1 := run env (receive_from_client sample_loads sample_dumps 2 sample_world) in
  let out2 := run env (receive_from_client sample_loads sample_dumps 2
                         (set_accumulated_transcript (lit " book a flight") sample_world)) in
  fst out1 = fst out2
  /\ snd (snd out1) = snd (snd out2)
  /\ same_session (fst (snd out1)) (fst (snd out2)).
Proof.
  intros env.
  exact (proj2 (proj2 (proj2 (accumulator_never_read sample_loads sample_dumps sample_format)))
           _ _ env sample_world (lit " book a flight")
           (started_receive_from_client _ _ _ 2)).
Defined.
